(** * Midna: evidence collection and classification engine

    A shallow embedding of the dependency auditor's core (scanner.ts,
    parser.ts, confidence.ts, cache.ts, package.ts, analyzer.ts and the
    pure parts of output.ts and workspace.ts) together with the properties
    its specification states about it and further properties of the code.

    Conventions of the embedding:
    - a JavaScript string is the list of its UTF-16 code units ([N]);
    - a JavaScript number is an exact rational ([Q]); the source only
      compares, adds, multiplies by a constant and takes min/max;
    - [Map<string, _>] is a [gmap] keyed by strings;
    - a call that may throw returns [option] (or a small outcome type),
      and every [try]/[catch] of the source is written out;
    - the awaits of the source are sequential, so asynchronous functions
      are plain functions over an explicit file system and cache store. *)

From Stdlib Require Import NArith ZArith QArith Qminmax List String Ascii Lia Lqa.
From stdpp Require Import gmap list.
Import ListNotations.

Local Open Scope N_scope.

(** ** JavaScript strings and the string builtins the sources call *)

Module JS.

Abbreviation jsstring := (list N).

(** A source-code literal without quote characters. *)
Definition lit (s : string) : jsstring :=
  List.map N_of_ascii (list_ascii_of_string s).

Definition c_nl : N := 10.
Definition c_dq : N := 34.
Definition c_sq : N := 39.
Definition c_slash : N := 47.
Definition c_semi : N := 59.
Definition c_at : N := 64.
Definition c_backslash : N := 92.

(** WhiteSpace and LineTerminator code points of ECMAScript: what
    [String.prototype.trim] removes and what the regex class [\s] accepts. *)
Definition isWhiteSpace (c : N) : bool :=
  existsb (N.eqb c)
    [9; 10; 11; 12; 13; 32; 160; 5760; 8232; 8233; 8239; 8287; 12288; 65279]
  || ((8192 <=? c) && (c <=? 8202)).

(** LineTerminator code points: what the regex atom [.] refuses. *)
Definition isLineTerminator (c : N) : bool :=
  existsb (N.eqb c) [10; 13; 8232; 8233].

Fixpoint dropWhile (p : N -> bool) (s : jsstring) : jsstring :=
  match s with
  | [] => []
  | c :: s' => if p c then dropWhile p s' else s
  end.

Definition trimStart (s : jsstring) : jsstring := dropWhile isWhiteSpace s.
Definition trimEnd (s : jsstring) : jsstring := rev (dropWhile isWhiteSpace (rev s)).
Definition trim (s : jsstring) : jsstring := trimEnd (trimStart s).

(** [s.split(sep)] for a separator of one code unit; the result is never
    empty: [split sep [] = [[]]]. *)
Fixpoint split (sep : N) (s : jsstring) : list jsstring :=
  match s with
  | [] => [[]]
  | c :: s' =>
      if c =? sep then [] :: split sep s'
      else match split sep s' with
           | p :: ps => (c :: p) :: ps
           | [] => [[c]]
           end
  end.

Fixpoint startsWith (s p : jsstring) {struct p} : bool :=
  match p with
  | [] => true
  | a :: p' =>
      match s with
      | [] => false
      | b :: s' => (a =? b) && startsWith s' p'
      end
  end.

(** [s === t] on strings. *)
Definition eqs (s t : jsstring) : bool := bool_decide (s = t).

(** [arr[i]] inside a template string or as a result, for an index the
    source has checked to be in range. *)
Definition at_index (parts : list jsstring) (i : nat) : jsstring :=
  default [] (parts !! i).

(** [s.slice(0, n)] on strings and arrays is [take n]. *)

Definition endsWith (s p : jsstring) : bool := startsWith (rev s) (rev p).

(** [set.add(x)] on a [Set] of strings, kept in insertion order as
    [Array.from] lists it. *)
Definition Set_add (xs : list jsstring) (x : jsstring) : list jsstring :=
  if bool_decide (x ∈ xs) then xs else xs ++ [x].

End JS.

Import JS.

(** ** The fragment of [RegExp] the prefilter's patterns are written in *)

Module RegExp.

Inductive atom :=
| Lit (c : N)            (* a pattern character, or an escaped syntax character *)
| Dot                    (* [.]: any code unit but a line terminator *)
| Space                  (* [\s] *)
| Class (cs : list N).   (* [[...]] listing its members *)

(** [*], [+], [?] and no quantifier. A lazy quantifier ([*?]) accepts the
    same strings; [test] only asks whether a match exists. *)
Inductive quant := One | Star | Plus | Opt.

Definition regex : Type := list (atom * quant).

Definition atomMatches (a : atom) (c : N) : bool :=
  match a with
  | Lit d => d =? c
  | Dot => negb (isLineTerminator c)
  | Space => isWhiteSpace c
  | Class cs => existsb (N.eqb c) cs
  end.

(** The syntax characters of a pattern: [^ $ \ . * + ? ( ) [ ] { } |]. *)
Definition isSyntaxChar (c : N) : bool :=
  existsb (N.eqb c) [94; 36; 92; 46; 42; 43; 63; 40; 41; 91; 93; 123; 125; 124].

Inductive mode := Normal | Escaped | InClass (cs : list N).

(** Parser state: the items read so far, whether the last item may still
    take a quantifier, and whether the last character was a quantifier
    (which a following [?] turns lazy). *)
Record pstate := {
  items : regex;
  pmode : mode;
  canQuant : bool;
  canLazy : bool
}.

Definition push (st : pstate) (a : atom) : pstate :=
  {| items := items st ++ [(a, One)]; pmode := Normal; canQuant := true; canLazy := false |}.

Definition quantify (st : pstate) (q : quant) : option pstate :=
  match rev (items st) with
  | (a, _) :: r =>
      if canQuant st
      then Some {| items := rev r ++ [(a, q)]; pmode := Normal;
                   canQuant := false; canLazy := true |}
      else None
  | [] => None
  end.

(** One pattern character. [None]: a [SyntaxError], or syntax outside the
    fragment (groups, alternation, anchors, braces, ranges, other escapes). *)
Definition step (st : pstate) (c : N) : option pstate :=
  match pmode st with
  | Normal =>
      if c =? 92 then
        Some {| items := items st; pmode := Escaped; canQuant := false; canLazy := false |}
      else if c =? 91 then
        Some {| items := items st; pmode := InClass []; canQuant := false; canLazy := false |}
      else if c =? 46 then Some (push st Dot)
      else if c =? 42 then quantify st Star
      else if c =? 43 then quantify st Plus
      else if c =? 63 then
        if canLazy st
        then Some {| items := items st; pmode := Normal; canQuant := false; canLazy := false |}
        else quantify st Opt
      else if isSyntaxChar c then None
      else Some (push st (Lit c))
  | Escaped =>
      if c =? 115 then Some (push st Space)
      else if isSyntaxChar c || (c =? c_slash) then Some (push st (Lit c))
      else None
  | InClass cs =>
      if c =? 93 then Some (push st (Class cs))
      else if (c =? 92) || (c =? 94) || (c =? 45) then None
      else Some {| items := items st; pmode := InClass (cs ++ [c]);
                   canQuant := false; canLazy := false |}
  end.

Definition run (st : option pstate) (pattern : jsstring) : option pstate :=
  fold_left (fun o c => match o with Some st => step st c | None => None end) pattern st.

Definition initial : pstate :=
  {| items := []; pmode := Normal; canQuant := false; canLazy := false |}.

(** [new RegExp(pattern, 'm')]; none of the patterns has an anchor, so the
    flag changes nothing. *)
Definition new_RegExp (pattern : jsstring) : option regex :=
  match run (Some initial) pattern with
  | Some st => match pmode st with Normal => Some (items st) | _ => None end
  | None => None
  end.

(** Zero or more code units accepted by [a], then the continuation. *)
Fixpoint starLoop (a : atom) (k : jsstring -> bool) (s : jsstring) : bool :=
  k s || match s with
         | c :: s' => atomMatches a c && starLoop a k s'
         | [] => false
         end.

(** Some prefix of [s] is matched by [r]. *)
Fixpoint matchHere (r : regex) (s : jsstring) : bool :=
  match r with
  | [] => true
  | (a, One) :: r' =>
      match s with c :: s' => atomMatches a c && matchHere r' s' | [] => false end
  | (a, Opt) :: r' =>
      matchHere r' s
      || match s with c :: s' => atomMatches a c && matchHere r' s' | [] => false end
  | (a, Star) :: r' => starLoop a (matchHere r') s
  | (a, Plus) :: r' =>
      match s with c :: s' => atomMatches a c && starLoop a (matchHere r') s' | [] => false end
  end.

(** [pattern.test(s)]: a match may start at any index. *)
Fixpoint test (r : regex) (s : jsstring) : bool :=
  matchHere r s || match s with _ :: s' => test r s' | [] => false end.

(** The strings a pattern denotes, stated without reference to the matcher. *)
Definition countOk (q : quant) (n : nat) : Prop :=
  match q with
  | One => n = 1%nat
  | Star => True
  | Plus => (1 <= n)%nat
  | Opt => (n <= 1)%nat
  end.

Fixpoint Matches (r : regex) (w : jsstring) : Prop :=
  match r with
  | [] => w = []
  | (a, q) :: r' =>
      exists w1 w2, w = w1 ++ w2 /\ Forall (fun c => atomMatches a c = true) w1
                    /\ countOk q (length w1) /\ Matches r' w2
  end.

(** The pattern that matches the word [w] and nothing else. *)
Definition literal (w : jsstring) : regex := List.map (fun c => (Lit c, One)) w.

End RegExp.

(** ** The services of the runtime: file system, parser, hashing, clock *)

Module Node.

Inductive Syntax := typescript | ecmascript.

(** The options object handed to [parseSync] (the target is constant). *)
Record ParseOptions := { syntax : Syntax; tsx : bool; jsx : bool }.

(** A JavaScript value as far as the syntax tree uses them. *)
#[warnings="-register-all"]
Inductive JsVal :=
| VUndefined
| VNull
| VBool (b : bool)
| VNum (z : Z)
| VStr (s : jsstring)
| VArr (xs : list JsVal)
| VObj (fields : list (jsstring * JsVal)).

Record FileStats := { mtimeMs : Q; size : N }.

Record Env := {
  (** [readFile(path, 'utf-8')]; [None] when it rejects. *)
  readFile : jsstring -> option jsstring;
  (** [stat(path)]; [None] when it rejects. *)
  stat : jsstring -> option FileStats;
  (** whether [mkdir] and [writeFile] succeed for the cache file of a path. *)
  canWrite : jsstring -> bool;
  (** [createHash('sha256').update(s).digest('hex')]. *)
  sha256 : jsstring -> jsstring;
  (** [parseSync] of @swc/core; [None] when it throws. *)
  parseSync : jsstring -> ParseOptions -> option JsVal;
  (** [glob(patterns, {cwd, ignore, absolute: true, onlyFiles: true})]. *)
  glob : list jsstring -> jsstring -> list jsstring -> list jsstring;
  (** [new Date().toISOString()]. *)
  now : jsstring
}.

End Node.

Import Node.

(** ** types.ts: the data model *)

Module Types.

Inductive DependencyStatus := used | unused | uncertain.

Inductive UsageSide := client | server | both | unknown.

(** The nine evidence tags of the [EvidenceType] union. The tag is a string
    at run time; [unrecognized] stands for a tag outside the union (the
    tests build one with a cast). *)
Inductive EvidenceType :=
| static_import | dynamic_import | require | config_reference
| string_reference | plugin_reference | type_import | export_from
| css_import | unrecognized.

Inductive DependencySection :=
| dependencies | devDependencies | optionalDependencies | peerDependencies.

Record EvidenceEntry := {
  file : jsstring;
  line : option Z;
  type : EvidenceType;
  snippet : option jsstring
}.

Record PackageResult := {
  name : jsstring;
  section : DependencySection;
  status : DependencyStatus;
  confidence : Q;
  side : UsageSide;
  evidence : list EvidenceEntry;
  notes : list jsstring
}.

Record Totals := { t_used : nat; t_unused : nat; t_uncertain : nat }.

Record ScanResult := {
  version : jsstring;
  timestamp : jsstring;
  repoRoot : jsstring;
  workspace : option jsstring;
  packages : list PackageResult;
  totals : Totals
}.

Record ScanOptions := {
  cwd : jsstring;
  include : option (list jsstring);
  exclude : option (list jsstring);
  noCache : option bool;
  cacheDir : option jsstring;
  minConfidenceUnused : Q;
  minConfidenceUsed : Q;
  opt_workspace : option jsstring
}.

Record CacheEntry := {
  hash : jsstring;
  mtime : Q;
  imports : list jsstring;
  isClient : option bool
}.

Record ParsedImport := {
  packageName : jsstring;
  imp_type : EvidenceType;
  imp_line : Z;
  isTypeOnly : option bool
}.

(** A dependency section of the manifest: the object's own keys, in the
    order [Object.keys] lists them, with their version strings. *)
Definition DepRecord : Type := list (jsstring * jsstring).

Record PackageJson := {
  pj_dependencies : option DepRecord;
  pj_devDependencies : option DepRecord;
  pj_optionalDependencies : option DepRecord;
  pj_peerDependencies : option DepRecord
}.

(** One entry of the list [extractDependencies] builds. *)
Record DependencyInfo := {
  di_name : jsstring;
  di_version : jsstring;
  di_section : DependencySection
}.

#[export] Instance EvidenceType_eq_dec : EqDecision EvidenceType.
Proof. solve_decision. Defined.

#[export] Instance DependencyStatus_eq_dec : EqDecision DependencyStatus.
Proof. solve_decision. Defined.

#[export] Instance DependencySection_eq_dec : EqDecision DependencySection.
Proof. solve_decision. Defined.

#[export] Instance EvidenceEntry_eq_dec : EqDecision EvidenceEntry.
Proof. solve_decision. Defined.

End Types.

Import Types.


(** ** scanner.ts: helpers *)

Module Scanner.

Definition DEFAULT_EXTENSIONS : list jsstring :=
  List.map lit [".js"; ".jsx"; ".ts"; ".tsx"; ".mjs"; ".cjs"]%string.

Definition DEFAULT_IGNORE : list jsstring :=
  List.map lit ["**/node_modules/**"; "**/.next/**"; "**/dist/**"; "**/build/**";
                "**/out/**"; "**/coverage/**"; "**/.turbo/**"; "**/.cache/**";
                "**/.git/**"]%string.

Definition NEXTJS_DIRECTORIES : list jsstring :=
  List.map lit ["app"; "src/app"; "pages"; "src/pages"; "components";
                "src/components"; "lib"; "src/lib"; "utils"; "src/utils";
                "hooks"; "src/hooks"; "contexts"; "src/contexts"; "services";
                "src/services"; "api"; "src/api"]%string.

Definition CONFIG_FILES : list jsstring :=
  List.map lit ["next.config.{js,mjs,cjs,ts}"; "tailwind.config.*";
                "postcss.config.*"; "eslint.config.*"; ".eslintrc.*";
                "prettier.config.*"; "jest.config.*"; "vitest.config.*";
                "playwright.config.*"; "cypress.config.*"; "babel.config.*";
                "tsconfig.json"]%string.

Definition NEXTJS_FILES : list jsstring :=
  List.map lit ["middleware.{ts,js}"; "instrumentation.{ts,js}"]%string.

Definition findFiles (env : Env) (options : ScanOptions) : list jsstring :=
  let patterns :=
    flat_map (fun dir => List.map (fun ext => dir ++ lit "/**/*" ++ ext) DEFAULT_EXTENSIONS)
             NEXTJS_DIRECTORIES
    ++ CONFIG_FILES ++ NEXTJS_FILES ++ default [] (include options) in
  let ignore := DEFAULT_IGNORE ++ default [] (exclude options) in
  glob env patterns (cwd options) ignore.

(** [str.replace(/[.*+?^${}()|[\]\\]/g, '\\$&')]: a backslash goes before
    every code unit of the class. *)
Definition isEscaped (c : N) : bool :=
  existsb (N.eqb c) [46; 42; 43; 63; 94; 36; 123; 125; 40; 41; 124; 91; 93; 92].

Definition escapeRegex (str : jsstring) : jsstring :=
  flat_map (fun c => if isEscaped c then [c_backslash; c] else [c]) str.

(** The character class the template strings spell for a quote. *)
Definition quoteClass : jsstring := lit "['" ++ [c_dq; c_dq] ++ lit "]".

(** The pattern sources of [fastScan], in the order of the array. *)
Definition patternSources (pkg : jsstring) : list jsstring :=
  [ lit "import\s+.*?\s+from\s+" ++ quoteClass ++ escapeRegex pkg;
    lit "import\s*\(\s*" ++ quoteClass ++ escapeRegex pkg;
    lit "require\s*\(\s*" ++ quoteClass ++ escapeRegex pkg;
    lit "export\s+.*?\s+from\s+" ++ quoteClass ++ escapeRegex pkg;
    quoteClass ++ escapeRegex pkg ++ quoteClass ].

(** Building the array of patterns: [None] when a constructor throws. *)
Fixpoint compileAll (sources : list jsstring) : option (list RegExp.regex) :=
  match sources with
  | [] => Some []
  | src :: rest =>
      match RegExp.new_RegExp src with
      | None => None
      | Some r => match compileAll rest with
                  | None => None
                  | Some rs => Some (r :: rs)
                  end
      end
  end.

(** The [for] loop over the package names; [None] when an iteration throws. *)
Fixpoint scanLoop (content : jsstring) (packageNames found : list jsstring)
    : option (list jsstring) :=
  match packageNames with
  | [] => Some found
  | pkg :: rest =>
      match compileAll (patternSources pkg) with
      | None => None
      | Some patterns =>
          scanLoop content rest
            (if existsb (fun pattern => RegExp.test pattern content) patterns
             then Set_add found pkg else found)
      end
  end.

(** [fastScan]: the whole body sits in one [try]; any throw gives [[]]. *)
Definition fastScan (env : Env) (filePath : jsstring) (packageNames : list jsstring)
    : list jsstring :=
  match readFile env filePath with
  | None => []
  | Some content =>
      match scanLoop content packageNames [] with
      | Some found => found
      | None => []
      end
  end.

Definition getFileStats (env : Env) (filePath : jsstring) : option FileStats :=
  stat env filePath.

(** [normalizePackageName] of scanner.ts. *)
Definition normalizePackageName (importPath : jsstring) : jsstring :=
  let parts := split c_slash importPath in
  if startsWith importPath [c_at] && (2 <=? length parts)%nat
  then at_index parts 0 ++ [c_slash] ++ at_index parts 1
  else at_index parts 0.

(** The two canonical quoted forms of the directive. *)
Definition useClientDq : jsstring := [c_dq] ++ lit "use client" ++ [c_dq].
Definition useClientSq : jsstring := [c_sq] ++ lit "use client" ++ [c_sq].

(** [hasUseClient] of scanner.ts: [some] over the first 10 lines. *)
Definition hasUseClient (content : jsstring) : bool :=
  let firstLines := take 10 (split c_nl content) in
  existsb (fun line => eqs (trim line) useClientDq || eqs (trim line) useClientSq)
          firstLines.

(** The eleven patterns of [isConfigFile] without an anchor, as their
    sources are written between the slashes. *)
Definition configPatternSources : list jsstring :=
  List.map lit ["next\.config\."; "tailwind\.config\."; "postcss\.config\.";
                "eslint\.config\."; "\.eslintrc\."; "prettier\.config\.";
                "jest\.config\."; "vitest\.config\."; "playwright\.config\.";
                "cypress\.config\."; "babel\.config\."]%string.

(** [/source/.test(s)] for a regex literal of the fragment. *)
Definition testSource (source s : jsstring) : bool :=
  match RegExp.new_RegExp source with
  | Some pattern => RegExp.test pattern s
  | None => false
  end.

(** [filePath.split('/').pop() || ''] *)
Definition basenameOf (filePath : jsstring) : jsstring :=
  default [] (last (split c_slash filePath)).

(** [isConfigFile]: the anchored patterns are written out: [/tsconfig\.json$/]
    asks for a suffix, [/^middleware\.(ts|js)$/] and
    [/^instrumentation\.(ts|js)$/] for one of two names. *)
Definition isConfigFile (filePath : jsstring) : bool :=
  let basename := basenameOf filePath in
  existsb (fun source => testSource source basename) configPatternSources
  || endsWith basename (lit "tsconfig.json")
  || (eqs basename (lit "middleware.ts") || eqs basename (lit "middleware.js"))
  || (eqs basename (lit "instrumentation.ts") || eqs basename (lit "instrumentation.js")).

End Scanner.

(** ** parser.ts: directive detection and name normalization *)

Module Parser.

(** [normalizePackageName] of parser.ts (a copy of the scanner's). *)
Definition normalizePackageName (importPath : jsstring) : jsstring :=
  let parts := split c_slash importPath in
  if startsWith importPath [c_at] && (2 <=? length parts)%nat
  then at_index parts 0 ++ [c_slash] ++ at_index parts 1
  else at_index parts 0.

(** [trimmed.replace(/;$/, '')]: one trailing semicolon is removed. *)
Definition stripSemi (s : jsstring) : jsstring :=
  match rev s with
  | c :: r => if c =? c_semi then rev r else s
  | [] => s
  end.

(** The [for] loop of [detectUseClient]: [return true] on a match,
    [break] on the first line that is neither blank nor a line comment. *)
Fixpoint detectLoop (lines : list jsstring) : bool :=
  match lines with
  | [] => false
  | line :: rest =>
      let trimmed := trim line in
      let withoutSemi := stripSemi trimmed in
      if eqs withoutSemi Scanner.useClientDq || eqs withoutSemi Scanner.useClientSq
      then true
      else if negb (eqs trimmed []) && negb (startsWith trimmed (lit "//"))
      then false
      else detectLoop rest
  end.

Definition detectUseClient (content : jsstring) : bool :=
  detectLoop (take 20 (split c_nl content)).

(** Property reads on syntax-tree values. The keys the walk reads
    ([type], [source], [value], [importKind], [span], [start], [callee],
    [arguments], [expression]) exist on objects only. *)
Fixpoint lookupField (fields : list (jsstring * JsVal)) (key : jsstring) : JsVal :=
  match fields with
  | [] => VUndefined
  | (k, v) :: rest => if eqs k key then v else lookupField rest key
  end.

Definition getProp (v : JsVal) (key : jsstring) : JsVal :=
  match v with
  | VObj fields => lookupField fields key
  | _ => VUndefined
  end.

(** [v?.key] *)
Definition optProp (v : JsVal) (key : jsstring) : JsVal :=
  match v with
  | VUndefined | VNull => VUndefined
  | _ => getProp v key
  end.

(** [v?.[0]] *)
Definition optFirst (v : JsVal) : JsVal :=
  match v with
  | VArr (x :: _) => x
  | VObj fields => lookupField fields (lit "0")
  | _ => VUndefined
  end.

Definition truthy (v : JsVal) : bool :=
  match v with
  | VUndefined | VNull => false
  | VBool b => b
  | VNum z => negb (z =? 0)%Z
  | VStr s => negb (eqs s [])
  | VArr _ | VObj _ => true
  end.

(** [v === 'literal'] *)
Definition isStr (v : JsVal) (s : string) : bool :=
  match v with
  | VStr t => eqs t (lit s)
  | _ => false
  end.

(** [node.span?.start || 0]; the start offset of a span is a number. *)
Definition lineOf (node : JsVal) : Z :=
  match optProp (getProp node (lit "span")) (lit "start") with
  | VNum z => z
  | _ => 0%Z
  end.

(** The [imports] array while the walk runs, and whether it threw. *)
Inductive outcome :=
| Done (imports : list ParsedImport)
| Threw (imports : list ParsedImport).

(** [imports.push({packageName: normalizePackageName(v), ...})]: the call
    throws a [TypeError] when [v] is not a string. *)
Definition pushImport (imports : list ParsedImport) (v : JsVal) (t : EvidenceType)
    (node : JsVal) (typeOnly : option bool) : outcome :=
  match v with
  | VStr spec =>
      Done (imports ++ [{| packageName := normalizePackageName spec; imp_type := t;
                           imp_line := lineOf node; isTypeOnly := typeOnly |}])
  | _ => Threw imports
  end.

Definition andThen (o : outcome) (k : list ParsedImport -> outcome) : outcome :=
  match o with
  | Done imports => k imports
  | Threw imports => Threw imports
  end.

(** The four [if] statements at the head of [extractImportsFromAST]. *)
Definition visitNode (node : JsVal) (imports : list ParsedImport) : outcome :=
  let sourceValue := optProp (getProp node (lit "source")) (lit "value") in
  let isType := isStr (getProp node (lit "importKind")) "type" in
  andThen
    (if isStr (getProp node (lit "type")) "ImportDeclaration" && truthy sourceValue
     then pushImport imports sourceValue (if isType then type_import else static_import)
                     node (Some isType)
     else Done imports)
    (fun imports =>
  andThen
    (if (isStr (getProp node (lit "type")) "ExportAllDeclaration"
         || isStr (getProp node (lit "type")) "ExportNamedDeclaration")
        && truthy sourceValue
     then pushImport imports sourceValue export_from node None
     else Done imports)
    (fun imports =>
  andThen
    (if isStr (getProp node (lit "type")) "ImportExpression" && truthy sourceValue
     then pushImport imports sourceValue dynamic_import node None
     else Done imports)
    (fun imports =>
     let callee := getProp node (lit "callee") in
     let argValue :=
       optProp (optProp (optFirst (getProp node (lit "arguments"))) (lit "expression"))
               (lit "value") in
     if isStr (getProp node (lit "type")) "CallExpression"
        && isStr (optProp callee (lit "type")) "Identifier"
        && isStr (optProp callee (lit "value")) "require"
        && truthy argValue
     then pushImport imports argValue require node None
     else Done imports))).

(** [extractImportsFromAST]: the head, then [for (const key in node)] with
    [span] and [parent] skipped; arrays are walked element by element. *)
Fixpoint extractImportsFromAST (node : JsVal) (imports : list ParsedImport)
    {struct node} : outcome :=
  let each :=
    fix each (children : list JsVal) (imports : list ParsedImport) : outcome :=
      match children with
      | [] => Done imports
      | child :: rest =>
          andThen (extractImportsFromAST child imports) (each rest)
      end in
  match node with
  | VObj fields =>
      andThen (visitNode node imports)
        ((fix walk (fs : list (jsstring * JsVal)) (imports : list ParsedImport) : outcome :=
            match fs with
            | [] => Done imports
            | (key, value) :: rest =>
                if eqs key (lit "span") || eqs key (lit "parent") then walk rest imports
                else andThen
                       (match value with
                        | VArr children => each children imports
                        | VObj _ => extractImportsFromAST value imports
                        | _ => Done imports
                        end)
                       (walk rest)
            end) fields)
  | VArr elements =>
      (fix walk (es : list JsVal) (imports : list ParsedImport) : outcome :=
         match es with
         | [] => Done imports
         | value :: rest =>
             andThen
               (match value with
                | VArr children => each children imports
                | VObj _ => extractImportsFromAST value imports
                | _ => Done imports
                end)
               (walk rest)
         end) elements imports
  | _ => Done imports
  end.

Definition parseOptions (filePath : jsstring) : ParseOptions :=
  {| syntax := if endsWith filePath (lit ".ts") || endsWith filePath (lit ".tsx")
               then typescript else ecmascript;
     tsx := endsWith filePath (lit ".tsx");
     jsx := endsWith filePath (lit ".jsx") |}.

(** [parseFile]: the [catch] swallows a throw of [parseSync] as well as one
    of the walk, and the array built so far is returned. *)
Definition parseFile (env : Env) (content filePath : jsstring) : list ParsedImport :=
  match parseSync env content (parseOptions filePath) with
  | None => []
  | Some ast =>
      match extractImportsFromAST ast [] with
      | Done imports => imports
      | Threw imports => imports
      end
  end.

End Parser.

(** ** confidence.ts *)

Module Confidence.

Local Open Scope Q_scope.

(** The object literal [EVIDENCE_SCORES]; a tag outside it looks up
    [undefined]. *)
Definition EVIDENCE_SCORES (t : EvidenceType) : option Q :=
  match t with
  | static_import => Some 1
  | type_import => Some (9 # 10)
  | export_from => Some 1
  | require => Some 1
  | dynamic_import => Some (8 # 10)
  | css_import => Some (9 # 10)
  | config_reference => Some (4 # 10)
  | string_reference => Some (3 # 10)
  | plugin_reference => Some (5 # 10)
  | unrecognized => None
  end.

(** [EVIDENCE_SCORES[e.type] || 0.5]: [undefined] and [0] are falsy. *)
Definition scoreOf (e : EvidenceEntry) : Q :=
  match EVIDENCE_SCORES (type e) with
  | Some q => if Qeq_bool q 0 then 5 # 10 else q
  | None => 5 # 10
  end.

(** [Math.max(x, ...xs)] on a list that is not empty. *)
Definition Math_max (x : Q) (xs : list Q) : Q := fold_left Qmax xs x.

Definition calculateConfidence (evidence : list EvidenceEntry) : Q :=
  match List.map scoreOf evidence with
  | [] => 0
  | x :: xs =>
      let maxScore := Math_max x xs in
      let evidenceBoost :=
        Qmin ((inject_Z (Z.of_nat (length evidence)) - 1) * (5 # 100)) (15 # 100) in
      Qmin (maxScore + evidenceBoost) 1
  end.

(** [a >= b] and [a < b] on numbers. *)
Definition geb (a b : Q) : bool := Qle_bool b a.
Definition ltb (a b : Q) : bool := negb (Qle_bool b a).

Definition classifyDependency (confidence minUnused minUsed : Q) : DependencyStatus :=
  if geb confidence minUsed then used
  else if ltb confidence minUnused then unused
  else uncertain.

Definition determineUsageSide (results : gmap jsstring bool) : UsageSide :=
  let hasClient := default false (results !! lit "client") in
  let hasServer := default false (results !! lit "server") in
  if hasClient && hasServer then both
  else if hasClient then client
  else if hasServer then server
  else unknown.

Definition hasType (t : EvidenceType) (evidence : list EvidenceEntry) : bool :=
  (0 <? length (List.filter (fun e => bool_decide (type e = t)) evidence))%nat.

Definition generateNotes (status : DependencyStatus) (evidence : list EvidenceEntry)
    (section : DependencySection) : list jsstring :=
  (if bool_decide (status = uncertain) then
     (if hasType config_reference evidence
      then [lit "Referenced in config files but not verified as imported"] else [])
     ++ (if hasType string_reference evidence
         then [lit "Only found as string literal references"] else [])
     ++ (if hasType plugin_reference evidence
         then [lit "Possibly used as plugin - verify manually"] else [])
     ++ (if (length evidence =? 0)%nat then [lit "No usage evidence found"] else [])
   else [])
  ++ (if bool_decide (section = peerDependencies)
      then [lit "Peer dependency - do not remove without checking dependents"]
      else []).

Definition getSortPriority (status : DependencyStatus) : Z :=
  match status with
  | used => 0
  | uncertain => 1
  | unused => 2
  end.

End Confidence.

(** ** package.ts *)

Module Package.

(** The sections in the order of [DEPENDENCY_SECTIONS]. *)
Definition sections (pkg : PackageJson) : list (option DepRecord) :=
  [pj_dependencies pkg; pj_devDependencies pkg;
   pj_optionalDependencies pkg; pj_peerDependencies pkg].

Definition getAllDependencyNames (pkg : PackageJson) : list jsstring :=
  fold_left
    (fun names deps =>
       match deps with
       | Some d => fold_left Set_add (List.map fst d) names
       | None => names
       end)
    (sections pkg) [].

(** [rec?.[name]] is truthy: the key is present with a version string
    that is not empty. *)
Fixpoint lookupKey (d : DepRecord) (name : jsstring) : option jsstring :=
  match d with
  | [] => None
  | (k, v) :: d' =>
      match lookupKey d' name with
      | Some v' => Some v'
      | None => if eqs k name then Some v else None
      end
  end.

Definition truthyAt (rec : option DepRecord) (name : jsstring) : bool :=
  match rec with
  | Some d => match lookupKey d name with
              | Some v => negb (eqs v [])
              | None => false
              end
  | None => false
  end.

Definition getDependencySection (pkg : PackageJson) (name : jsstring)
    : option DependencySection :=
  if truthyAt (pj_dependencies pkg) name then Some dependencies
  else if truthyAt (pj_devDependencies pkg) name then Some devDependencies
  else if truthyAt (pj_optionalDependencies pkg) name then Some optionalDependencies
  else if truthyAt (pj_peerDependencies pkg) name then Some peerDependencies
  else None.

Definition DEPENDENCY_SECTIONS : list DependencySection :=
  [dependencies; devDependencies; optionalDependencies; peerDependencies].

(** [pkg[section]] *)
Definition sectionOf (pkg : PackageJson) (section : DependencySection) : option DepRecord :=
  match section with
  | dependencies => pj_dependencies pkg
  | devDependencies => pj_devDependencies pkg
  | optionalDependencies => pj_optionalDependencies pkg
  | peerDependencies => pj_peerDependencies pkg
  end.

Definition extractDependencies (pkg : PackageJson) : list DependencyInfo :=
  flat_map
    (fun section =>
       match sectionOf pkg section with
       | Some deps =>
           List.map (fun '(name, version) =>
                       {| di_name := name; di_version := version; di_section := section |})
                    deps
       | None => []
       end)
    DEPENDENCY_SECTIONS.

Definition MAX_PACKAGE_NAME_LENGTH : nat := 214.

(** The class [[a-z0-9-~]]. *)
Definition isNameStart (c : N) : bool :=
  ((97 <=? c) && (c <=? 122)) || ((48 <=? c) && (c <=? 57)) || (c =? 45) || (c =? 126).

(** The class [[a-z0-9-._~]]. *)
Definition isNameChar (c : N) : bool :=
  ((97 <=? c) && (c <=? 122)) || ((48 <=? c) && (c <=? 57))
  || (c =? 45) || (c =? 46) || (c =? 95) || (c =? 126).

(** [[a-z0-9-~][a-z0-9-._~]*] matching the whole of [s]. *)
Definition isNamePart (s : jsstring) : bool :=
  match s with
  | c :: r => isNameStart c && forallb isNameChar r
  | [] => false
  end.

(** [SCOPED_PACKAGE_PATTERN.test(s)]: the pattern is anchored at both ends;
    either the optional group is absent, or [s] is an [@], a name part, a
    slash at some index and a name part. *)
Definition SCOPED_PACKAGE_PATTERN_test (s : jsstring) : bool :=
  isNamePart s
  || match s with
     | c :: r =>
         (c =? c_at)
         && existsb (fun i => isNamePart (take i r)
                              && eqs (take 1 (drop i r)) [c_slash]
                              && isNamePart (drop (S i) r))
                    (seq 0 (length r))
     | [] => false
     end.

Definition isValidPackageName (name : jsstring) : bool :=
  if (length name =? 0)%nat || (MAX_PACKAGE_NAME_LENGTH <? length name)%nat then false
  else if startsWith name (lit ".") || startsWith name (lit "_") then false
  else SCOPED_PACKAGE_PATTERN_test name.

End Package.

(** ** cache.ts *)

Module Cache.

(** What reading and parsing a cache file gives when the file exists:
    an entry as [set] wrote it ([Stored]), or nothing usable ([Corrupt]):
    [readFile] or [JSON.parse] throws, or the parsed value is [null] or
    holds no [mtime] number, and then [cached.mtime] throws or differs from
    every modification time. *)
Inductive CacheFile :=
| Corrupt
| Stored (entry : CacheEntry).

(** The cache directory. The file of a source path is named by
    [getCacheFilePath] (a prefix of the path's digest and a sanitized tail
    of the path); the store is indexed by the source path the name is
    derived from, and a path without a binding has no cache file. *)
Definition CacheStore : Type := gmap jsstring CacheFile.

Record CacheManager := { cm_cacheDir : jsstring; enabled : bool }.

Definition CACHE_DIRNAME : jsstring := lit ".midna-cache".

(** The constructor. *)
Definition new_CacheManager (dir : jsstring) (isEnabled : bool) : CacheManager :=
  {| cm_cacheDir := dir ++ [c_slash] ++ CACHE_DIRNAME; enabled := isEnabled |}.

Definition get (env : Env) (cm : CacheManager) (files : gmap jsstring CacheFile)
    (filePath : jsstring) : option CacheEntry :=
  if negb (enabled cm) then None
  else
    match files !! filePath with
    | None => None
    | Some Corrupt => None
    | Some (Stored cached) =>
        match stat env filePath with
        | None => None
        | Some fileStat =>
            if negb (Qeq_bool (mtime cached) (mtimeMs fileStat)) then None
            else Some cached
        end
    end.

Definition set (env : Env) (cm : CacheManager) (files : gmap jsstring CacheFile)
    (filePath : jsstring) (entry : CacheEntry) : gmap jsstring CacheFile :=
  if negb (enabled cm) then files
  else if canWrite env filePath then <[filePath := Stored entry]> files
  else files.

Definition createHash (env : Env) (content : jsstring) : jsstring := sha256 env content.

(** The class of [getCacheFilePath]: the angle brackets, the colon, the
    double quote, both slashes, the bar, the question mark and the star. *)
Definition isUnsafe (c : N) : bool :=
  existsb (N.eqb c) [60; 62; 58; 34; 47; 92; 124; 63; 42].

(** [s.slice(-n)] *)
Definition sliceLast (n : nat) (s : jsstring) : jsstring := drop (length s - n) s.

(** [safeName] of [getCacheFilePath]: every code unit of the class becomes
    an underscore, the leading dots go, the last 50 code units stay. *)
Definition safeName (filePath : jsstring) : jsstring :=
  sliceLast 50
    (dropWhile (fun c => c =? 46)
       (List.map (fun c => if isUnsafe c then 95 else c) filePath)).

(** The file name [getCacheFilePath] joins to the cache directory. *)
Definition cacheFileName (env : Env) (filePath : jsstring) : jsstring :=
  take 16 (createHash env filePath) ++ lit "_" ++ safeName filePath ++ lit ".json".

End Cache.

(** ** analyzer.ts *)

Module Analyzer.

Definition VERSION : jsstring := lit "1.0.0".

(** The two maps of [runScan] and the cache directory. *)
Record ScanState := {
  evidenceMap : gmap jsstring (list EvidenceEntry);
  sideMap : gmap jsstring (gmap jsstring bool);
  cacheFiles : gmap jsstring Cache.CacheFile
}.

Definition addEvidence (map : gmap jsstring (list EvidenceEntry)) (pkg : jsstring)
    (evidence : EvidenceEntry) : gmap jsstring (list EvidenceEntry) :=
  let existing := default [] (map !! pkg) in
  <[pkg := existing ++ [evidence]]> map.

Definition updateSideMap (map : gmap jsstring (gmap jsstring bool)) (pkg : jsstring)
    (isClient : option bool) : gmap jsstring (gmap jsstring bool) :=
  let sides := default ∅ (map !! pkg) in
  <[pkg := if default false isClient
           then <[lit "client" := true]> sides
           else <[lit "server" := true]> sides]> map.

Definition extractSnippet (content : jsstring) (line : Z) : jsstring :=
  let lines := split c_nl content in
  let index := (line - 1)%Z in
  if (0 <=? index)%Z && (index <? Z.of_nat (length lines))%Z
  then take 100 (trim (at_index lines (Z.to_nat index)))
  else [].

(** The branch of a cache hit. *)
Definition replayCached (filePath : jsstring) (cached : CacheEntry) (st : ScanState)
    : ScanState :=
  fold_left
    (fun st pkg =>
       {| evidenceMap :=
            addEvidence (evidenceMap st) pkg
              {| file := filePath; line := None; type := static_import;
                 snippet := Some (lit "(cached)") |};
          sideMap := updateSideMap (sideMap st) pkg (isClient cached);
          cacheFiles := cacheFiles st |})
    (imports cached) st.

(** The loop over the parsed imports; the third component is
    [foundPackages]. *)
Definition recordImports (filePath content : jsstring) (packageNames : list jsstring)
    (isClient : bool) (imports : list ParsedImport) (st : ScanState)
    : ScanState * list jsstring :=
  fold_left
    (fun '(st, foundPackages) imp =>
       if bool_decide (packageName imp ∈ packageNames)
       then ({| evidenceMap :=
                  addEvidence (evidenceMap st) (packageName imp)
                    {| file := filePath; line := Some (imp_line imp);
                       type := imp_type imp;
                       snippet := Some (extractSnippet content (imp_line imp)) |};
                sideMap := updateSideMap (sideMap st) (packageName imp) (Some isClient);
                cacheFiles := cacheFiles st |},
             Set_add foundPackages (packageName imp))
       else (st, foundPackages))
    imports (st, []).

(** The [catch] branch of Stage B. *)
Definition stringFallback (filePath : jsstring) (candidates : list jsstring)
    (st : ScanState) : ScanState :=
  fold_left
    (fun st pkg =>
       {| evidenceMap :=
            addEvidence (evidenceMap st) pkg
              {| file := filePath; line := None; type := string_reference;
                 snippet := Some (lit "(detected via string scan)") |};
          sideMap := sideMap st;
          cacheFiles := cacheFiles st |})
    candidates st.

Definition processFile (env : Env) (cache : Cache.CacheManager) (filePath : jsstring)
    (packageNames : list jsstring) (st : ScanState) : ScanState :=
  let cached := Cache.get env cache (cacheFiles st) filePath in
  let stats := Scanner.getFileStats env filePath in
  let hit :=
    match cached, stats with
    | Some c, Some s => if Qeq_bool (mtime c) (mtimeMs s) then Some c else None
    | _, _ => None
    end in
  match hit with
  | Some c => replayCached filePath c st
  | None =>
      let candidates := Scanner.fastScan env filePath packageNames in
      if (length candidates =? 0)%nat then st
      else
        match readFile env filePath with
        | None => stringFallback filePath candidates st
        | Some content =>
            let imports := Parser.parseFile env content filePath in
            let isClient := Parser.detectUseClient content in
            let '(st', foundPackages) :=
              recordImports filePath content packageNames isClient imports st in
            match stats with
            | Some s =>
                {| evidenceMap := evidenceMap st';
                   sideMap := sideMap st';
                   cacheFiles :=
                     Cache.set env cache (cacheFiles st') filePath
                       {| hash := Cache.createHash env content;
                          mtime := mtimeMs s;
                          imports := foundPackages;
                          isClient := Some isClient |} |}
            | None => st'
            end
        end
  end.

(** One package of the result loop. *)
Definition buildResult (options : ScanOptions) (packageJson : PackageJson)
    (st : ScanState) (depName : jsstring) : PackageResult :=
  let evidence := default [] (evidenceMap st !! depName) in
  let sideResults := default ∅ (sideMap st !! depName) in
  let confidence := Confidence.calculateConfidence evidence in
  let status :=
    Confidence.classifyDependency confidence
      (minConfidenceUnused options) (minConfidenceUsed options) in
  let section :=
    default dependencies (Package.getDependencySection packageJson depName) in
  {| name := depName;
     section := section;
     status := status;
     confidence := confidence;
     side := Confidence.determineUsageSide sideResults;
     evidence := evidence;
     notes := Confidence.generateNotes status evidence section |}.

Definition countStatus (s : DependencyStatus) (packages : list PackageResult) : nat :=
  length (List.filter (fun p => bool_decide (status p = s)) packages).

(** [readPackageJson(join(cwd, 'package.json'))]: the manifest file read
    and parsed; [None] when the read or [JSON.parse] throws, which
    [runScan] does not catch. *)
Definition Manifests : Type := jsstring -> option PackageJson.

(** [runScan], started on the cache directory [files]; it gives the result
    and the cache directory it leaves, or [None] when it rejects. *)
Definition runScan (env : Env) (readPackageJson : Manifests) (options : ScanOptions)
    (files : gmap jsstring Cache.CacheFile)
    : option (ScanResult * gmap jsstring Cache.CacheFile) :=
  let cache :=
    Cache.new_CacheManager
      (match cacheDir options with
       | Some d => if eqs d [] then cwd options else d
       | None => cwd options
       end)
      (negb (default false (noCache options))) in
  match readPackageJson (cwd options) with
  | None => None
  | Some packageJson =>
      let allDeps := Package.getAllDependencyNames packageJson in
      let scanned := Scanner.findFiles env options in
      let st :=
        fold_left (fun st filePath => processFile env cache filePath allDeps st) scanned
          {| evidenceMap := ∅; sideMap := ∅; cacheFiles := files |} in
      let packages := List.map (buildResult options packageJson st) allDeps in
      Some ({| version := VERSION;
               timestamp := now env;
               repoRoot := cwd options;
               workspace := opt_workspace options;
               packages := packages;
               totals := {| t_used := countStatus used packages;
                            t_unused := countStatus unused packages;
                            t_uncertain := countStatus uncertain packages |} |},
            cacheFiles st)
  end.

End Analyzer.

(** ** output.ts *)

Module Output.

(** [getStatusPriority] on the statuses a result holds. *)
Definition getStatusPriority (status : DependencyStatus) : Z :=
  match status with
  | unused => 0
  | uncertain => 1
  | used => 2
  end.

(** The safe removal candidates [formatTable] lists. *)
Definition safeToRemove (result : ScanResult) : list PackageResult :=
  List.filter
    (fun p => bool_decide (status p = unused)
              && Confidence.ltb (confidence p) (3 # 10)
              && negb (bool_decide (section p = peerDependencies)))
    (packages result).

End Output.

(** ** workspace.ts *)

Module Workspace.



End Workspace.

(** * Reference definitions

    The contracts of the specification, written independently of the
    code, and the notions the statements below are phrased with. *)

(** ** The directive detector as its contract words it *)

Module DirectiveSpec.

(** A line is skipped when, trimmed, it is empty or starts with [//]. *)
Definition skipped (line : jsstring) : bool :=
  eqs (trim line) [] || startsWith (trim line) (lit "//").

(** The single evaluation of a substantive line. *)
Definition isDirective (line : jsstring) : bool :=
  let stripped := Parser.stripSemi (trim line) in
  eqs stripped Scanner.useClientDq || eqs stripped Scanner.useClientSq.

(** The first line of the window that is not skipped decides. *)
Definition detect (window : nat) (content : jsstring) : bool :=
  match List.find (fun l => negb (skipped l)) (take window (split c_nl content)) with
  | Some line => isDirective line
  | None => false
  end.

End DirectiveSpec.

(** ** Strings *)

Module StringSpec.

(** [parts.join(sep)] for a separator of one code unit. *)
Fixpoint join (sep : N) (parts : list jsstring) : jsstring :=
  match parts with
  | [] => []
  | [p] => p
  | p :: ps => p ++ (sep :: join sep ps)
  end.

Definition isQuote (c : N) : Prop := c = c_sq \/ c = c_dq.

End StringSpec.

(** ** The confidence model *)

Module ConfidenceSpec.

Local Open Scope Q_scope.

(** The weight table of the specification. *)
Definition baseWeight (t : EvidenceType) : Q :=
  match t with
  | static_import | export_from | require => 1
  | type_import | css_import => 9 # 10
  | dynamic_import => 8 # 10
  | plugin_reference => 5 # 10
  | config_reference => 4 # 10
  | string_reference => 3 # 10
  | unrecognized => 5 # 10
  end.

(** The corroboration boost for [count] entries. *)
Definition boostOf (count : nat) : Q :=
  Qmin ((inject_Z (Z.of_nat count) - 1) * (5 # 100)) (15 # 100).

End ConfidenceSpec.

(** ** The prefilter's patterns *)

Module PrefilterSpec.
Import RegExp.

Definition word (s : string) : regex := literal (lit s).
Definition spaces1 : regex := [(Space, Plus)].
Definition spaces0 : regex := [(Space, Star)].
Definition anything : regex := [(Dot, Star)].
Definition quote : regex := [(Class [c_sq; c_dq; c_dq], One)].

(** The five patterns, with the dependency name as a literal word. *)
Definition patternsOf (pkg : jsstring) : list regex :=
  [ word "import" ++ spaces1 ++ anything ++ spaces1 ++ word "from" ++ spaces1
      ++ quote ++ literal pkg;
    word "import" ++ spaces0 ++ word "(" ++ spaces0 ++ quote ++ literal pkg;
    word "require" ++ spaces0 ++ word "(" ++ spaces0 ++ quote ++ literal pkg;
    word "export" ++ spaces1 ++ anything ++ spaces1 ++ word "from" ++ spaces1
      ++ quote ++ literal pkg;
    quote ++ literal pkg ++ quote ].

(** A word made of code units the atom accepts. *)
Definition accepts (a : atom) (w : jsstring) : Prop :=
  Forall (fun c => atomMatches a c = true) w.

(** [content] has a substring the pattern denotes. *)
Definition Contains (r : regex) (content : jsstring) : Prop :=
  exists pre w post, content = pre ++ w ++ post /\ Matches r w.

(** Whether one of the five patterns is found in the content. *)
Definition anyPattern (content pkg : jsstring) : bool :=
  existsb (fun pattern => test pattern content) (patternsOf pkg).

End PrefilterSpec.

(** ** The manifest *)

Module ManifestSpec.

(** A name is declared when it is a key of one of the four sections. *)
Definition declared (pkg : PackageJson) (n : jsstring) : Prop :=
  exists d, In (Some d) (Package.sections pkg) /\ In n (List.map fst d).

End ManifestSpec.

(** ** The scan, file by file *)

Module ScanSpec.
Import Analyzer.

(** The evidence recorded for a dependency. *)
Definition evOf (em : gmap jsstring (list EvidenceEntry)) (d : jsstring)
    : list EvidenceEntry :=
  default [] (em !! d).

(** The three shapes of entry [processFile] records. *)
Definition cachedEntry (f : jsstring) : EvidenceEntry :=
  {| file := f; line := None; type := static_import; snippet := Some (lit "(cached)") |}.

Definition fallbackEntry (f : jsstring) : EvidenceEntry :=
  {| file := f; line := None; type := string_reference;
     snippet := Some (lit "(detected via string scan)") |}.

Definition importEntry (f content : jsstring) (imp : ParsedImport) : EvidenceEntry :=
  {| file := f; line := Some (imp_line imp); type := imp_type imp;
     snippet := Some (extractSnippet content (imp_line imp)) |}.

(** The parsed imports whose name is declared, and their distinct names. *)
Definition declaredImports (names : list jsstring) (imports : list ParsedImport)
    : list ParsedImport :=
  List.filter (fun imp => bool_decide (packageName imp ∈ names)) imports.

Definition foundOf (names : list jsstring) (imports : list ParsedImport) : list jsstring :=
  fold_left Set_add (List.map packageName (declaredImports names imports)) [].

(** The cache entry a file is served from, as [processFile] decides it. *)
Definition hitOf (env : Env) (cache : Cache.CacheManager)
    (files : gmap jsstring Cache.CacheFile) (f : jsstring) : option CacheEntry :=
  match Cache.get env cache files f, Scanner.getFileStats env f with
  | Some c, Some s => if Qeq_bool (mtime c) (mtimeMs s) then Some c else None
  | _, _ => None
  end.

(** What a file contributes to a dependency when it is scanned. *)
Definition missEvidence (env : Env) (f : jsstring) (names : list jsstring) (d : jsstring)
    : list EvidenceEntry :=
  let candidates := Scanner.fastScan env f names in
  if (length candidates =? 0)%nat then []
  else match readFile env f with
       | None =>
           List.map (fun _ => fallbackEntry f)
                    (List.filter (fun p => bool_decide (p = d)) candidates)
       | Some content =>
           List.map (importEntry f content)
                    (List.filter (fun imp => bool_decide (packageName imp = d))
                                 (declaredImports names (Parser.parseFile env content f)))
       end.

(** The cache entry a scanned file leaves, if it leaves one. *)
Definition missWrite (env : Env) (cache : Cache.CacheManager) (f : jsstring)
    (names : list jsstring) : option CacheEntry :=
  if (length (Scanner.fastScan env f names) =? 0)%nat then None
  else match readFile env f, stat env f with
       | Some content, Some s =>
           if Cache.enabled cache && canWrite env f
           then Some {| hash := Cache.createHash env content;
                        mtime := mtimeMs s;
                        imports := foundOf names (Parser.parseFile env content f);
                        isClient := Some (Parser.detectUseClient content) |}
           else None
       | _, _ => None
       end.

(** What a file contributes to a dependency when it is replayed. *)
Definition replayEvidence (f : jsstring) (c : CacheEntry) (d : jsstring)
    : list EvidenceEntry :=
  List.map (fun _ => cachedEntry f) (List.filter (fun p => bool_decide (p = d)) (imports c)).

(** What a file contributes on the scan that follows an uncached one. *)
Definition rescanEvidence (env : Env) (cache : Cache.CacheManager) (f : jsstring)
    (names : list jsstring) (d : jsstring) : list EvidenceEntry :=
  match missWrite env cache f names with
  | Some c => replayEvidence f c d
  | None => missEvidence env f names d
  end.

(** The loop of [runScan] over the scanned files. *)
Definition scanFiles (env : Env) (cache : Cache.CacheManager) (names files : list jsstring)
    (st : ScanState) : ScanState :=
  fold_left (fun st f => processFile env cache f names st) files st.

(** The pieces of [runScan]: its cache manager, its initial state and the
    result it builds from the final state. *)
Definition cacheOf (options : ScanOptions) : Cache.CacheManager :=
  Cache.new_CacheManager
    (match cacheDir options with
     | Some d => if eqs d [] then cwd options else d
     | None => cwd options
     end)
    (negb (default false (noCache options))).

Definition initialState (files : gmap jsstring Cache.CacheFile) : ScanState :=
  {| evidenceMap := ∅; sideMap := ∅; cacheFiles := files |}.

Definition resultOf (env : Env) (options : ScanOptions) (packageJson : PackageJson)
    (st : ScanState) : ScanResult :=
  let packages :=
    List.map (buildResult options packageJson st)
             (Package.getAllDependencyNames packageJson) in
  {| version := VERSION;
     timestamp := now env;
     repoRoot := cwd options;
     workspace := opt_workspace options;
     packages := packages;
     totals := {| t_used := countStatus used packages;
                  t_unused := countStatus unused packages;
                  t_uncertain := countStatus uncertain packages |} |}.

(** The mode flags recorded for a dependency. *)
Definition sideOf (sm : gmap jsstring (gmap jsstring bool)) (d : jsstring)
    : gmap jsstring bool :=
  default ∅ (sm !! d).

(** The flag [updateSideMap] sets. *)
Definition sideKey (isClient : option bool) : jsstring :=
  if default false isClient then lit "client" else lit "server".

Definition touch (b : bool) (k : jsstring) (sides : gmap jsstring bool)
    : gmap jsstring bool :=
  if b then <[k := true]> sides else sides.

(** What a file does to a dependency's flags when it is scanned, and when
    it is replayed. *)
Definition missSide (env : Env) (f : jsstring) (names : list jsstring) (d : jsstring)
    (sides : gmap jsstring bool) : gmap jsstring bool :=
  if (length (Scanner.fastScan env f names) =? 0)%nat then sides
  else match readFile env f with
       | None => sides
       | Some content =>
           touch (bool_decide (d ∈ foundOf names (Parser.parseFile env content f)))
                 (sideKey (Some (Parser.detectUseClient content))) sides
       end.

Definition replaySide (c : CacheEntry) (d : jsstring) (sides : gmap jsstring bool)
    : gmap jsstring bool :=
  touch (bool_decide (d ∈ imports c)) (sideKey (isClient c)) sides.

(** The evidence tags the syntax walk produces. *)
Definition parsedType (t : EvidenceType) : Prop :=
  t = static_import \/ t = type_import \/ t = export_from \/ t = dynamic_import
  \/ t = require.

Definition importsOf (o : Parser.outcome) : list ParsedImport :=
  match o with
  | Parser.Done imports => imports
  | Parser.Threw imports => imports
  end.

Definition okImports (imports : list ParsedImport) : Prop :=
  Forall (fun imp => parsedType (imp_type imp)) imports.

(** How the result of a scan relates to the result of the uncached scan
    before it, for one dependency: what stays the same, what can only
    grow, and what stays the same when [minUsed] is at most the weight of
    a dynamic import (the defaults included). *)
Definition rescanOf (options : ScanOptions) (p1 p2 : PackageResult) : Prop :=
  name p2 = name p1
  /\ section p2 = section p1
  /\ side p2 = side p1
  /\ (evidence p2 = [] <-> evidence p1 = [])
  /\ (confidence p1 <= confidence p2)%Q
  /\ (status p1 = used -> status p2 = used)
  /\ (status p2 = unused -> status p1 = unused)
  /\ ((minConfidenceUsed options <= 8 # 10)%Q ->
      status p2 = status p1 /\ notes p2 = notes p1)
  /\ (forall f, length (List.filter (fun e => bool_decide (e = cachedEntry f)) (evidence p2))
                <= 1)%nat.

End ScanSpec.

(** ** A small repository used to run the definitions *)

Module Scenario.

(** [n] lines of line comments. *)
Definition commentLines (n : nat) : jsstring :=
  concat (repeat (lit "// comment" ++ [c_nl]) n).

(** A page with a static import of [react]. *)
Definition page : jsstring := lit "/repo/app/page.tsx".
Definition pageSource : jsstring := lit "import React from 'react';".

(** The tree [parseSync] gives for the page. *)
Definition pageAst : JsVal :=
  VObj [(lit "type", VStr (lit "Module"));
        (lit "span", VObj [(lit "start", VNum 1); (lit "end", VNum 27)]);
        (lit "body",
         VArr [VObj [(lit "type", VStr (lit "ImportDeclaration"));
                     (lit "span", VObj [(lit "start", VNum 1); (lit "end", VNum 27)]);
                     (lit "specifiers",
                      VArr [VObj [(lit "type", VStr (lit "ImportDefaultSpecifier"));
                                  (lit "local",
                                   VObj [(lit "type", VStr (lit "Identifier"));
                                         (lit "value", VStr (lit "React"))])]]);
                     (lit "source",
                      VObj [(lit "type", VStr (lit "StringLiteral"));
                            (lit "value", VStr (lit "react"))]);
                     (lit "typeOnly", VBool false)]])].

(** A module that loads [lodash] with a dynamic import, and the tree with
    the [ImportExpression] node the walk looks for. *)
Definition lazy : jsstring := lit "/repo/lib/lazy.ts".
Definition lazySource : jsstring := lit "const m = await import('lodash');".

Definition lazyAst : JsVal :=
  VObj [(lit "type", VStr (lit "Module"));
        (lit "span", VObj [(lit "start", VNum 1); (lit "end", VNum 34)]);
        (lit "body",
         VArr [VObj [(lit "type", VStr (lit "ImportExpression"));
                     (lit "span", VObj [(lit "start", VNum 17); (lit "end", VNum 33)]);
                     (lit "source",
                      VObj [(lit "type", VStr (lit "StringLiteral"));
                            (lit "value", VStr (lit "lodash"))])]])].

(** A file the parser rejects; it names [some-pkg] in a string literal. *)
Definition broken : jsstring := lit "/repo/lib/broken.ts".
Definition brokenSource : jsstring :=
  lit "const name = " ++ [c_dq] ++ lit "some-pkg" ++ [c_dq] ++ lit "; {{{".

(** A file with a string that differs from [lodash.fp] where the name
    has its dot. *)
Definition notes : jsstring := lit "/repo/lib/notes.ts".
Definition notesSource : jsstring := lit "const v = 'lodashxfp';".

(** The file system, with a fixed digest standing for the hash. *)
Definition env : Env :=
  {| readFile := fun p => if eqs p page then Some pageSource
                          else if eqs p lazy then Some lazySource
                          else if eqs p broken then Some brokenSource
                          else if eqs p notes then Some notesSource
                          else None;
     stat := fun p => if eqs p page then Some {| mtimeMs := 1700000000000 # 1; size := 26 |}
                      else if eqs p lazy then Some {| mtimeMs := 1700000120250 # 1; size := 33 |}
                      else if eqs p broken then Some {| mtimeMs := 1700000360500 # 1; size := 29 |}
                      else None;
     canWrite := fun _ => true;
     sha256 := fun _ => lit "digest";
     parseSync := fun content _ => if eqs content pageSource then Some pageAst
                                   else if eqs content lazySource then Some lazyAst
                                   else None;
     glob := fun _ _ _ => [page; lazy; broken];
     now := lit "2026-02-07T20:45:30.000Z" |}.

Definition manifest : PackageJson :=
  {| pj_dependencies := Some [(lit "react", lit "^18.0.0"); (lit "lodash", lit "^4.17.0");
                              (lit "some-pkg", lit "^1.0.0")];
     pj_devDependencies := None;
     pj_optionalDependencies := None;
     pj_peerDependencies := Some [(lit "react", lit "^18.0.0")] |}.

Definition manifests : Analyzer.Manifests :=
  fun dir => if eqs dir (lit "/repo") then Some manifest else None.

(** The defaults of the command line. *)
Definition options : ScanOptions :=
  {| cwd := lit "/repo"; include := None; exclude := None; noCache := None;
     cacheDir := None; minConfidenceUnused := 3 # 10; minConfidenceUsed := 7 # 10;
     opt_workspace := None |}.

Definition cache : Cache.CacheManager := Cache.new_CacheManager (lit "/repo") true.

Definition names : list jsstring := [lit "react"; lit "lodash"; lit "some-pkg"].

Definition emptyState : Analyzer.ScanState :=
  {| Analyzer.evidenceMap := ∅; Analyzer.sideMap := ∅; Analyzer.cacheFiles := ∅ |}.

(** The entry a scan of the page leaves in the cache. *)
Definition pageEntry : CacheEntry :=
  {| hash := lit "digest"; mtime := 1700000000000 # 1; imports := [lit "react"];
     isClient := Some false |}.

(** The uncached scan and the scan that follows it. *)
Definition firstRun : option (ScanResult * gmap jsstring Cache.CacheFile) :=
  Analyzer.runScan env manifests options ∅.

Definition secondRun : option (ScanResult * gmap jsstring Cache.CacheFile) :=
  match firstRun with
  | Some (_, files) => Analyzer.runScan env manifests options files
  | None => None
  end.

(** The evidence of the first package ([react]) in a run. *)
Definition firstEvidence (run : option (ScanResult * gmap jsstring Cache.CacheFile))
    : option (list EvidenceEntry) :=
  match run with
  | Some (r, _) => option_map evidence (head (packages r))
  | None => None
  end.

(** Per package: name, evidence tags, confidence in lowest terms, status. *)
Definition summary (run : option (ScanResult * gmap jsstring Cache.CacheFile))
    : option (list (jsstring * list EvidenceType * Q * DependencyStatus)) :=
  option_map
    (fun r => List.map (fun p => (name p, List.map type (evidence p),
                                  Qred (confidence p), status p))
                       (packages (fst r)))
    run.

(** Evidence tags, confidence and status of the package of a given name. *)
Definition resultFor (n : jsstring) (run : option (ScanResult * gmap jsstring Cache.CacheFile))
    : option (list EvidenceType * Q * DependencyStatus) :=
  match run with
  | Some (r, _) =>
      option_map (fun p => (List.map type (evidence p), Qred (confidence p), status p))
                 (List.find (fun p => eqs (name p) n) (packages r))
  | None => None
  end.

Definition packagesOf (run : option (ScanResult * gmap jsstring Cache.CacheFile))
    : option (list PackageResult) :=
  option_map (fun r => packages (fst r)) run.

End Scenario.

(** ** Notions for the properties beyond the specification *)

(** The notes of [generateNotes]. *)
Module NotesSpec.

Definition configNote : jsstring :=
  lit "Referenced in config files but not verified as imported".
Definition stringNote : jsstring := lit "Only found as string literal references".
Definition pluginNote : jsstring := lit "Possibly used as plugin - verify manually".
Definition emptyNote : jsstring := lit "No usage evidence found".
Definition peerNote : jsstring :=
  lit "Peer dependency - do not remove without checking dependents".

(** The notes in the order [generateNotes] appends them. *)
Definition allNotes : list jsstring :=
  [configNote; stringNote; pluginNote; emptyNote; peerNote].

(** Some entry of the evidence carries the tag. *)
Definition tagged (t : EvidenceType) (evidence : list EvidenceEntry) : Prop :=
  exists e, In e evidence /\ type e = t.

(** The notes as a function of the six tests [generateNotes] makes. *)
Definition notesOf (b0 b1 b2 b3 b4 b5 : bool) : list jsstring :=
  (if b0 then (if b1 then [configNote] else []) ++ (if b2 then [stringNote] else [])
              ++ (if b3 then [pluginNote] else []) ++ (if b4 then [emptyNote] else [])
   else [])
  ++ (if b5 then [peerNote] else []).

End NotesSpec.

(** Manifests and package names. *)
Module PackageSpec.



Definition entryOf (n v : jsstring) (s : DependencySection) : DependencyInfo :=
  {| di_name := n; di_version := v; di_section := s |}.

(** The scoped alternative of the name pattern. *)
Definition scopedName (name : jsstring) : Prop :=
  exists scope pkg,
    name = [c_at] ++ scope ++ [c_slash] ++ pkg
    /\ Package.isNamePart scope = true /\ Package.isNamePart pkg = true.

End PackageSpec.

(** Paths and file names. *)
Module PathSpec.

(** [s.includes(w)] *)
Definition includes (s w : jsstring) : Prop := exists pre post, s = pre ++ w ++ post.

(** What the eleven patterns without an anchor look for. *)
Definition configNames : list jsstring :=
  List.map lit ["next.config."; "tailwind.config."; "postcss.config."; "eslint.config.";
                ".eslintrc."; "prettier.config."; "jest.config."; "vitest.config.";
                "playwright.config."; "cypress.config."; "babel.config."]%string.

Definition entryPointNames : list jsstring :=
  List.map lit ["middleware.ts"; "middleware.js"; "instrumentation.ts";
                "instrumentation.js"]%string.

(** A code unit the cache file names keep. *)
Definition safeUnit (c : N) : Prop := Cache.isUnsafe c = false.

End PathSpec.

(** The syntax walk. *)
Module WalkSpec.

(** What holds of every import the walk pushes. *)
Definition wellFormed (imp : ParsedImport) : Prop :=
  Parser.normalizePackageName (packageName imp) = packageName imp
  /\ ScanSpec.parsedType (imp_type imp)
  /\ (isTypeOnly imp = Some true <-> imp_type imp = type_import)
  /\ (isTypeOnly imp = Some false <-> imp_type imp = static_import)
  /\ (isTypeOnly imp = None <->
      imp_type imp = export_from \/ imp_type imp = dynamic_import \/ imp_type imp = require).

(** The second array is the first with well-formed imports appended. *)
Definition extends (a b : list ParsedImport) : Prop :=
  exists l, b = a ++ l /\ Forall wellFormed l.

End WalkSpec.

(** Evidence and mode flags. *)
Module SideSpec.
Import Analyzer ScanSpec.

(** A flag map [updateSideMap] has written to. *)
Definition flagged (sides : gmap jsstring bool) : Prop :=
  sides !! lit "client" = Some true \/ sides !! lit "server" = Some true.

(** Evidence and flags go together. *)
Definition paired (st : ScanState) (d : jsstring) : Prop :=
  (evOf (evidenceMap st) d = [] -> sideOf (sideMap st) d = ∅)
  /\ (evOf (evidenceMap st) d <> [] -> flagged (sideOf (sideMap st) d)).

End SideSpec.

(** The order of the files. *)
Module OrderSpec.

(** The same runtime with another file listing. *)
Definition withGlob (env : Env)
    (g : list jsstring -> jsstring -> list jsstring -> list jsstring) : Env :=
  {| readFile := readFile env; stat := stat env; canWrite := canWrite env;
     sha256 := sha256 env; parseSync := parseSync env; glob := g; now := now env |}.

(** Two results for one dependency that agree up to the order of the
    evidence entries. *)
Definition sameUpToOrder (p1 p2 : PackageResult) : Prop :=
  name p2 = name p1
  /\ section p2 = section p1
  /\ status p2 = status p1
  /\ (confidence p2 == confidence p1)%Q
  /\ side p2 = side p1
  /\ notes p2 = notes p1
  /\ Permutation (evidence p1) (evidence p2).

End OrderSpec.

(** The pnpm workspace file. *)
Module WorkspaceSpec.




End WorkspaceSpec.

(** More of the small repository. *)
Module Examples.

(** The defaults with the cache switched off. *)
Definition optionsNoCache : ScanOptions :=
  {| cwd := lit "/repo"; include := None; exclude := None; noCache := Some true;
     cacheDir := None; minConfidenceUnused := 3 # 10; minConfidenceUsed := 7 # 10;
     opt_workspace := None |}.

(** The repository after the page was edited without a change of its
    modification time. *)
Definition edited : Env :=
  {| readFile := fun p => if eqs p Scenario.page then Some (lit "export {};")
                          else readFile Scenario.env p;
     stat := stat Scenario.env;
     canWrite := canWrite Scenario.env;
     sha256 := sha256 Scenario.env;
     parseSync := parseSync Scenario.env;
     glob := glob Scenario.env;
     now := now Scenario.env |}.

(** A cache directory that holds the entry of the page. *)
Definition pageCached : gmap jsstring Cache.CacheFile :=
  {[ Scenario.page := Cache.Stored Scenario.pageEntry ]}.

Definition pageCachedState : Analyzer.ScanState :=
  {| Analyzer.evidenceMap := ∅; Analyzer.sideMap := ∅; Analyzer.cacheFiles := pageCached |}.

(** The files of the repository listed in another order. *)
Definition reversedGlob : list jsstring -> jsstring -> list jsstring -> list jsstring :=
  fun _ _ _ => [Scenario.broken; Scenario.lazy; Scenario.page].

(** The state the uncached scan of the repository ends in, its result and
    the package it reports for a name. *)
Definition firstState : Analyzer.ScanState :=
  ScanSpec.scanFiles Scenario.env (ScanSpec.cacheOf Scenario.options)
    (Package.getAllDependencyNames Scenario.manifest)
    (Scanner.findFiles Scenario.env Scenario.options) (ScanSpec.initialState ∅).

Definition firstResult : ScanResult :=
  ScanSpec.resultOf Scenario.env Scenario.options Scenario.manifest firstState.

Definition packageOf (n : jsstring) : PackageResult :=
  Analyzer.buildResult Scenario.options Scenario.manifest firstState n.

(** The evidence the page gives for [react]. *)
Definition reactEntry : EvidenceEntry :=
  {| file := Scenario.page; line := Some 1%Z; type := static_import;
     snippet := Some Scenario.pageSource |}.

(** A manifest with a development dependency and an empty version. *)
Definition manifest : PackageJson :=
  {| pj_dependencies := Some [(lit "react", lit "^18.0.0"); (lit "left-pad", [])];
     pj_devDependencies := Some [(lit "typescript", lit "^5.0.0");
                                 (lit "left-pad", lit "^1.3.0")];
     pj_optionalDependencies := None;
     pj_peerDependencies := Some [(lit "react", lit "^18.0.0")] |}.

Definition manifests : Analyzer.Manifests :=
  fun dir => if eqs dir (lit "/repo") then Some manifest else None.


End Examples.

(** * Properties *)

(** ** Strings *)

Lemma eqs_true (s t : jsstring) : eqs s t = true <-> s = t.
Proof. unfold eqs. apply bool_decide_eq_true. Qed.


Section SplitFacts.
Variable sep : N.

Lemma split_not_nil (s : jsstring) : split sep s <> [].
Proof.
  destruct s as [|c s]; simpl; [discriminate|].
  destruct (c =? sep); [discriminate|].
  destruct (split sep s); discriminate.
Qed.

Lemma split_cons_other (c : N) (s : jsstring) :
  c <> sep ->
  exists p ps, split sep s = p :: ps /\ split sep (c :: s) = (c :: p) :: ps.
Proof.
  intros Hc. simpl. apply N.eqb_neq in Hc. rewrite Hc.
  destruct (split sep s) as [|p ps] eqn:E.
  - exfalso. eapply split_not_nil; eauto.
  - eauto.
Qed.

Lemma split_no_sep (a : jsstring) : sep ∉ a -> split sep a = [a].
Proof.
  induction a as [|c a IH]; intros Hn; [reflexivity|].
  apply not_elem_of_cons in Hn as [Hc Ha].
  assert (c <> sep) as Hc' by (intros ->; now apply Hc).
  destruct (split_cons_other c a Hc') as (p & ps & E1 & E2).
  rewrite E2. rewrite (IH Ha) in E1. injection E1 as <- <-. reflexivity.
Qed.

Lemma split_app_sep (a r : jsstring) :
  sep ∉ a -> split sep (a ++ (sep :: r)) = a :: split sep r.
Proof.
  induction a as [|c a IH]; intros Hn; simpl.
  - now rewrite N.eqb_refl.
  - apply not_elem_of_cons in Hn as [Hc Ha].
    assert ((c =? sep) = false) as -> by (apply N.eqb_neq; intros ->; now apply Hc).
    now rewrite (IH Ha).
Qed.

Lemma split_segments (s : jsstring) : Forall (fun p => sep ∉ p) (split sep s).
Proof.
  induction s as [|c s IH]; simpl.
  - repeat constructor. apply not_elem_of_nil.
  - destruct (N.eqb_spec c sep) as [->|Hc].
    + constructor; [apply not_elem_of_nil | exact IH].
    + destruct (split sep s) as [|p ps] eqn:E; [exfalso; eapply split_not_nil; eauto|].
      apply Forall_cons in IH as [H1 H2]. constructor; [|exact H2].
      apply not_elem_of_cons. split; [intros ->; now apply Hc | exact H1].
Qed.

Lemma join_split (s : jsstring) : StringSpec.join sep (split sep s) = s.
Proof.
  induction s as [|c s IH]; [reflexivity|]. simpl.
  destruct (N.eqb_spec c sep) as [->|Hc].
  - simpl. destruct (split sep s) as [|p ps] eqn:E.
    + exfalso; eapply split_not_nil; eauto.
    + now rewrite IH.
  - destruct (split sep s) as [|p ps] eqn:E.
    + exfalso; eapply split_not_nil; eauto.
    + simpl in *. destruct ps; simpl in *; now rewrite IH.
Qed.

End SplitFacts.

Lemma startsWith_app (s p : jsstring) : startsWith (p ++ s) p = true.
Proof. induction p; simpl; [reflexivity|]. now rewrite N.eqb_refl. Qed.

Lemma startsWith_prefix (s p : jsstring) :
  startsWith s p = true <-> exists r, s = p ++ r.
Proof.
  revert s. induction p as [|a p IH]; intros s; simpl.
  - split; eauto.
  - destruct s as [|b s].
    + split; [discriminate | intros [r Hr]; discriminate].
    + rewrite andb_true_iff, N.eqb_eq, IH. split.
      * intros [-> [r ->]]. eauto.
      * intros [r Hr]. injection Hr as -> ->. eauto.
Qed.

(** The head segment of a path that starts with [@] starts with [@]. *)
Lemma scoped_head (x p0 : jsstring) (rest : list jsstring) :
  startsWith x [c_at] = true -> split c_slash x = p0 :: rest ->
  rest <> [] -> startsWith p0 [c_at] = true.
Proof.
  intros Hs Hsp Hr.
  destruct x as [|c x]; [discriminate|].
  change (startsWith (c :: x) [c_at]) with ((c_at =? c) && true) in Hs.
  rewrite andb_true_r in Hs. apply N.eqb_eq in Hs. subst c.
  destruct (split_cons_other c_slash c_at x ltac:(discriminate)) as (p & ps & E1 & E2).
  rewrite E2 in Hsp. injection Hsp as <- <-. simpl. reflexivity.
Qed.

(** ** Name normalization *)

Lemma normalize_cases (x : jsstring) :
  (startsWith x [c_at] = true ->
   forall p0 p1 rest, split c_slash x = p0 :: p1 :: rest ->
   Scanner.normalizePackageName x = p0 ++ [c_slash] ++ p1) /\
  (forall p0 rest, split c_slash x = p0 :: rest ->
   startsWith x [c_at] = false \/ rest = [] ->
   Scanner.normalizePackageName x = p0).
Proof.
  unfold Scanner.normalizePackageName. split.
  - intros Hs p0 p1 rest E. rewrite Hs, E. reflexivity.
  - intros p0 rest E [Hs| ->]; rewrite E.
    + now rewrite Hs.
    + simpl. now rewrite andb_false_r.
Qed.

Lemma normalize_idem (x : jsstring) :
  Scanner.normalizePackageName (Scanner.normalizePackageName x) = Scanner.normalizePackageName x.
Proof.
  pose proof (split_segments c_slash x) as Hseg.
  destruct (split c_slash x) as [|p0 rest] eqn:E; [exfalso; eapply split_not_nil; eauto|].
  apply Forall_cons in Hseg as [Hp0 Hrest].
  destruct (normalize_cases x) as [Hscoped Hplain].
  destruct (startsWith x [c_at]) eqn:Hs; [destruct rest as [|p1 rest]|].
  - rewrite (Hplain p0 [] E) by auto.
    destruct (normalize_cases p0) as [_ H]. apply (H p0 []); [now apply split_no_sep | auto].
  - rewrite (Hscoped eq_refl p0 p1 rest E).
    apply Forall_cons in Hrest as [Hp1 _].
    destruct (normalize_cases (p0 ++ [c_slash] ++ p1)) as [H _].
    apply (H) with (rest := []).
    + pose proof (scoped_head x p0 (p1 :: rest) Hs E ltac:(discriminate)) as H0.
      apply startsWith_prefix in H0 as [r ->]. reflexivity.
    + simpl. rewrite split_app_sep by assumption. now rewrite split_no_sep.
  - rewrite (Hplain p0 rest E) by auto.
    destruct (normalize_cases p0) as [_ H]. apply (H p0 []); [now apply split_no_sep | auto].
Qed.

(** ** Directive detection *)

(** [stripSemi] removes a final semicolon and nothing else. *)
Lemma stripSemi_cases (s : jsstring) :
  s = Parser.stripSemi s ++ [c_semi] \/ Parser.stripSemi s = s.
Proof.
  unfold Parser.stripSemi. destruct (rev s) as [|c r] eqn:E; [now right|].
  destruct (N.eqb_spec c c_semi) as [->|_]; [left | now right].
  rewrite <- (rev_involutive s), E. reflexivity.
Qed.

Lemma directive_not_skipped (line : jsstring) :
  DirectiveSpec.isDirective line = true -> DirectiveSpec.skipped line = false.
Proof.
  unfold DirectiveSpec.isDirective, DirectiveSpec.skipped.
  intros H. apply orb_true_iff in H. rewrite !eqs_true in H.
  destruct (stripSemi_cases (trim line)) as [E|E]; destruct H as [H|H];
    rewrite H in E; first [rewrite E | rewrite <- E]; reflexivity.
Qed.

Lemma detectLoop_cons (line : jsstring) (rest : list jsstring) :
  Parser.detectLoop (line :: rest) =
  if DirectiveSpec.isDirective line then true
  else if negb (DirectiveSpec.skipped line) then false
  else Parser.detectLoop rest.
Proof.
  cbn [Parser.detectLoop]. unfold DirectiveSpec.isDirective, DirectiveSpec.skipped.
  cbv zeta.
  destruct (eqs (Parser.stripSemi (trim line)) Scanner.useClientDq
            || eqs (Parser.stripSemi (trim line)) Scanner.useClientSq); [reflexivity|].
  destruct (eqs (trim line) []); destruct (startsWith (trim line) (lit "//")); reflexivity.
Qed.

Lemma detectLoop_spec (lines : list jsstring) :
  Parser.detectLoop lines =
  match List.find (fun l => negb (DirectiveSpec.skipped l)) lines with
  | Some line => DirectiveSpec.isDirective line
  | None => false
  end.
Proof.
  induction lines as [|line rest IH]; [reflexivity|].
  rewrite detectLoop_cons. cbn [List.find].
  destruct (DirectiveSpec.isDirective line) eqn:Hd.
  - now rewrite (directive_not_skipped line Hd).
  - destruct (DirectiveSpec.skipped line); simpl; [exact IH | now rewrite Hd].
Qed.

Lemma detectUseClient_spec (content : jsstring) :
  Parser.detectUseClient content = DirectiveSpec.detect 20 content.
Proof. apply detectLoop_spec. Qed.

(** ** Confidence and classification *)

(** Comparisons between rational constants. *)
Ltac q_const := unfold Qle, Qlt; simpl; lia.

Section ConfidenceFacts.
Import ConfidenceSpec.
Local Open Scope Q_scope.

Lemma scoreOf_baseWeight (e : EvidenceEntry) : Confidence.scoreOf e = baseWeight (type e).
Proof. unfold Confidence.scoreOf. destruct (type e); reflexivity. Qed.

Lemma baseWeight_bounds (t : EvidenceType) : 3 # 10 <= baseWeight t /\ baseWeight t <= 1.
Proof. destruct t; split; q_const. Qed.

Lemma Math_max_ge_init (xs : list Q) (x : Q) : x <= Confidence.Math_max x xs.
Proof.
  revert x. induction xs as [|y ys IH]; intros x; simpl.
  - apply Qle_refl.
  - eapply Qle_trans; [apply Q.le_max_l | apply IH].
Qed.

Lemma Math_max_ge (xs : list Q) (x y : Q) : In y xs -> y <= Confidence.Math_max x xs.
Proof.
  revert x. induction xs as [|z zs IH]; intros x Hin; simpl; [destruct Hin|].
  destruct Hin as [->|Hin].
  - eapply Qle_trans; [apply Q.le_max_r | apply Math_max_ge_init].
  - now apply IH.
Qed.

Lemma Math_max_attained (xs : list Q) (x : Q) :
  exists y, In y (x :: xs) /\ Confidence.Math_max x xs == y.
Proof.
  revert x. induction xs as [|z zs IH]; intros x; simpl.
  - exists x. split; [now left | reflexivity].
  - destruct (IH (Qmax x z)) as (y & [Hy|Hy] & E).
    + destruct (Q.max_spec x z) as [[_ Hm]|[_ Hm]].
      * exists z. split; [right; now left|]. rewrite E, <- Hy. exact Hm.
      * exists x. split; [now left|]. rewrite E, <- Hy. exact Hm.
    + exists y. split; [right; now right | exact E].
Qed.

Lemma Math_max_le (xs : list Q) (x b : Q) :
  x <= b -> (forall y, In y xs -> y <= b) -> Confidence.Math_max x xs <= b.
Proof.
  intros Hx Hxs. destruct (Math_max_attained xs x) as (y & [<-|Hy] & ->); auto.
Qed.

Lemma boostOf_nonneg (n : nat) : (1 <= n)%nat -> 0 <= boostOf n.
Proof.
  intros Hn. unfold boostOf. apply Q.min_glb; [|lra].
  assert (1 <= inject_Z (Z.of_nat n)).
  { change 1 with (inject_Z 1). rewrite <- Zle_Qle. lia. }
  nra.
Qed.

Lemma boostOf_mono (n m : nat) : (n <= m)%nat -> boostOf n <= boostOf m.
Proof.
  intros Hnm. unfold boostOf. apply Q.min_le_compat_r.
  assert (inject_Z (Z.of_nat n) <= inject_Z (Z.of_nat m)) by (rewrite <- Zle_Qle; lia).
  lra.
Qed.

Lemma boostOf_cap (n : nat) : boostOf n <= 15 # 100.
Proof. apply Q.le_min_r. Qed.

Lemma calculateConfidence_cons (e : EvidenceEntry) (es : list EvidenceEntry) :
  Confidence.calculateConfidence (e :: es) =
  Qmin (Confidence.Math_max (Confidence.scoreOf e) (List.map Confidence.scoreOf es)
        + boostOf (length (e :: es))) 1.
Proof. reflexivity. Qed.

Lemma confidence_range (evidence : list EvidenceEntry) :
  0 <= Confidence.calculateConfidence evidence <= 1.
Proof.
  destruct evidence as [|e es]; [simpl; unfold Confidence.calculateConfidence; simpl; lra|].
  rewrite calculateConfidence_cons. split; [|apply Q.le_min_r].
  apply Q.min_glb; [|lra].
  pose proof (Math_max_ge_init (List.map Confidence.scoreOf es) (Confidence.scoreOf e)).
  pose proof (boostOf_nonneg (length (e :: es)) ltac:(simpl; lia)).
  rewrite scoreOf_baseWeight in *. pose proof (baseWeight_bounds (type e)). lra.
Qed.

(** Inserting an entry anywhere never lowers the result. *)
Lemma confidence_insert (l1 l2 : list EvidenceEntry) (e : EvidenceEntry) :
  Confidence.calculateConfidence (l1 ++ l2)
  <= Confidence.calculateConfidence (l1 ++ e :: l2).
Proof.
  destruct (l1 ++ l2) as [|a l] eqn:E.
  - apply confidence_range.
  - destruct (l1 ++ e :: l2) as [|b l'] eqn:E'; [destruct l1; discriminate|].
    rewrite !calculateConfidence_cons.
    apply Q.min_le_compat_r. apply Qplus_le_compat.
    + apply Math_max_le.
      * assert (In a (b :: l')) as Hin.
        { rewrite <- E'. assert (In a (l1 ++ l2)) as H0 by (rewrite E; now left).
          apply in_app_or in H0. apply in_or_app. destruct H0; [now left | right; now right]. }
        destruct Hin as [->|Hin]; [apply Math_max_ge_init|].
        apply Math_max_ge. now apply in_map.
      * intros y Hy. apply in_map_iff in Hy as (x & <- & Hx).
        assert (In x (b :: l')) as Hin.
        { rewrite <- E'. assert (In x (l1 ++ l2)) as H0 by (rewrite E; now right).
          apply in_app_or in H0. apply in_or_app. destruct H0; [now left | right; now right]. }
        destruct Hin as [->|Hin]; [apply Math_max_ge_init|].
        apply Math_max_ge. now apply in_map.
    + apply boostOf_mono.
      assert (length (a :: l) = length (l1 ++ l2)) as -> by now rewrite E.
      assert (length (b :: l') = length (l1 ++ e :: l2)) as -> by now rewrite E'.
      rewrite !length_app. simpl. lia.
Qed.

Lemma classify_cases (c minUnused minUsed : Q) :
  (Confidence.classifyDependency c minUnused minUsed = used <-> minUsed <= c) /\
  (Confidence.classifyDependency c minUnused minUsed = unused <-> c < minUsed /\ c < minUnused) /\
  (Confidence.classifyDependency c minUnused minUsed = uncertain <-> c < minUsed /\ minUnused <= c).
Proof.
  unfold Confidence.classifyDependency, Confidence.geb, Confidence.ltb.
  destruct (Qle_bool minUsed c) eqn:E1; [|destruct (Qle_bool minUnused c) eqn:E2]; simpl.
  - apply Qle_bool_iff in E1. repeat split; try discriminate; auto; intros [H _]; lra.
  - apply Qle_bool_iff in E2.
    assert (~ minUsed <= c) by (rewrite <- Qle_bool_iff; congruence).
    repeat split; try discriminate; try lra; intros; lra.
  - assert (~ minUsed <= c) by (rewrite <- Qle_bool_iff; congruence).
    assert (~ minUnused <= c) by (rewrite <- Qle_bool_iff; congruence).
    repeat split; try discriminate; try lra; intros; lra.
Qed.

End ConfidenceFacts.

(** ** The pattern parser *)

Section RegExpParsing.
Import RegExp.

Lemma run_app (o : option pstate) (p q : jsstring) : run o (p ++ q) = run (run o p) q.
Proof. unfold run. apply fold_left_app. Qed.

Lemma run_None (p : jsstring) : run None p = None.
Proof. induction p; simpl; auto. Qed.

Lemma isEscaped_members (c : N) :
  Scanner.isEscaped c = true ->
  In c [46; 42; 43; 63; 94; 36; 123; 125; 40; 41; 124; 91; 93; 92].
Proof.
  unfold Scanner.isEscaped. intros H. apply existsb_exists in H as (x & Hin & Hx).
  apply N.eqb_eq in Hx. now subst.
Qed.

Lemma step_plain (st : pstate) (c : N) :
  pmode st = Normal -> Scanner.isEscaped c = false ->
  step st c = Some (push st (Lit c)).
Proof.
  intros Hm He. unfold Scanner.isEscaped in He. cbn [existsb] in He.
  repeat (apply orb_false_iff in He as [? He]).
  unfold step, isSyntaxChar. cbn [existsb]. rewrite Hm.
  repeat match goal with H : (c =? _) = false |- _ => rewrite H; clear H end.
  reflexivity.
Qed.

Lemma step_escaped (st : pstate) (c : N) :
  pmode st = Normal -> Scanner.isEscaped c = true ->
  run (Some st) [c_backslash; c] = Some (push st (Lit c)).
Proof.
  intros Hm He. apply isEscaped_members in He.
  unfold run. cbn [fold_left]. unfold step at 1. rewrite Hm.
  change (c_backslash =? 92) with true. cbv iota.
  unfold step. cbn [pmode].
  repeat (destruct He as [<-|He]; [reflexivity|]). destruct He.
Qed.

Lemma escapeRegex_cons (c : N) (w : jsstring) :
  Scanner.escapeRegex (c :: w)
  = (if Scanner.isEscaped c then [c_backslash; c] else [c]) ++ Scanner.escapeRegex w.
Proof. reflexivity. Qed.

Lemma run_escapeRegex (w : jsstring) (st : pstate) :
  pmode st = Normal ->
  exists st', run (Some st) (Scanner.escapeRegex w) = Some st'
              /\ pmode st' = Normal /\ items st' = items st ++ literal w.
Proof.
  revert st. induction w as [|c w IH]; intros st Hm.
  - exists st. simpl. now rewrite app_nil_r.
  - rewrite escapeRegex_cons, run_app.
    assert (run (Some st) (if Scanner.isEscaped c then [c_backslash; c] else [c])
            = Some (push st (Lit c))) as Hc.
    { destruct (Scanner.isEscaped c) eqn:He.
      - now apply step_escaped.
      - unfold run. cbn [fold_left]. now apply step_plain. }
    rewrite Hc.
    destruct (IH (push st (Lit c)) eq_refl) as (st' & Hr & Hm' & Hi).
    exists st'. repeat split; auto. rewrite Hi. cbn [push items literal List.map].
    now rewrite <- app_assoc.
Qed.

Lemma run_quoteClass (st : pstate) :
  pmode st = Normal ->
  run (Some st) Scanner.quoteClass = Some (push st (Class [c_sq; c_dq; c_dq])).
Proof.
  intros Hm. unfold run, Scanner.quoteClass. cbn [lit list_ascii_of_string List.map app fold_left].
  unfold step at 1. rewrite Hm. reflexivity.
Qed.

(** Escaping makes every name a literal word of the pattern. *)
Lemma escapeRegex_literal (pkg : jsstring) :
  new_RegExp (Scanner.escapeRegex pkg) = Some (literal pkg).
Proof.
  unfold new_RegExp.
  destruct (run_escapeRegex pkg initial eq_refl) as (st & -> & -> & ->). reflexivity.
Qed.

Lemma new_RegExp_prefixed (prefix : jsstring) (st0 : pstate) (pkg : jsstring) :
  run (Some initial) (prefix ++ Scanner.quoteClass) = Some st0 -> pmode st0 = Normal ->
  new_RegExp (prefix ++ Scanner.quoteClass ++ Scanner.escapeRegex pkg)
  = Some (items st0 ++ literal pkg).
Proof.
  intros H0 Hm. unfold new_RegExp. rewrite app_assoc, run_app, H0.
  destruct (run_escapeRegex pkg st0 Hm) as (st & -> & -> & ->). reflexivity.
Qed.

Lemma new_RegExp_bare (pkg : jsstring) :
  new_RegExp (Scanner.quoteClass ++ Scanner.escapeRegex pkg ++ Scanner.quoteClass)
  = Some (PrefilterSpec.quote ++ literal pkg ++ PrefilterSpec.quote).
Proof.
  unfold new_RegExp. rewrite !run_app.
  rewrite (run_quoteClass initial eq_refl).
  destruct (run_escapeRegex pkg (push initial (Class [c_sq; c_dq; c_dq])) eq_refl)
    as (st & -> & Hm & Hi).
  rewrite (run_quoteClass st Hm). cbn [pmode push items]. rewrite Hi.
  cbn [push items]. now rewrite <- app_assoc.
Qed.

Lemma compile_patterns (pkg : jsstring) :
  Scanner.compileAll (Scanner.patternSources pkg) = Some (PrefilterSpec.patternsOf pkg).
Proof.
  unfold Scanner.patternSources. cbn [Scanner.compileAll].
  rewrite (new_RegExp_prefixed (lit "import\s+.*?\s+from\s+") _ pkg eq_refl eq_refl).
  rewrite (new_RegExp_prefixed (lit "import\s*\(\s*") _ pkg eq_refl eq_refl).
  rewrite (new_RegExp_prefixed (lit "require\s*\(\s*") _ pkg eq_refl eq_refl).
  rewrite (new_RegExp_prefixed (lit "export\s+.*?\s+from\s+") _ pkg eq_refl eq_refl).
  rewrite new_RegExp_bare. reflexivity.
Qed.

End RegExpParsing.

(** ** The matcher *)

Section Matcher.
Import RegExp PrefilterSpec.

Lemma starLoop_spec (a : atom) (k : jsstring -> bool) (s : jsstring) :
  starLoop a k s = true <->
  exists w1 s2, s = w1 ++ s2 /\ accepts a w1 /\ k s2 = true.
Proof.
  induction s as [|c s IH]; cbn [starLoop].
  - rewrite orb_false_r. split.
    + intros H. exists [], []. repeat split; [constructor | exact H].
    + intros (w1 & s2 & E & _ & H). symmetry in E. apply app_eq_nil in E as [_ ->]. exact H.
  - rewrite orb_true_iff, andb_true_iff, IH. split.
    + intros [H | [Hc (w1 & s2 & -> & Hw & H)]].
      * exists [], (c :: s). repeat split; [constructor | exact H].
      * exists (c :: w1), s2. repeat split; [now constructor | exact H].
    + intros (w1 & s2 & E & Hw & H). destruct w1 as [|d w1].
      * left. simpl in E. now subst.
      * right. injection E as <- ->. apply Forall_cons in Hw as [Hd Hw]. eauto 6.
Qed.

Lemma matchHere_head (a : atom) (q : quant) (r : regex) (s : jsstring) :
  matchHere ((a, q) :: r) s = true <->
  exists w1 s2, s = w1 ++ s2 /\ accepts a w1 /\ countOk q (length w1)
                /\ matchHere r s2 = true.
Proof.
  destruct q; cbn [matchHere countOk].
  - split.
    + destruct s as [|c s]; [discriminate|]. intros H. apply andb_true_iff in H as [Hc H].
      exists [c], s. repeat split; [repeat constructor; exact Hc | exact H].
    + intros (w1 & s2 & -> & Hw & Hl & H).
      destruct w1 as [|c [|? ?]]; try discriminate. apply Forall_cons in Hw as [Hc _].
      simpl. now rewrite Hc.
  - rewrite starLoop_spec. split.
    + intros (w1 & s2 & E & Hw & H). exists w1, s2. auto.
    + intros (w1 & s2 & E & Hw & _ & H). exists w1, s2. auto.
  - split.
    + destruct s as [|c s]; [discriminate|]. intros H. apply andb_true_iff in H as [Hc H].
      apply starLoop_spec in H as (w1 & s2 & -> & Hw & H).
      exists (c :: w1), s2. repeat split; [now constructor | simpl; lia | exact H].
    + intros (w1 & s2 & -> & Hw & Hl & H).
      destruct w1 as [|c w1]; [simpl in Hl; lia|]. apply Forall_cons in Hw as [Hc Hw].
      simpl. rewrite Hc. simpl. apply starLoop_spec. eauto.
  - rewrite orb_true_iff. split.
    + intros [H|H].
      * exists [], s. repeat split; [constructor | simpl; lia | exact H].
      * destruct s as [|c s]; [discriminate|]. apply andb_true_iff in H as [Hc H].
        exists [c], s. repeat split; [repeat constructor; exact Hc | simpl; lia | exact H].
    + intros (w1 & s2 & -> & Hw & Hl & H).
      destruct w1 as [|c [|? ?]]; [now left | right | simpl in Hl; lia].
      apply Forall_cons in Hw as [Hc _]. simpl. now rewrite Hc.
Qed.

(** The matcher finds exactly the prefixes the pattern denotes. *)
Lemma matchHere_spec (r : regex) (s : jsstring) :
  matchHere r s = true <-> exists w rest, s = w ++ rest /\ Matches r w.
Proof.
  revert s. induction r as [|[a q] r IH]; intros s.
  - simpl. split; [intros _; exists [], s; auto | auto].
  - rewrite matchHere_head. cbn [Matches]. split.
    + intros (w1 & s2 & -> & Hw & Hq & H). apply IH in H as (w & rest & -> & H).
      exists (w1 ++ w), rest. split; [now rewrite app_assoc|]. exists w1, w. auto.
    + intros (w & rest & -> & w1 & w2 & -> & Hw & Hq & H).
      exists w1, (w2 ++ rest). repeat split; auto; [now rewrite app_assoc|].
      apply IH. eauto.
Qed.

Lemma test_spec (r : regex) (s : jsstring) :
  test r s = true <-> exists pre w post, s = pre ++ w ++ post /\ Matches r w.
Proof.
  induction s as [|c s IH]; cbn [test]; rewrite orb_true_iff, matchHere_spec.
  - split.
    + intros [(w & rest & E & H) | H]; [|discriminate]. exists [], w, rest. auto.
    + intros (pre & w & post & E & H). left.
      symmetry in E. apply app_eq_nil in E as [-> E]. exists w, post. auto.
  - rewrite IH. split.
    + intros [(w & rest & E & H) | (pre & w & post & -> & H)].
      * exists [], w, rest. auto.
      * exists (c :: pre), w, post. auto.
    + intros (pre & w & post & E & H). destruct pre as [|d pre].
      * left. exists w, post. auto.
      * right. injection E as <- ->. eauto.
Qed.

Lemma Matches_app (r1 r2 : regex) (w : jsstring) :
  Matches (r1 ++ r2) w <-> exists w1 w2, w = w1 ++ w2 /\ Matches r1 w1 /\ Matches r2 w2.
Proof.
  revert w. induction r1 as [|[a q] r1 IH]; intros w; cbn [app Matches].
  - split; [intros H; exists [], w; auto | intros (w1 & w2 & -> & -> & H); exact H].
  - split.
    + intros (u & v & -> & Hu & Hq & H). apply IH in H as (w1 & w2 & -> & H1 & H2).
      exists (u ++ w1), w2. split; [now rewrite app_assoc|]. split; [|exact H2].
      exists u, w1. auto.
    + intros (w1 & w2 & -> & (u & v & -> & Hu & Hq & H1) & H2).
      exists u, (v ++ w2). split; [now rewrite app_assoc|]. repeat split; auto.
      apply IH. eauto.
Qed.

(** A literal pattern denotes its word and nothing else. *)
Lemma Matches_literal (p w : jsstring) : Matches (literal p) w <-> w = p.
Proof.
  revert w. induction p as [|c p IH]; intros w; cbn [literal List.map Matches].
  - reflexivity.
  - fold (literal p). cbn [countOk]. split.
    + intros (w1 & w2 & -> & Hw & Hl & H). apply IH in H as ->.
      destruct w1 as [|d [|? ?]]; try discriminate.
      apply Forall_cons in Hw as [Hd _]. simpl in Hd. apply N.eqb_eq in Hd as ->. reflexivity.
    + intros ->. exists [c], p. repeat split; [|now apply IH].
      repeat constructor. simpl. apply N.eqb_refl.
Qed.

Lemma Matches_quote (w : jsstring) :
  Matches PrefilterSpec.quote w <-> w = [c_sq] \/ w = [c_dq].
Proof.
  unfold PrefilterSpec.quote. cbn [Matches countOk]. split.
  - intros (w1 & w2 & -> & Hw & Hl & ->). rewrite app_nil_r.
    destruct w1 as [|d [|? ?]]; try discriminate.
    apply Forall_cons in Hw as [Hd _]. cbn [atomMatches existsb] in Hd.
    rewrite !orb_true_iff, !N.eqb_eq in Hd.
    destruct Hd as [->|[->|[->|Hd]]]; auto. discriminate.
  - intros [-> | ->]; [exists [c_sq], [] | exists [c_dq], []];
      (split; [reflexivity|]); (split; [repeat constructor|]); split; reflexivity.
Qed.

End Matcher.

(** ** The prefilter *)

Section Prefilter.
Import RegExp PrefilterSpec.

Lemma elem_of_Set_add (xs : list jsstring) (x y : jsstring) :
  y ∈ Set_add xs x <-> y ∈ xs \/ y = x.
Proof.
  unfold Set_add. case_bool_decide as Hx.
  - split; [auto|]. intros [H| ->]; assumption.
  - rewrite elem_of_app, list_elem_of_singleton. reflexivity.
Qed.

Lemma NoDup_Set_add (xs : list jsstring) (x : jsstring) : NoDup xs -> NoDup (Set_add xs x).
Proof.
  intros H. unfold Set_add. case_bool_decide as Hx; [exact H|].
  apply NoDup_app. split; [exact H|]. split.
  - intros y Hy Hy'. apply list_elem_of_singleton in Hy'. now subst.
  - apply NoDup_singleton.
Qed.

Lemma elem_of_fold_Set_add (l acc : list jsstring) (d : jsstring) :
  d ∈ fold_left Set_add l acc <-> d ∈ acc \/ d ∈ l.
Proof.
  revert acc. induction l as [|x l IH]; intros acc; cbn [fold_left].
  - rewrite elem_of_nil. tauto.
  - rewrite IH, elem_of_Set_add, elem_of_cons. split.
    + intros [[H| ->]|H]; auto.
    + intros [H|[->|H]]; auto.
Qed.

Lemma NoDup_fold_Set_add (l acc : list jsstring) :
  NoDup acc -> NoDup (fold_left Set_add l acc).
Proof.
  revert acc. induction l as [|x l IH]; intros acc H; cbn [fold_left]; [exact H|].
  apply IH. now apply NoDup_Set_add.
Qed.

Lemma scanLoop_spec (content : jsstring) (packageNames found : list jsstring) :
  Scanner.scanLoop content packageNames found =
  Some (fold_left (fun found pkg => if anyPattern content pkg then Set_add found pkg else found)
                  packageNames found).
Proof.
  revert found. induction packageNames as [|pkg rest IH]; intros found; [reflexivity|].
  cbn [Scanner.scanLoop fold_left]. rewrite compile_patterns. apply IH.
Qed.

Lemma scan_fold_elem (content : jsstring) (packageNames found : list jsstring) (x : jsstring) :
  x ∈ fold_left (fun found pkg => if anyPattern content pkg then Set_add found pkg else found)
                packageNames found
  <-> x ∈ found \/ (x ∈ packageNames /\ anyPattern content x = true).
Proof.
  revert found. induction packageNames as [|pkg rest IH]; intros found; cbn [fold_left].
  - rewrite elem_of_nil. tauto.
  - rewrite IH, elem_of_cons. destruct (anyPattern content pkg) eqn:E.
    + rewrite elem_of_Set_add. split.
      * intros [[H| ->]|[H1 H2]]; auto.
      * intros [H|[[->|H1] H2]]; auto.
    + split.
      * intros [H|[H1 H2]]; auto.
      * intros [H|[[->|H1] H2]]; auto. congruence.
Qed.

Lemma scan_fold_NoDup (content : jsstring) (packageNames found : list jsstring) :
  NoDup found ->
  NoDup (fold_left (fun found pkg => if anyPattern content pkg then Set_add found pkg else found)
                   packageNames found).
Proof.
  revert found. induction packageNames as [|pkg rest IH]; intros found H; cbn [fold_left];
    [exact H|].
  apply IH. destruct (anyPattern content pkg); [now apply NoDup_Set_add | exact H].
Qed.

Lemma anyPattern_spec (content pkg : jsstring) :
  anyPattern content pkg = true <->
  exists pattern, pattern ∈ patternsOf pkg /\ Contains pattern content.
Proof.
  unfold anyPattern. rewrite existsb_exists. unfold Contains. split.
  - intros (p & Hin & Ht). exists p. rewrite list_elem_of_In. split; [exact Hin|].
    now apply test_spec.
  - intros (p & Hin & Hc). exists p. rewrite <- list_elem_of_In. split; [exact Hin|].
    now apply test_spec.
Qed.

Lemma fastScan_read (env : Env) (filePath content : jsstring) (packageNames : list jsstring) :
  readFile env filePath = Some content ->
  Scanner.fastScan env filePath packageNames =
  fold_left (fun found pkg => if anyPattern content pkg then Set_add found pkg else found)
            packageNames [].
Proof. intros H. unfold Scanner.fastScan. now rewrite H, scanLoop_spec. Qed.

(** A quoted occurrence of the name is a match of the fifth pattern. *)
Lemma bare_literal_contains (content pkg : jsstring) :
  Contains (quote ++ literal pkg ++ quote) content <->
  exists pre q1 q2 post,
    content = pre ++ [q1] ++ pkg ++ [q2] ++ post
    /\ StringSpec.isQuote q1 /\ StringSpec.isQuote q2.
Proof.
  unfold Contains, StringSpec.isQuote. split.
  - intros (pre & w & post & -> & H).
    apply Matches_app in H as (w1 & w' & -> & H1 & H).
    apply Matches_app in H as (w2 & w3 & -> & H2 & H3).
    apply Matches_literal in H2 as ->.
    apply Matches_quote in H1. apply Matches_quote in H3.
    exists pre. destruct H1 as [-> | ->]; destruct H3 as [-> | ->];
      [exists c_sq, c_sq | exists c_sq, c_dq | exists c_dq, c_sq | exists c_dq, c_dq];
      exists post; (split; [now rewrite <- !app_assoc | auto]).
  - intros (pre & q1 & q2 & post & -> & H1 & H2).
    exists pre, ([q1] ++ pkg ++ [q2]), post. split; [now rewrite <- !app_assoc|].
    apply Matches_app. exists [q1], (pkg ++ [q2]). split; [reflexivity|].
    split; [apply Matches_quote; destruct H1 as [-> | ->]; auto|].
    apply Matches_app. exists pkg, [q2]. split; [reflexivity|].
    split; [now apply Matches_literal|].
    apply Matches_quote; destruct H2 as [-> | ->]; auto.
Qed.

End Prefilter.

(** ** One file of the scan *)

Section ProcessFile.
Import Analyzer ScanSpec.

Lemma evOf_addEvidence (em : gmap jsstring (list EvidenceEntry)) (p d : jsstring)
    (e : EvidenceEntry) :
  evOf (addEvidence em p e) d = evOf em d ++ (if bool_decide (p = d) then [e] else []).
Proof.
  unfold evOf, addEvidence. case_bool_decide as E.
  - subst. now rewrite lookup_insert_eq.
  - rewrite lookup_insert_ne by exact E. now rewrite app_nil_r.
Qed.

Lemma replayCached_spec (f : jsstring) (c : CacheEntry) (st : ScanState) (d : jsstring) :
  evOf (evidenceMap (replayCached f c st)) d = evOf (evidenceMap st) d ++ replayEvidence f c d
  /\ cacheFiles (replayCached f c st) = cacheFiles st.
Proof.
  unfold replayCached, replayEvidence. fold (cachedEntry f).
  generalize (imports c) as l. intros l. revert st.
  induction l as [|p l IH]; intros st; cbn [fold_left List.filter List.map].
  - now rewrite app_nil_r.
  - destruct (IH {| evidenceMap := addEvidence (evidenceMap st) p (cachedEntry f);
                    sideMap := updateSideMap (sideMap st) p (isClient c);
                    cacheFiles := cacheFiles st |}) as [-> ->].
    cbn [evidenceMap cacheFiles]. split; [|reflexivity].
    rewrite evOf_addEvidence. case_bool_decide; cbn [List.map]; now rewrite <- app_assoc.
Qed.

Lemma stringFallback_spec (f : jsstring) (candidates : list jsstring) (st : ScanState)
    (d : jsstring) :
  evOf (evidenceMap (stringFallback f candidates st)) d
  = evOf (evidenceMap st) d
    ++ List.map (fun _ => fallbackEntry f)
                (List.filter (fun p => bool_decide (p = d)) candidates)
  /\ cacheFiles (stringFallback f candidates st) = cacheFiles st.
Proof.
  unfold stringFallback. fold (fallbackEntry f). revert st.
  induction candidates as [|p l IH]; intros st; cbn [fold_left List.filter List.map].
  - now rewrite app_nil_r.
  - destruct (IH {| evidenceMap := addEvidence (evidenceMap st) p (fallbackEntry f);
                    sideMap := sideMap st;
                    cacheFiles := cacheFiles st |}) as [-> ->].
    cbn [evidenceMap cacheFiles]. split; [|reflexivity].
    rewrite evOf_addEvidence. case_bool_decide; cbn [List.map]; now rewrite <- app_assoc.
Qed.

Lemma recordImports_fold (f content : jsstring) (names : list jsstring) (isCl : bool)
    (imps : list ParsedImport) (st : ScanState) (acc : list jsstring) (d : jsstring) :
  let r :=
    fold_left
      (fun '(st, foundPackages) imp =>
         if bool_decide (packageName imp ∈ names)
         then ({| evidenceMap :=
                    addEvidence (evidenceMap st) (packageName imp)
                      {| file := f; line := Some (imp_line imp);
                         type := imp_type imp;
                         snippet := Some (extractSnippet content (imp_line imp)) |};
                  sideMap := updateSideMap (sideMap st) (packageName imp) (Some isCl);
                  cacheFiles := cacheFiles st |},
               Set_add foundPackages (packageName imp))
         else (st, foundPackages))
      imps (st, acc) in
  evOf (evidenceMap (fst r)) d
  = evOf (evidenceMap st) d
    ++ List.map (importEntry f content)
         (List.filter (fun imp => bool_decide (packageName imp = d)) (declaredImports names imps))
  /\ cacheFiles (fst r) = cacheFiles st
  /\ snd r = fold_left Set_add (List.map packageName (declaredImports names imps)) acc.
Proof.
  cbv zeta. revert st acc.
  induction imps as [|imp l IH]; intros st acc; cbn [fold_left declaredImports List.filter].
  - cbn. now rewrite app_nil_r.
  - fold (declaredImports names l). case_bool_decide as Hin.
    + match goal with |- context [fold_left _ l (?s, ?a)] => destruct (IH s a) as (-> & -> & ->) end.
      cbn [evidenceMap cacheFiles List.map fold_left List.filter]. split; [|split; reflexivity].
      rewrite evOf_addEvidence. fold (importEntry f content imp).
      case_bool_decide; cbn [List.map]; now rewrite <- app_assoc.
    + apply IH.
Qed.

Lemma recordImports_spec (f content : jsstring) (names : list jsstring) (isCl : bool)
    (imps : list ParsedImport) (st : ScanState) (d : jsstring) :
  evOf (evidenceMap (fst (recordImports f content names isCl imps st))) d
  = evOf (evidenceMap st) d
    ++ List.map (importEntry f content)
         (List.filter (fun imp => bool_decide (packageName imp = d)) (declaredImports names imps))
  /\ cacheFiles (fst (recordImports f content names isCl imps st)) = cacheFiles st
  /\ snd (recordImports f content names isCl imps st) = foundOf names imps.
Proof. apply recordImports_fold. Qed.

(** One file: what it adds to a dependency's evidence and what it does to
    the cache directory. *)
Lemma processFile_spec (env : Env) (cache : Cache.CacheManager) (f : jsstring)
    (names : list jsstring) (st : ScanState) (d : jsstring) :
  evOf (evidenceMap (processFile env cache f names st)) d
  = evOf (evidenceMap st) d
    ++ match hitOf env cache (cacheFiles st) f with
       | Some c => replayEvidence f c d
       | None => missEvidence env f names d
       end
  /\ cacheFiles (processFile env cache f names st)
     = match hitOf env cache (cacheFiles st) f with
       | Some _ => cacheFiles st
       | None => match missWrite env cache f names with
                 | Some e => <[f := Cache.Stored e]> (cacheFiles st)
                 | None => cacheFiles st
                 end
       end.
Proof.
  unfold processFile. fold (hitOf env cache (cacheFiles st) f).
  destruct (hitOf env cache (cacheFiles st) f) as [c|]; [apply replayCached_spec|].
  unfold missEvidence, missWrite. cbv zeta.
  destruct (length (Scanner.fastScan env f names) =? 0)%nat; [now rewrite app_nil_r|].
  destruct (readFile env f) as [content|]; [|apply stringFallback_spec].
  pose proof (recordImports_spec f content names (Parser.detectUseClient content)
                (Parser.parseFile env content f) st d) as (H1 & H2 & H3).
  destruct (recordImports f content names (Parser.detectUseClient content)
              (Parser.parseFile env content f) st) as [st' found].
  cbn [fst snd] in *. unfold Scanner.getFileStats.
  destruct (stat env f) as [s|]; cbn [evidenceMap cacheFiles]; [|now split].
  split; [exact H1|]. unfold Cache.set. rewrite H2, H3.
  destruct (Cache.enabled cache); [|reflexivity]. cbn [negb andb].
  destruct (canWrite env f); reflexivity.
Qed.

Lemma touch_touch (b b' : bool) (k : jsstring) (s : gmap jsstring bool) :
  touch b k (touch b' k s) = touch (b || b') k s.
Proof. destruct b, b'; cbn; try reflexivity. apply insert_insert_eq. Qed.

Lemma sideOf_update (sm : gmap jsstring (gmap jsstring bool)) (p d : jsstring)
    (flag : option bool) :
  sideOf (updateSideMap sm p flag) d
  = touch (bool_decide (p = d)) (sideKey flag) (sideOf sm d).
Proof.
  unfold sideOf, updateSideMap, touch, sideKey. case_bool_decide as E.
  - subst. rewrite lookup_insert_eq. cbn. now destruct (default false flag).
  - now rewrite lookup_insert_ne.
Qed.

Lemma bool_decide_elem_cons (d p : jsstring) (l : list jsstring) :
  bool_decide (d ∈ p :: l) = bool_decide (d ∈ l) || bool_decide (p = d).
Proof.
  apply eq_true_iff_eq. rewrite orb_true_iff, !bool_decide_eq_true, elem_of_cons.
  split; [intros [->|H]; auto | intros [H| ->]; auto].
Qed.

Lemma replayCached_side (f : jsstring) (c : CacheEntry) (st : ScanState) (d : jsstring) :
  sideOf (sideMap (replayCached f c st)) d = replaySide c d (sideOf (sideMap st) d).
Proof.
  unfold replayCached, replaySide. generalize (imports c) as l. intros l. revert st.
  induction l as [|p l IH]; intros st; cbn [fold_left].
  - reflexivity.
  - rewrite IH. cbn [sideMap]. rewrite sideOf_update, touch_touch.
    now rewrite bool_decide_elem_cons.
Qed.

Lemma stringFallback_side (f : jsstring) (candidates : list jsstring) (st : ScanState) :
  sideMap (stringFallback f candidates st) = sideMap st.
Proof.
  unfold stringFallback. revert st.
  induction candidates as [|p l IH]; intros st; cbn [fold_left]; [reflexivity|].
  now rewrite IH.
Qed.

Lemma recordImports_side (f content : jsstring) (names : list jsstring) (isCl : bool)
    (imps : list ParsedImport) (st : ScanState) (d : jsstring) :
  sideOf (sideMap (fst (recordImports f content names isCl imps st))) d
  = touch (bool_decide (d ∈ foundOf names imps)) (sideKey (Some isCl)) (sideOf (sideMap st) d).
Proof.
  assert (bool_decide (d ∈ foundOf names imps)
          = bool_decide (d ∈ List.map packageName (declaredImports names imps))) as ->.
  { apply bool_decide_ext. unfold foundOf. rewrite elem_of_fold_Set_add, elem_of_nil. tauto. }
  unfold recordImports. generalize (@nil jsstring) as acc. revert st.
  induction imps as [|imp l IH]; intros st acc; cbn [fold_left declaredImports List.filter].
  - reflexivity.
  - fold (declaredImports names l).
    destruct (bool_decide (packageName imp ∈ names)).
    + match goal with
      | |- context [fold_left _ l (?s, ?a)] => rewrite (IH s a)
      end.
      cbn [sideMap List.map]. rewrite sideOf_update, touch_touch.
      now rewrite bool_decide_elem_cons.
    + apply IH.
Qed.

(** One file: what it does to a dependency's flags. *)
Lemma processFile_side (env : Env) (cache : Cache.CacheManager) (f : jsstring)
    (names : list jsstring) (st : ScanState) (d : jsstring) :
  sideOf (sideMap (processFile env cache f names st)) d
  = match hitOf env cache (cacheFiles st) f with
    | Some c => replaySide c d (sideOf (sideMap st) d)
    | None => missSide env f names d (sideOf (sideMap st) d)
    end.
Proof.
  unfold processFile. fold (hitOf env cache (cacheFiles st) f).
  destruct (hitOf env cache (cacheFiles st) f) as [c|]; [apply replayCached_side|].
  unfold missSide.
  destruct (length (Scanner.fastScan env f names) =? 0)%nat; [reflexivity|].
  destruct (readFile env f) as [content|]; [|now rewrite stringFallback_side].
  pose proof (recordImports_side f content names (Parser.detectUseClient content)
                (Parser.parseFile env content f) st d) as H.
  destruct (recordImports f content names (Parser.detectUseClient content)
              (Parser.parseFile env content f) st) as [st' found].
  cbn [fst] in H. now destruct (Scanner.getFileStats env f).
Qed.

(** A file replayed from the entry it left sets the flags it set when it
    was scanned. *)
Lemma replaySide_written (env : Env) (cache : Cache.CacheManager) (f : jsstring)
    (names : list jsstring) (c : CacheEntry) (d : jsstring) (sides : gmap jsstring bool) :
  missWrite env cache f names = Some c ->
  replaySide c d sides = missSide env f names d sides.
Proof.
  unfold missWrite, missSide, replaySide.
  destruct (length (Scanner.fastScan env f names) =? 0)%nat; [discriminate|].
  destruct (readFile env f) as [content|]; [|discriminate].
  destruct (stat env f) as [s|]; [|discriminate].
  destruct (Cache.enabled cache && canWrite env f); [|discriminate].
  now intros [= <-].
Qed.

End ProcessFile.

(** ** The evidence tags of Stage B *)

Section ParsedTypes.
Import Parser ScanSpec.

Lemma pushImport_types (imports : list ParsedImport) (v : JsVal) (t : EvidenceType)
    (node : JsVal) (typeOnly : option bool) :
  parsedType t -> okImports imports ->
  okImports (importsOf (pushImport imports v t node typeOnly)).
Proof.
  intros Ht Hi. unfold pushImport. destruct v; cbn [importsOf]; try exact Hi.
  apply Forall_app. split; [exact Hi|]. constructor; [exact Ht | constructor].
Qed.

Lemma andThen_types (o : outcome) (k : list ParsedImport -> outcome) :
  okImports (importsOf o) ->
  (forall imports, okImports imports -> okImports (importsOf (k imports))) ->
  okImports (importsOf (andThen o k)).
Proof. intros Ho Hk. destruct o; cbn [andThen importsOf] in *; auto. Qed.

Lemma visitNode_types (node : JsVal) (imports : list ParsedImport) :
  okImports imports -> okImports (importsOf (visitNode node imports)).
Proof.
  intros Hi. unfold visitNode. cbv zeta.
  repeat (apply andThen_types; [|clear imports Hi; intros imports Hi]);
    repeat match goal with
           | |- context [if ?b then _ else _] => destruct b
           end;
    try exact Hi; apply pushImport_types; try exact Hi; unfold parsedType; tauto.
Qed.

(** The elements of an array, visited in order. *)
Lemma each_types (children : list JsVal) :
  Forall (fun child => forall imports, okImports imports ->
            okImports (importsOf (extractImportsFromAST child imports))) children ->
  forall imports, okImports imports ->
    okImports
      (importsOf
         ((fix each (children : list JsVal) (imports : list ParsedImport) : outcome :=
             match children with
             | [] => Done imports
             | child :: rest => andThen (extractImportsFromAST child imports) (each rest)
             end) children imports)).
Proof.
  induction 1 as [|child cs Hc _ IHcs]; intros imports Hi; [exact Hi|].
  apply andThen_types; [now apply Hc | exact IHcs].
Qed.

Lemma extractImportsFromAST_types :
  forall (node : JsVal) (imports : list ParsedImport),
    okImports imports -> okImports (importsOf (extractImportsFromAST node imports)).
Proof.
  fix IH 1. intros node imports Hi.
  assert (forall value, (forall imports, okImports imports ->
                           okImports (importsOf (extractImportsFromAST value imports))) ->
          (match value with
           | VArr children =>
               Forall (fun child => forall imports, okImports imports ->
                         okImports (importsOf (extractImportsFromAST child imports))) children
           | _ => True
           end) ->
          forall imports, okImports imports ->
            okImports
              (importsOf
                 match value with
                 | VArr children =>
                     (fix each (children : list JsVal) (imports : list ParsedImport)
                        : outcome :=
                        match children with
                        | [] => Done imports
                        | child :: rest =>
                            andThen (extractImportsFromAST child imports) (each rest)
                        end) children imports
                 | VObj _ => extractImportsFromAST value imports
                 | _ => Done imports
                 end)) as Hdescend.
  { intros value Hv Hch imps Himps.
    destruct value; cbn [importsOf]; try exact Himps;
      [now apply each_types | now apply Hv]. }
  destruct node as [| | | | |xs|fields];
    cbn [extractImportsFromAST importsOf]; try exact Hi.
  - revert imports Hi. induction xs as [|value rest IHrest]; intros imports Hi;
      [exact Hi|].
    apply andThen_types; [|exact IHrest].
    apply Hdescend; [exact (IH value) | | exact Hi].
    destruct value as [| | | | |children|fs]; try exact I.
    induction children as [|child cs IHcs]; constructor; [exact (IH child) | exact IHcs].
  - apply andThen_types; [now apply visitNode_types|]. clear imports Hi.
    induction fields as [|[key value] rest IHrest]; intros imports Hi; [exact Hi|].
    destruct (eqs key (lit "span") || eqs key (lit "parent")); [now apply IHrest|].
    apply andThen_types; [|exact IHrest].
    apply Hdescend; [exact (IH value) | | exact Hi].
    destruct value as [| | | | |children|fs]; try exact I.
    induction children as [|child cs IHcs]; constructor; [exact (IH child) | exact IHcs].
Qed.

Lemma parseFile_types (env : Env) (content filePath : jsstring) :
  okImports (parseFile env content filePath).
Proof.
  unfold parseFile. destruct (parseSync env content (parseOptions filePath)) as [ast|];
    [|constructor].
  pose proof (extractImportsFromAST_types ast [] (Forall_nil_2 _)) as H.
  now destruct (extractImportsFromAST ast []).
Qed.

End ParsedTypes.

(** ** Two scans in a row *)

Section Rescan.
Import Analyzer ScanSpec.
Variable env : Env.
Variable cache : Cache.CacheManager.
Variable names : list jsstring.

Lemma hitOf_absent (files : gmap jsstring Cache.CacheFile) (f : jsstring) :
  files !! f = None -> hitOf env cache files f = None.
Proof.
  intros H. unfold hitOf, Cache.get. rewrite H. now destruct (negb (Cache.enabled cache)).
Qed.

Lemma Qeq_bool_refl (q : Q) : Qeq_bool q q = true.
Proof. apply Qeq_bool_iff. reflexivity. Qed.

Lemma hitOf_written (files : gmap jsstring Cache.CacheFile) (f : jsstring) (c : CacheEntry) :
  missWrite env cache f names = Some c -> files !! f = Some (Cache.Stored c) ->
  hitOf env cache files f = Some c.
Proof.
  unfold missWrite, hitOf, Cache.get, Scanner.getFileStats. intros Hw Hf.
  destruct (length (Scanner.fastScan env f names) =? 0)%nat; [discriminate|].
  destruct (readFile env f) as [content|]; [|discriminate].
  destruct (stat env f) as [s|]; [|discriminate].
  destruct (Cache.enabled cache); [|discriminate]. cbn [andb negb] in *.
  destruct (canWrite env f); [|discriminate].
  injection Hw as <-. rewrite Hf. cbn [mtime negb]. rewrite Qeq_bool_refl.
  cbn [negb mtime]. now rewrite Qeq_bool_refl.
Qed.

(** The uncached scan: every file is scanned, and leaves its entry. *)
Lemma scanFiles_uncached (files : list jsstring) (st : ScanState) :
  NoDup files -> (forall f, f ∈ files -> cacheFiles st !! f = None) ->
  (forall d, evOf (evidenceMap (scanFiles env cache names files st)) d
             = evOf (evidenceMap st) d
               ++ flat_map (fun f => missEvidence env f names d) files)
  /\ (forall d, sideOf (sideMap (scanFiles env cache names files st)) d
                = fold_left (fun sides f => missSide env f names d sides) files
                            (sideOf (sideMap st) d))
  /\ (forall g, cacheFiles (scanFiles env cache names files st) !! g
                = if bool_decide (g ∈ files)
                  then Cache.Stored <$> missWrite env cache g names
                  else cacheFiles st !! g).
Proof.
  revert st. induction files as [|f rest IH]; intros st Hnd Hfree.
  - cbn. repeat split; intros; try reflexivity. now rewrite app_nil_r.
  - apply NoDup_cons in Hnd as [Hf Hnd]. unfold scanFiles. cbn [fold_left].
    fold (scanFiles env cache names rest (processFile env cache f names st)).
    assert (hitOf env cache (cacheFiles st) f = None) as Hhit
      by (apply hitOf_absent, Hfree; left).
    assert (forall g, g <> f ->
              cacheFiles (processFile env cache f names st) !! g = cacheFiles st !! g) as Hother.
    { intros g Hg. destruct (processFile_spec env cache f names st []) as [_ ->].
      rewrite Hhit. destruct (missWrite env cache f names); [|reflexivity].
      now rewrite lookup_insert_ne by congruence. }
    destruct (IH (processFile env cache f names st) Hnd) as (He & Hs & Hc).
    { intros g Hg. rewrite Hother; [apply Hfree; now right | intros ->; contradiction]. }
    split; [|split].
    + intros d. rewrite He. destruct (processFile_spec env cache f names st d) as [-> _].
      rewrite Hhit. cbn [flat_map]. now rewrite <- app_assoc.
    + intros d. rewrite Hs, processFile_side, Hhit. reflexivity.
    + intros g. rewrite Hc. case_bool_decide as Hg.
      * rewrite bool_decide_eq_true_2 by (now right). reflexivity.
      * destruct (decide (g = f)) as [->|Hgf].
        -- rewrite bool_decide_eq_true_2 by (now left).
           destruct (processFile_spec env cache f names st []) as [_ ->].
           rewrite Hhit. destruct (missWrite env cache f names).
           ++ now rewrite lookup_insert_eq.
           ++ apply Hfree. now left.
        -- rewrite bool_decide_eq_false_2 by (rewrite elem_of_cons; tauto).
           now apply Hother.
Qed.

(** The scan that follows: a file that left an entry is replayed, any
    other is scanned again; the flags come out as before and the cache
    directory stays as it is. *)
Lemma scanFiles_cached (files : list jsstring) (st : ScanState) :
  (forall f, f ∈ files ->
     cacheFiles st !! f = Cache.Stored <$> missWrite env cache f names) ->
  cacheFiles (scanFiles env cache names files st) = cacheFiles st
  /\ (forall d, evOf (evidenceMap (scanFiles env cache names files st)) d
                = evOf (evidenceMap st) d
                  ++ flat_map (fun f => rescanEvidence env cache f names d) files)
  /\ (forall d, sideOf (sideMap (scanFiles env cache names files st)) d
                = fold_left (fun sides f => missSide env f names d sides) files
                            (sideOf (sideMap st) d)).
Proof.
  revert st. induction files as [|f rest IH]; intros st Hst.
  - cbn. repeat split; intros; try reflexivity. now rewrite app_nil_r.
  - unfold scanFiles. cbn [fold_left].
    fold (scanFiles env cache names rest (processFile env cache f names st)).
    assert (cacheFiles (processFile env cache f names st) = cacheFiles st
            /\ (forall d, evOf (evidenceMap (processFile env cache f names st)) d
                          = evOf (evidenceMap st) d ++ rescanEvidence env cache f names d)
            /\ (forall d, sideOf (sideMap (processFile env cache f names st)) d
                          = missSide env f names d (sideOf (sideMap st) d)))
      as (Hc & He & Hs).
    { pose proof (Hst f ltac:(now left)) as Hf. unfold rescanEvidence.
      destruct (missWrite env cache f names) as [c|] eqn:Hw; cbn in Hf.
      - pose proof (hitOf_written _ f c Hw Hf) as Hhit.
        split; [|split; intros d].
        + destruct (processFile_spec env cache f names st []) as [_ ->].
          now rewrite Hhit.
        + destruct (processFile_spec env cache f names st d) as [-> _]. now rewrite Hhit.
        + rewrite processFile_side, Hhit. now apply replaySide_written with (cache := cache).
      - pose proof (hitOf_absent _ f Hf) as Hhit.
        split; [|split; intros d].
        + destruct (processFile_spec env cache f names st []) as [_ ->].
          now rewrite Hhit, Hw.
        + destruct (processFile_spec env cache f names st d) as [-> _]. now rewrite Hhit.
        + now rewrite processFile_side, Hhit. }
    destruct (IH (processFile env cache f names st)) as (Hc' & He' & Hs').
    { intros g Hg. rewrite Hc. apply Hst. now right. }
    split; [now rewrite Hc', Hc|]. split.
    + intros d. rewrite He', He. cbn [flat_map]. now rewrite <- app_assoc.
    + intros d. now rewrite Hs', Hs.
Qed.

End Rescan.

Section RescanCompare.
Import Analyzer ScanSpec.
Variable env : Env.
Variable cache : Cache.CacheManager.
Variable names : list jsstring.

Lemma filter_eq_nil {A} (P : A -> bool) (l : list A) :
  List.filter P l = [] <-> forall x, In x l -> P x = false.
Proof.
  induction l as [|a l IH]; cbn [List.filter].
  - split; [intros _ x [] | reflexivity].
  - destruct (P a) eqn:E.
    + split; [discriminate|]. intros H. rewrite (H a) in E by (now left). discriminate.
    + rewrite IH. split.
      * intros H x [<-|Hx]; auto.
      * intros H x Hx. apply H. now right.
Qed.

Lemma map_eq_nil_iff {A B} (g : A -> B) (l : list A) : List.map g l = [] <-> l = [].
Proof. destruct l; cbn; split; congruence. Qed.

(** In an entry list without repetition a name is found at most once. *)
Lemma filter_NoDup_length (l : list jsstring) (d : jsstring) :
  NoDup l -> (length (List.filter (fun p => bool_decide (p = d)) l) <= 1)%nat.
Proof.
  induction 1 as [|x l Hx Hnd IH]; cbn [List.filter]; [cbn; lia|].
  case_bool_decide as E; [|exact IH]. subst x.
  assert (List.filter (fun p => bool_decide (p = d)) l = []) as ->; [|cbn; lia].
  apply filter_eq_nil. intros y Hy. apply bool_decide_eq_false. intros ->.
  apply Hx. now apply list_elem_of_In.
Qed.

(** The names written to the cache are those with Stage B evidence. *)
Lemma missWrite_imports (f : jsstring) (c : CacheEntry) :
  missWrite env cache f names = Some c ->
  NoDup (imports c)
  /\ forall d, d ∈ imports c <-> missEvidence env f names d <> [].
Proof.
  unfold missWrite, missEvidence. cbv zeta.
  destruct (length (Scanner.fastScan env f names) =? 0)%nat; [discriminate|].
  destruct (readFile env f) as [content|]; [|discriminate].
  destruct (stat env f) as [s|]; [|discriminate].
  destruct (Cache.enabled cache && canWrite env f); [|discriminate].
  intros [= <-]. cbn [imports]. unfold foundOf. split.
  - apply NoDup_fold_Set_add, NoDup_nil_2.
  - intros d. rewrite elem_of_fold_Set_add, elem_of_nil, map_eq_nil_iff, filter_eq_nil.
    rewrite list_elem_of_In, in_map_iff. split.
    + intros [[]|(imp & <- & Hin)] H. specialize (H imp Hin).
      now rewrite bool_decide_eq_true_2 in H.
    + intros H. right.
      destruct (List.filter (fun imp => bool_decide (packageName imp = d))
                  (declaredImports names (Parser.parseFile env content f))) as [|imp l] eqn:E.
      * exfalso. apply H. now apply filter_eq_nil.
      * assert (In imp (imp :: l)) as Hin by now left.
        rewrite <- E in Hin. apply filter_In in Hin as [Hin Hd].
        apply bool_decide_eq_true in Hd. eauto.
Qed.

Lemma replayEvidence_nil (f : jsstring) (c : CacheEntry) (d : jsstring) :
  replayEvidence f c d = [] <-> d ∉ imports c.
Proof.
  unfold replayEvidence. rewrite map_eq_nil_iff, filter_eq_nil. split.
  - intros H Hd. apply list_elem_of_In in Hd. specialize (H d Hd).
    now rewrite bool_decide_eq_true_2 in H.
  - intros H x Hx. apply bool_decide_eq_false. intros ->. apply H. now apply list_elem_of_In.
Qed.

Lemma rescanEvidence_nil (f d : jsstring) :
  rescanEvidence env cache f names d = [] <-> missEvidence env f names d = [].
Proof.
  unfold rescanEvidence. destruct (missWrite env cache f names) as [c|] eqn:Hw; [|reflexivity].
  destruct (missWrite_imports f c Hw) as [_ H]. rewrite replayEvidence_nil, H.
  destruct (missEvidence env f names d); split; intros H'; try congruence.
  exfalso. apply H'. discriminate.
Qed.

(** A replayed file either has a synthetic entry for the dependency or
    contributes what it contributed when scanned (nothing). *)
Lemma rescanEvidence_cases (f d : jsstring) :
  In (cachedEntry f) (rescanEvidence env cache f names d)
  \/ rescanEvidence env cache f names d = missEvidence env f names d.
Proof.
  destruct (rescanEvidence env cache f names d) as [|e l] eqn:E.
  - right. symmetry. now apply rescanEvidence_nil.
  - unfold rescanEvidence in *. destruct (missWrite env cache f names) as [c|]; [|now right].
    left. unfold replayEvidence in E.
    destruct (List.filter (fun p => bool_decide (p = d)) (imports c)); [discriminate|].
    cbn in E. injection E as <- _. now left.
Qed.

Lemma missEvidence_not_cached (f g d : jsstring) (e : EvidenceEntry) :
  In e (missEvidence env f names d) -> e <> cachedEntry g.
Proof.
  unfold missEvidence. cbv zeta.
  destruct (length (Scanner.fastScan env f names) =? 0)%nat; [intros []|].
  destruct (readFile env f) as [content|]; intros H; apply in_map_iff in H as (x & <- & _);
    discriminate.
Qed.

Lemma rescanEvidence_file (f d : jsstring) (e : EvidenceEntry) :
  In e (rescanEvidence env cache f names d) -> file e = f.
Proof.
  unfold rescanEvidence, replayEvidence, missEvidence. cbv zeta.
  destruct (missWrite env cache f names) as [c|].
  - intros H. apply in_map_iff in H as (x & <- & _). reflexivity.
  - destruct (length (Scanner.fastScan env f names) =? 0)%nat; [intros []|].
    destruct (readFile env f) as [content|]; intros H; apply in_map_iff in H as (x & <- & _);
      reflexivity.
Qed.

Lemma rescanEvidence_cached_once (f g d : jsstring) :
  (length (List.filter (fun e => bool_decide (e = cachedEntry g))
                       (rescanEvidence env cache f names d)) <= 1)%nat.
Proof.
  unfold rescanEvidence. destruct (missWrite env cache f names) as [c|] eqn:Hw.
  - destruct (missWrite_imports f c Hw) as [Hnd _].
    etransitivity; [apply List.filter_length_le|]. unfold replayEvidence.
    rewrite length_map. now apply filter_NoDup_length.
  - assert (List.filter (fun e => bool_decide (e = cachedEntry g))
                        (missEvidence env f names d) = []) as ->; [|cbn; lia].
    apply filter_eq_nil. intros e He. apply bool_decide_eq_false.
    now apply missEvidence_not_cached with (f := f) (d := d).
Qed.

Lemma rescan_cached_once (files : list jsstring) (g d : jsstring) :
  NoDup files ->
  (length (List.filter (fun e => bool_decide (e = cachedEntry g))
             (flat_map (fun f => rescanEvidence env cache f names d) files)) <= 1)%nat.
Proof.
  induction 1 as [|f rest Hf Hnd IH]; cbn [flat_map]; [cbn; lia|].
  rewrite List.filter_app, length_app.
  destruct (decide (f = g)) as [->|Hfg].
  - assert (List.filter (fun e => bool_decide (e = cachedEntry g))
              (flat_map (fun f => rescanEvidence env cache f names d) rest) = []) as ->.
    { apply filter_eq_nil. intros e He. apply bool_decide_eq_false. intros ->.
      apply in_flat_map in He as (f & Hin & He). apply rescanEvidence_file in He.
      cbn in He. subst f. apply Hf. now apply list_elem_of_In. }
    pose proof (rescanEvidence_cached_once g g d). cbn [length]. lia.
  - assert (List.filter (fun e => bool_decide (e = cachedEntry g))
              (rescanEvidence env cache f names d) = []) as ->; [|exact IH].
    apply filter_eq_nil. intros e He. apply bool_decide_eq_false. intros ->.
    apply rescanEvidence_file in He. cbn in He. congruence.
Qed.

Lemma flat_map_nil {A B} (F : A -> list B) (l : list A) :
  flat_map F l = [] <-> forall x, In x l -> F x = [].
Proof.
  induction l as [|a l IH]; cbn [flat_map].
  - split; [intros _ x [] | reflexivity].
  - split.
    + intros H. apply app_eq_nil in H as [Ha Hl]. intros x [<-|Hx]; [exact Ha|].
      now apply IH.
    + intros H. rewrite (H a) by (now left). apply IH. intros x Hx. apply H. now right.
Qed.

Lemma rescan_nil (files : list jsstring) (d : jsstring) :
  flat_map (fun f => rescanEvidence env cache f names d) files = []
  <-> flat_map (fun f => missEvidence env f names d) files = [].
Proof.
  rewrite !flat_map_nil. split; intros H f Hf; apply rescanEvidence_nil, H, Hf.
Qed.

Lemma rescan_cases (files : list jsstring) (d : jsstring) :
  (exists f, In (cachedEntry f) (flat_map (fun f => rescanEvidence env cache f names d) files))
  \/ flat_map (fun f => rescanEvidence env cache f names d) files
     = flat_map (fun f => missEvidence env f names d) files.
Proof.
  induction files as [|f rest IH]; cbn [flat_map]; [now right|].
  destruct (rescanEvidence_cases f d) as [H|H].
  - left. exists f. apply in_or_app. now left.
  - destruct IH as [[g Hg]|IH].
    + left. exists g. apply in_or_app. now right.
    + right. now rewrite H, IH.
Qed.

(** Scanned evidence comes from the syntax walk, whose tags weigh 0.8
    or more. *)
Lemma missEvidence_scores (f d : jsstring) (e : EvidenceEntry) :
  In e (missEvidence env f names d) -> (8 # 10 <= Confidence.scoreOf e)%Q.
Proof.
  unfold missEvidence. cbv zeta. destruct (readFile env f) as [content|] eqn:Hread.
  - destruct (length (Scanner.fastScan env f names) =? 0)%nat; [intros []|].
    intros H. apply in_map_iff in H as (imp & <- & Him).
    apply filter_In in Him as [Him _]. apply filter_In in Him as [Him _].
    pose proof (parseFile_types env content f) as Hok.
    unfold okImports in Hok. rewrite Forall_forall in Hok.
    specialize (Hok imp ltac:(now apply list_elem_of_In)).
    rewrite scoreOf_baseWeight. cbn [importEntry type].
    destruct Hok as [-> | [-> | [-> | [-> | ->]]]]; q_const.
  - unfold Scanner.fastScan. rewrite Hread. intros [].
Qed.

End RescanCompare.

Section ConfidenceOfReplay.
Local Open Scope Q_scope.

Lemma confidence_of_top (evidence : list EvidenceEntry) (e : EvidenceEntry) :
  In e evidence -> Confidence.scoreOf e == 1 -> 1 <= Confidence.calculateConfidence evidence.
Proof.
  intros Hin He. destruct evidence as [|a l]; [destruct Hin|].
  rewrite calculateConfidence_cons. apply Q.min_glb; [|apply Qle_refl].
  pose proof (ConfidenceSpec.boostOf (length (a :: l))) as b.
  pose proof (boostOf_nonneg (length (a :: l)) ltac:(cbn; lia)) as Hb.
  assert (1 <= Confidence.Math_max (Confidence.scoreOf a) (List.map Confidence.scoreOf l)) as Hm.
  { rewrite <- He. destruct Hin as [<-|Hin]; [apply Math_max_ge_init|].
    apply Math_max_ge. now apply in_map. }
  lra.
Qed.

Lemma confidence_at_least (evidence : list EvidenceEntry) (q : Q) :
  evidence <> [] -> q <= 1 ->
  (forall e, In e evidence -> q <= Confidence.scoreOf e) ->
  q <= Confidence.calculateConfidence evidence.
Proof.
  intros Hne Hq Hall. destruct evidence as [|a l]; [contradiction|].
  rewrite calculateConfidence_cons. apply Q.min_glb; [|exact Hq].
  pose proof (boostOf_nonneg (length (a :: l)) ltac:(cbn; lia)) as Hb.
  pose proof (Math_max_ge_init (List.map Confidence.scoreOf l) (Confidence.scoreOf a)) as Hm.
  pose proof (Hall a ltac:(now left)). lra.
Qed.

Lemma classify_mono (c1 c2 minUnused minUsed : Q) :
  c1 <= c2 ->
  (Confidence.classifyDependency c1 minUnused minUsed = used ->
   Confidence.classifyDependency c2 minUnused minUsed = used)
  /\ (Confidence.classifyDependency c2 minUnused minUsed = unused ->
      Confidence.classifyDependency c1 minUnused minUsed = unused).
Proof.
  intros Hle.
  destruct (classify_cases c1 minUnused minUsed) as (U1 & N1 & _).
  destruct (classify_cases c2 minUnused minUsed) as (U2 & N2 & _).
  rewrite U1, U2, N1, N2. split; [intros; lra | intros [? ?]; split; lra].
Qed.

End ConfidenceOfReplay.

(** ** The whole scan *)

Section WholeScan.
Import Analyzer ScanSpec.

Lemma buildResult_rescan (options : ScanOptions) (pj : PackageJson) (st1 st2 : ScanState)
    (env : Env) (cache : Cache.CacheManager) (names files : list jsstring) (d : jsstring) :
  NoDup files ->
  evOf (evidenceMap st1) d = flat_map (fun f => missEvidence env f names d) files ->
  evOf (evidenceMap st2) d = flat_map (fun f => rescanEvidence env cache f names d) files ->
  sideOf (sideMap st2) d = sideOf (sideMap st1) d ->
  rescanOf options (buildResult options pj st1 d) (buildResult options pj st2 d).
Proof.
  intros Hnd E1 E2 Es. unfold rescanOf, buildResult.
  cbn [name section side evidence confidence status notes].
  fold (evOf (evidenceMap st1) d). fold (evOf (evidenceMap st2) d).
  fold (sideOf (sideMap st1) d). fold (sideOf (sideMap st2) d). rewrite E1, E2, Es.
  set (ev1 := flat_map (fun f => missEvidence env f names d) files).
  set (ev2 := flat_map (fun f => rescanEvidence env cache f names d) files).
  assert (Confidence.calculateConfidence ev1 <= Confidence.calculateConfidence ev2)%Q as Hconf.
  { destruct (rescan_cases env cache names files d) as [[f Hf]|E].
    - eapply Qle_trans; [apply confidence_range|].
      apply (confidence_of_top _ (cachedEntry f) Hf). reflexivity.
    - unfold ev1, ev2. rewrite E. apply Qle_refl. }
  destruct (classify_mono _ _ (minConfidenceUnused options) (minConfidenceUsed options) Hconf)
    as [Hused Hunused].
  split; [reflexivity|]. split; [reflexivity|]. split; [reflexivity|].
  split; [apply rescan_nil|]. split; [exact Hconf|].
  split; [exact Hused|]. split; [exact Hunused|]. split.
  - intros Hmin. destruct ev1 as [|e1 l1] eqn:Eev1.
    + assert (ev2 = []) as -> by (now apply rescan_nil). now split.
    + assert (8 # 10 <= Confidence.calculateConfidence ev1)%Q as Hlow.
      { apply confidence_at_least; [rewrite Eev1; discriminate | q_const |].
        intros e He. apply in_flat_map in He as (f & _ & He).
        now apply missEvidence_scores in He. }
      rewrite Eev1 in Hlow.
      assert (Confidence.classifyDependency (Confidence.calculateConfidence (e1 :: l1))
                (minConfidenceUnused options) (minConfidenceUsed options) = used) as H1.
      { apply classify_cases. eapply Qle_trans; [exact Hmin | exact Hlow]. }
      pose proof (Hused H1) as H2. rewrite H1, H2. split; reflexivity.
  - intros f. now apply rescan_cached_once.
Qed.

Lemma Forall2_map_same {A B} (R : B -> B -> Prop) (g h : A -> B) (l : list A) :
  (forall x, R (g x) (h x)) -> Forall2 R (List.map g l) (List.map h l).
Proof. intros H. induction l; cbn [List.map]; constructor; auto. Qed.

Lemma runScan_eq (env : Env) (manifests : Manifests) (options : ScanOptions)
    (files : gmap jsstring Cache.CacheFile) :
  runScan env manifests options files =
  match manifests (cwd options) with
  | None => None
  | Some pj =>
      let st := scanFiles env (cacheOf options) (Package.getAllDependencyNames pj)
                  (Scanner.findFiles env options) (initialState files) in
      Some (resultOf env options pj st, cacheFiles st)
  end.
Proof. reflexivity. Qed.

Lemma In_fold_Set_add (l acc : list jsstring) (n : jsstring) :
  In n (fold_left Set_add l acc) <-> In n acc \/ In n l.
Proof. rewrite <- !list_elem_of_In. apply elem_of_fold_Set_add. Qed.

Lemma getAllDependencyNames_spec (pkg : PackageJson) :
  NoDup (Package.getAllDependencyNames pkg)
  /\ forall n, In n (Package.getAllDependencyNames pkg) <-> ManifestSpec.declared pkg n.
Proof.
  unfold Package.getAllDependencyNames, ManifestSpec.declared.
  assert (forall (secs : list (option DepRecord)) (acc : list jsstring), NoDup acc ->
            let r := fold_left
                       (fun names deps =>
                          match deps with
                          | Some d => fold_left Set_add (List.map fst d) names
                          | None => names
                          end) secs acc in
            NoDup r /\ forall n, In n r <->
                         In n acc \/ exists d, In (Some d) secs /\ In n (List.map fst d)) as H.
  { induction secs as [|[d|] secs IH]; intros acc Hacc; cbn [fold_left].
    - split; [exact Hacc|]. intros n. split; [auto | intros [H|(d & [] & _)]; exact H].
    - destruct (IH (fold_left Set_add (List.map fst d) acc)) as [Hnd Hin];
        [now apply NoDup_fold_Set_add|].
      split; [exact Hnd|]. intros n. rewrite Hin, In_fold_Set_add. split.
      + intros [[H|H]|(d' & H1 & H2)]; [auto | right; exists d | right; exists d'];
          split; auto; [now left | now right].
      + intros [H|(d' & [[= <-]|H1] & H2)]; [auto | auto | right; eauto].
    - destruct (IH acc Hacc) as [Hnd Hin]. split; [exact Hnd|].
      intros n. rewrite Hin. split.
      + intros [H|(d' & H1 & H2)]; [auto | right; exists d'; split; auto; now right].
      + intros [H|(d' & [[=]|H1] & H2)]; [auto | right; eauto]. }
  destruct (H (Package.sections pkg) [] (NoDup_nil_2)) as [Hnd Hin].
  split; [exact Hnd|]. intros n. rewrite Hin. split; [intros [[]|H0]; exact H0 | auto].
Qed.

Lemma countStatus_total (ps : list PackageResult) :
  (countStatus used ps + countStatus unused ps + countStatus uncertain ps = length ps)%nat.
Proof.
  unfold countStatus. induction ps as [|p ps IH]; [reflexivity|].
  cbn [List.filter].
  destruct (status p); repeat (case_bool_decide; try discriminate; try congruence);
    cbn [length]; lia.
Qed.

End WholeScan.

(** * The claims *)

(** ** Package-name normalization *)

(** C7. [normalizePackageName] cuts a specifier at its slashes: when the
    specifier starts with [@] and has at least two segments the result is
    the first two segments joined by a slash, otherwise it is the first
    segment; the listed examples hold, the empty string is mapped to the
    empty string, and the function is idempotent. The segments are those
    of [split]: joined by slashes they give the specifier back and none
    contains a slash. The parser's copy is the same function. *)
Theorem normalizePackageName_spec (x : jsstring) :
  let parts := split c_slash x in
  StringSpec.join c_slash parts = x /\
  Forall (fun p => c_slash ∉ p) parts /\
  (startsWith x [c_at] = true ->
   forall p0 p1 rest, parts = p0 :: p1 :: rest ->
   Scanner.normalizePackageName x = p0 ++ [c_slash] ++ p1) /\
  (forall p0 rest, parts = p0 :: rest ->
   startsWith x [c_at] = false \/ rest = [] ->
   Scanner.normalizePackageName x = p0) /\
  Scanner.normalizePackageName (Scanner.normalizePackageName x)
  = Scanner.normalizePackageName x /\
  Parser.normalizePackageName x = Scanner.normalizePackageName x /\
  Scanner.normalizePackageName (lit "@scope/pkg/sub/path") = lit "@scope/pkg" /\
  Scanner.normalizePackageName (lit "lodash/debounce") = lit "lodash" /\
  Scanner.normalizePackageName (lit "react") = lit "react" /\
  Scanner.normalizePackageName [] = [].
Proof.
  cbv zeta. split; [apply join_split|]. split; [apply split_segments|].
  destruct (normalize_cases x) as [H1 H2].
  split; [exact H1|]. split; [exact H2|]. split; [apply normalize_idem|].
  repeat split; reflexivity.
Qed.

Lemma normalizePackageName_spec_witness :
  Scanner.normalizePackageName (lit "@scope/pkg/sub/path") = lit "@scope" ++ [c_slash] ++ lit "pkg"
  /\ Scanner.normalizePackageName (lit "lodash/debounce") = lit "lodash".
Proof.
  split.
  - destruct (normalizePackageName_spec (lit "@scope/pkg/sub/path")) as (_ & _ & H & _).
    exact (H eq_refl (lit "@scope") (lit "pkg") [lit "sub"; lit "path"] eq_refl).
  - destruct (normalizePackageName_spec (lit "lodash/debounce")) as (_ & _ & _ & H & _).
    exact (H (lit "lodash") [lit "debounce"] eq_refl (or_introl eq_refl)).
Defined.

(** ** Directive detection *)

(** C6. [detectUseClient] of parser.ts is the detector of the contract with
    a window of 20 lines: the first line that is neither blank nor a line
    comment decides, after one trailing semicolon is removed. The 10-line
    [hasUseClient] of scanner.ts is not: it does not remove the semicolon
    (the directive written with one is missed, against its own test) and it
    does not stop at the first substantive line (a directive after code is
    reported). Both keep to their window. *)
Theorem directive_detectors :
  (forall content, Parser.detectUseClient content = DirectiveSpec.detect 20 content) /\
  Parser.detectUseClient (lit "const x = " ++ Scanner.useClientDq ++ [c_semi]) = false /\
  Parser.detectUseClient (Scenario.commentLines 19 ++ Scanner.useClientSq) = true /\
  Parser.detectUseClient (Scenario.commentLines 20 ++ Scanner.useClientSq) = false /\
  Scanner.hasUseClient (Scenario.commentLines 10 ++ Scanner.useClientDq) = false /\
  (let content := Scanner.useClientDq ++ [c_semi; c_nl; c_nl]
                  ++ lit "import React from " ++ [c_dq] ++ lit "react" ++ [c_dq; c_semi] in
   Scanner.hasUseClient content = false /\ DirectiveSpec.detect 10 content = true) /\
  (let content := lit "const a = 1;" ++ [c_nl] ++ Scanner.useClientSq in
   Scanner.hasUseClient content = true /\ DirectiveSpec.detect 10 content = false).
Proof.
  split; [exact detectUseClient_spec|]. repeat split; vm_compute; reflexivity.
Qed.

(** ** Confidence *)

(** C4. [calculateConfidence] is 0 on the empty list; on any other list it
    is the largest base weight among the entries (the table below, 0.5 for
    a tag outside it) plus the boost min((count-1)*0.05, 0.15), capped at 1.
    The result lies in [0,1] and inserting an entry never lowers it. *)
Theorem calculateConfidence_spec :
  (Confidence.calculateConfidence [] == 0
   /\ (forall e, Confidence.scoreOf e = ConfidenceSpec.baseWeight (type e))
   /\ (forall e es, exists top,
         In top (e :: es)
         /\ (forall e', In e' (e :: es) ->
             ConfidenceSpec.baseWeight (type e') <= ConfidenceSpec.baseWeight (type top))
         /\ Confidence.calculateConfidence (e :: es)
            == Qmin (ConfidenceSpec.baseWeight (type top)
                     + Qmin ((inject_Z (Z.of_nat (length (e :: es))) - 1) * (5 # 100))
                            (15 # 100)) 1)
   /\ (forall evidence, 0 <= Confidence.calculateConfidence evidence <= 1)
   /\ (forall l1 l2 e, Confidence.calculateConfidence (l1 ++ l2)
                       <= Confidence.calculateConfidence (l1 ++ e :: l2))
   /\ List.map ConfidenceSpec.baseWeight
        [static_import; export_from; require; type_import; css_import;
         dynamic_import; plugin_reference; config_reference; string_reference;
         unrecognized]
      = [1; 1; 1; 9 # 10; 9 # 10; 8 # 10; 5 # 10; 4 # 10; 3 # 10; 5 # 10])%Q.
Proof.
  split; [reflexivity|]. split; [exact scoreOf_baseWeight|].
  split; [|split; [exact confidence_range|split; [exact confidence_insert|reflexivity]]].
  intros e es.
  destruct (Math_max_attained (List.map Confidence.scoreOf es) (Confidence.scoreOf e))
    as (y & Hy & Ey).
  change (Confidence.scoreOf e :: List.map Confidence.scoreOf es)
    with (List.map Confidence.scoreOf (e :: es)) in Hy.
  apply in_map_iff in Hy as (top & <- & Htop).
  exists top. split; [exact Htop|]. split.
  - intros e' He'. rewrite <- !scoreOf_baseWeight, <- Ey.
    destruct He' as [<-|He']; [apply Math_max_ge_init|].
    apply Math_max_ge. now apply in_map.
  - rewrite calculateConfidence_cons. unfold ConfidenceSpec.boostOf.
    rewrite <- scoreOf_baseWeight, Ey. reflexivity.
Qed.

Lemma calculateConfidence_spec_witness :
  let e := {| file := lit "/test.ts"; line := Some 1%Z; type := string_reference;
              snippet := None |} in
  (ConfidenceSpec.baseWeight (type e) <= 3 # 10
   /\ Confidence.calculateConfidence [e]
      == Qmin ((3 # 10) + Qmin ((inject_Z (Z.of_nat 1) - 1) * (5 # 100)) (15 # 100)) 1)%Q.
Proof.
  intros e. destruct calculateConfidence_spec as (_ & _ & H & _).
  destruct (H e []) as (top & Htop & Hmax & Heq).
  destruct Htop as [<-|[]]. split; [apply (Hmax e); now left | exact Heq].
Defined.

(** C5. With [minUnused <= minUsed], [classifyDependency] answers [used]
    exactly when the confidence reaches [minUsed], [unused] exactly when it
    is below [minUnused], and [uncertain] in between; a confidence equal to
    [minUnused] is not [unused]. *)
Theorem classifyDependency_spec (c minUnused minUsed : Q) :
  (minUnused <= minUsed ->
   (Confidence.classifyDependency c minUnused minUsed = used <-> minUsed <= c)
   /\ (Confidence.classifyDependency c minUnused minUsed = unused <-> c < minUnused)
   /\ (Confidence.classifyDependency c minUnused minUsed = uncertain
       <-> minUnused <= c /\ c < minUsed)
   /\ Confidence.classifyDependency minUnused minUnused minUsed <> unused)%Q.
Proof.
  intros Hle.
  destruct (classify_cases c minUnused minUsed) as (H1 & H2 & H3).
  split; [exact H1|]. split; [|split].
  - rewrite H2. split; [tauto | intros H; split; [lra | exact H]].
  - rewrite H3. tauto.
  - intros H. apply (classify_cases minUnused minUnused minUsed) in H. lra.
Qed.

Lemma classifyDependency_spec_witness :
  Confidence.classifyDependency (75 # 100) (3 # 10) (7 # 10) = used
  /\ Confidence.classifyDependency (7 # 10) (3 # 10) (7 # 10) = used
  /\ Confidence.classifyDependency (29 # 100) (3 # 10) (7 # 10) = unused
  /\ Confidence.classifyDependency (3 # 10) (3 # 10) (7 # 10) = uncertain
  /\ Confidence.classifyDependency (69 # 100) (3 # 10) (7 # 10) = uncertain.
Proof.
  assert (3 # 10 <= 7 # 10)%Q as Hle by q_const.
  split; [|split; [|split; [|split]]].
  - apply (classifyDependency_spec (75 # 100) _ _ Hle). q_const.
  - apply (classifyDependency_spec (7 # 10) _ _ Hle). q_const.
  - apply (classifyDependency_spec (29 # 100) _ _ Hle). q_const.
  - apply (classifyDependency_spec (3 # 10) _ _ Hle). split; q_const.
  - apply (classifyDependency_spec (69 # 100) _ _ Hle). split; q_const.
Defined.

(** ** The prefilter *)

Section PrefilterClaims.
Import RegExp PrefilterSpec.

(** C8. [fastScan] answers with declared names only, each at most once. The
    five pattern sources compile to the five patterns of the contract, in
    which the escaped name is a literal word (it denotes that word and no
    other string, whatever metacharacters it holds). When the file can be
    read, a declared name is in the answer exactly when one of its five
    patterns is found in the content; in particular a quoted occurrence of
    the name is enough. A file that cannot be read gives the empty answer. *)
Theorem fastScan_prefilter (env : Env) (filePath : jsstring) (packageNames : list jsstring) :
  (forall pkg, pkg ∈ Scanner.fastScan env filePath packageNames -> pkg ∈ packageNames)
  /\ NoDup (Scanner.fastScan env filePath packageNames)
  /\ (forall pkg, Scanner.compileAll (Scanner.patternSources pkg) = Some (patternsOf pkg))
  /\ (forall pkg, new_RegExp (Scanner.escapeRegex pkg) = Some (literal pkg))
  /\ (forall pkg w, Matches (literal pkg) w <-> w = pkg)
  /\ (forall content, readFile env filePath = Some content ->
      forall pkg, pkg ∈ Scanner.fastScan env filePath packageNames <->
                  pkg ∈ packageNames
                  /\ exists pattern, pattern ∈ patternsOf pkg /\ Contains pattern content)
  /\ (forall content pkg, readFile env filePath = Some content ->
      pkg ∈ packageNames ->
      (exists pre q1 q2 post,
          content = pre ++ [q1] ++ pkg ++ [q2] ++ post
          /\ StringSpec.isQuote q1 /\ StringSpec.isQuote q2) ->
      pkg ∈ Scanner.fastScan env filePath packageNames)
  /\ (readFile env filePath = None -> Scanner.fastScan env filePath packageNames = []).
Proof.
  assert (forall content, readFile env filePath = Some content ->
          forall pkg, pkg ∈ Scanner.fastScan env filePath packageNames <->
                      pkg ∈ packageNames
                      /\ exists pattern, pattern ∈ patternsOf pkg /\ Contains pattern content)
    as Hchar.
  { intros content Hread pkg. rewrite (fastScan_read env filePath content _ Hread).
    rewrite scan_fold_elem, elem_of_nil, anyPattern_spec. tauto. }
  split; [|split; [|split; [exact compile_patterns|split; [exact escapeRegex_literal|
           split; [exact Matches_literal|split; [exact Hchar|split]]]]]].
  - intros pkg. destruct (readFile env filePath) as [content|] eqn:Hread.
    + rewrite (Hchar content eq_refl). tauto.
    + unfold Scanner.fastScan. rewrite Hread. intros H. now apply elem_of_nil in H.
  - destruct (readFile env filePath) as [content|] eqn:Hread.
    + rewrite (fastScan_read env filePath content _ Hread). apply scan_fold_NoDup, NoDup_nil_2.
    + unfold Scanner.fastScan. rewrite Hread. apply NoDup_nil_2.
  - intros content pkg Hread Hin Hlit. apply (Hchar content Hread). split; [exact Hin|].
    exists (quote ++ literal pkg ++ quote). split.
    + unfold patternsOf. rewrite !elem_of_cons. tauto.
    + now apply bare_literal_contains.
  - intros Hread. unfold Scanner.fastScan. now rewrite Hread.
Qed.

Lemma fastScan_prefilter_witness :
  lit "some-pkg" ∈ Scanner.fastScan Scenario.env Scenario.broken Scenario.names
  /\ Scanner.fastScan Scenario.env Scenario.notes [lit "lodash.fp"] = [].
Proof.
  split; [|vm_compute; reflexivity].
  destruct (fastScan_prefilter Scenario.env Scenario.broken Scenario.names)
    as (_ & _ & _ & _ & _ & _ & H & _).
  apply (H Scenario.brokenSource);
    [reflexivity | apply list_elem_of_In; cbn; tauto |].
  exists (lit "const name = "), c_dq, c_dq, (lit "; {{{").
  split; [reflexivity|]. split; right; reflexivity.
Defined.

End PrefilterClaims.

(** ** The cache *)

Section CacheClaims.

(** C9. [get] gives no entry when caching is disabled, when the cache file
    is missing, unreadable or not valid JSON, when the source file cannot
    be stat'ed, and when the stored modification time differs from the
    current one; it gives an entry only when caching is enabled, that entry
    is the stored one and its modification time equals the current one. It
    is a total function: no path makes it raise. *)
Theorem cache_get_spec (env : Env) (cm : Cache.CacheManager)
    (files : gmap jsstring Cache.CacheFile) (filePath : jsstring) :
  (Cache.enabled cm = false -> Cache.get env cm files filePath = None)
  /\ (files !! filePath = None -> Cache.get env cm files filePath = None)
  /\ (files !! filePath = Some Cache.Corrupt -> Cache.get env cm files filePath = None)
  /\ (stat env filePath = None -> Cache.get env cm files filePath = None)
  /\ (forall cached fileStat,
        files !! filePath = Some (Cache.Stored cached) ->
        stat env filePath = Some fileStat ->
        ~ (mtime cached == mtimeMs fileStat)%Q ->
        Cache.get env cm files filePath = None)
  /\ (forall cached,
        Cache.get env cm files filePath = Some cached <->
        Cache.enabled cm = true
        /\ files !! filePath = Some (Cache.Stored cached)
        /\ exists fileStat, stat env filePath = Some fileStat
                            /\ (mtime cached == mtimeMs fileStat)%Q).
Proof.
  unfold Cache.get. repeat split.
  - now intros ->.
  - intros ->. now destruct (negb (Cache.enabled cm)).
  - intros ->. now destruct (negb (Cache.enabled cm)).
  - intros ->. destruct (negb (Cache.enabled cm)); [reflexivity|].
    destruct (files !! filePath) as [[|c]|]; reflexivity.
  - intros cached fileStat -> -> Hne. destruct (negb (Cache.enabled cm)); [reflexivity|].
    destruct (Qeq_bool (mtime cached) (mtimeMs fileStat)) eqn:E; [|reflexivity].
    apply Qeq_bool_iff in E. contradiction.
  - destruct (Cache.enabled cm); [reflexivity | discriminate].
  - destruct (Cache.enabled cm); [|discriminate]. cbn [negb] in H.
    destruct (files !! filePath) as [[|c]|]; try discriminate.
    destruct (stat env filePath); [|discriminate].
    destruct (Qeq_bool (mtime c) (mtimeMs f)); [|discriminate]. cbn in H. congruence.
  - destruct (Cache.enabled cm); [|discriminate]. cbn [negb] in H.
    destruct (files !! filePath) as [[|c]|]; try discriminate.
    destruct (stat env filePath) as [s|]; [|discriminate].
    destruct (Qeq_bool (mtime c) (mtimeMs s)) eqn:E; [|discriminate]. cbn in H.
    injection H as <-. exists s. split; [reflexivity|]. now apply Qeq_bool_iff.
  - intros (-> & -> & s & -> & E). apply Qeq_bool_iff in E. cbn [negb]. now rewrite E.
Qed.

Lemma cache_get_spec_witness :
  Cache.get Scenario.env Scenario.cache {[ Scenario.page := Cache.Stored Scenario.pageEntry ]}
            Scenario.page = Some Scenario.pageEntry
  /\ Cache.get Scenario.env Scenario.cache {[ Scenario.page := Cache.Corrupt ]}
               Scenario.page = None.
Proof.
  split.
  - destruct (cache_get_spec Scenario.env Scenario.cache
                {[ Scenario.page := Cache.Stored Scenario.pageEntry ]} Scenario.page)
      as (_ & _ & _ & _ & _ & H).
    apply H. split; [reflexivity|]. split; [apply lookup_singleton_eq|].
    exists {| mtimeMs := 1700000000000 # 1; size := 26 |}. split; reflexivity.
  - destruct (cache_get_spec Scenario.env Scenario.cache
                {[ Scenario.page := Cache.Corrupt ]} Scenario.page)
      as (_ & _ & H & _).
    apply H. apply lookup_singleton_eq.
Defined.

End CacheClaims.

(** ** The scan *)

Section ScanClaims.
Import Analyzer ScanSpec.

(** C10. When the manifest cannot be read [runScan] rejects; otherwise it
    returns, and its result has one package per declared name (the names
    of the packages are without repetition and are exactly the keys of the
    four manifest sections), every package has one of the three statuses,
    and the three totals add up to the number of packages. *)
Theorem runScan_results (env : Env) (manifests : Manifests) (options : ScanOptions)
    (files : gmap jsstring Cache.CacheFile) :
  match manifests (cwd options) with
  | None => runScan env manifests options files = None
  | Some pj =>
      exists r files',
        runScan env manifests options files = Some (r, files')
        /\ NoDup (List.map name (packages r))
        /\ (forall n, In n (List.map name (packages r)) <-> ManifestSpec.declared pj n)
        /\ (forall p, In p (packages r) ->
              status p = used \/ status p = unused \/ status p = uncertain)
        /\ (t_used (totals r) + t_unused (totals r) + t_uncertain (totals r)
            = length (packages r))%nat
  end.
Proof.
  rewrite runScan_eq. destruct (manifests (cwd options)) as [pj|]; [|reflexivity].
  cbv zeta. eexists _, _. split; [reflexivity|].
  unfold resultOf. cbn [packages totals t_used t_unused t_uncertain].
  rewrite List.map_map. cbn [buildResult name]. rewrite List.map_id.
  destruct (getAllDependencyNames_spec pj) as [Hnd Hin].
  split; [exact Hnd|]. split; [exact Hin|]. split; [|apply countStatus_total].
  intros p _. destruct (status p); auto.
Qed.

Lemma runScan_results_witness :
  exists r files',
    runScan Scenario.env Scenario.manifests Scenario.options ∅ = Some (r, files')
    /\ NoDup (List.map name (packages r))
    /\ (In (lit "react") (List.map name (packages r)))
    /\ (t_used (totals r) + t_unused (totals r) + t_uncertain (totals r)
        = length (packages r))%nat.
Proof.
  pose proof (runScan_results Scenario.env Scenario.manifests Scenario.options ∅) as H.
  change (Scenario.manifests (cwd Scenario.options)) with (Some Scenario.manifest) in H.
  destruct H as (r & files' & E & Hnd & Hin & _ & Ht).
  exists r, files'. split; [exact E|]. split; [exact Hnd|]. split; [|exact Ht].
  apply Hin. exists [(lit "react", lit "^18.0.0")].
  split; [right; right; right; now left | now left].
Defined.


(** C1. The Stage B fallback does not run on a parse failure: when the
    parser rejects a file that is not served from the cache, [processFile]
    leaves the evidence map as it was, so no [string_reference] entry is
    recorded for any Stage A candidate ([parseFile] swallows the throw and
    answers with no imports; the [catch] of [processFile] is not reached). *)
Theorem parse_failure_records_nothing (env : Env) (cache : Cache.CacheManager)
    (f : jsstring) (names : list jsstring) (st : ScanState) (content : jsstring) :
  hitOf env cache (cacheFiles st) f = None ->
  readFile env f = Some content ->
  parseSync env content (Parser.parseOptions f) = None ->
  evidenceMap (processFile env cache f names st) = evidenceMap st
  /\ forall d, d ∈ Scanner.fastScan env f names ->
       evOf (evidenceMap (processFile env cache f names st)) d = evOf (evidenceMap st) d.
Proof.
  intros Hhit Hread Hparse.
  assert (evidenceMap (processFile env cache f names st) = evidenceMap st) as E.
  { unfold processFile. fold (hitOf env cache (cacheFiles st) f). rewrite Hhit.
    destruct (length (Scanner.fastScan env f names) =? 0)%nat; [reflexivity|].
    rewrite Hread. unfold Parser.parseFile. rewrite Hparse.
    cbn [recordImports fold_left]. now destruct (Scanner.getFileStats env f). }
  split; [exact E|]. intros d _. now rewrite E.
Qed.

Lemma parse_failure_records_nothing_witness :
  lit "some-pkg" ∈ Scanner.fastScan Scenario.env Scenario.broken Scenario.names
  /\ evOf (evidenceMap (processFile Scenario.env Scenario.cache Scenario.broken
                          Scenario.names Scenario.emptyState)) (lit "some-pkg") = []
  /\ Scenario.resultFor (lit "some-pkg") Scenario.firstRun = Some ([], 0%Q, unused).
Proof.
  assert (lit "some-pkg" ∈ Scanner.fastScan Scenario.env Scenario.broken Scenario.names) as Hin
    by (vm_compute; apply list_elem_of_here).
  split; [exact Hin|]. split; [|vm_compute; reflexivity].
  destruct (parse_failure_records_nothing Scenario.env Scenario.cache Scenario.broken
              Scenario.names Scenario.emptyState Scenario.brokenSource
              eq_refl eq_refl eq_refl) as [_ H].
  exact (H _ Hin).
Defined.


(** C2. A cache entry is written although parsing failed: when the parser
    rejects a file that has Stage A candidates, can be stat'ed and is not
    served from the cache, [processFile] stores an entry for it, with an
    empty list of matched names. *)
Theorem parse_failure_writes_cache (env : Env) (cache : Cache.CacheManager)
    (f : jsstring) (names : list jsstring) (st : ScanState) (content : jsstring)
    (s : FileStats) :
  hitOf env cache (cacheFiles st) f = None ->
  Scanner.fastScan env f names <> [] ->
  readFile env f = Some content ->
  parseSync env content (Parser.parseOptions f) = None ->
  stat env f = Some s ->
  Cache.enabled cache = true ->
  canWrite env f = true ->
  cacheFiles (processFile env cache f names st) !! f
  = Some (Cache.Stored {| hash := Cache.createHash env content;
                          mtime := mtimeMs s;
                          imports := [];
                          isClient := Some (Parser.detectUseClient content) |}).
Proof.
  intros Hhit Hcand Hread Hparse Hstat Hen Hw.
  destruct (processFile_spec env cache f names st []) as [_ ->].
  rewrite Hhit. unfold missWrite.
  destruct (Scanner.fastScan env f names) as [|x l]; [contradiction|].
  cbn [length Nat.eqb]. rewrite Hread, Hstat, Hen, Hw. cbn [andb].
  rewrite lookup_insert_eq. unfold Parser.parseFile. rewrite Hparse. reflexivity.
Qed.

Lemma parse_failure_writes_cache_witness :
  cacheFiles (processFile Scenario.env Scenario.cache Scenario.broken Scenario.names
                Scenario.emptyState) !! Scenario.broken
  = Some (Cache.Stored {| hash := lit "digest"; mtime := 1700000360500 # 1;
                          imports := []; isClient := Some false |}).
Proof.
  exact (parse_failure_writes_cache Scenario.env Scenario.cache Scenario.broken
           Scenario.names Scenario.emptyState Scenario.brokenSource
            {| mtimeMs := 1700000360500 # 1; size := 29 |}
           eq_refl ltac:(vm_compute; discriminate) eq_refl eq_refl eq_refl eq_refl eq_refl).
Defined.


(** C3, as amended. After an uncached scan of distinct files, a second scan
    of the unchanged tree returns, leaves the cache directory as the first
    scan left it, and gives package by package the same name, section and
    side; the package has evidence exactly when it had evidence before, its
    confidence is not lower (so a used package stays used and no package
    becomes unused), status and notes are the same whenever [minUsed] is
    at most 0.8 (as by default), and no file contributes more than one
    synthetic cached entry to it. The entries themselves are those of the
    replay, not those of the first scan. *)
Theorem rescan_after_uncached_scan (env : Env) (manifests : Manifests)
    (options : ScanOptions) (r1 : ScanResult) (c1 : gmap jsstring Cache.CacheFile) :
  NoDup (Scanner.findFiles env options) ->
  runScan env manifests options ∅ = Some (r1, c1) ->
  exists r2, runScan env manifests options c1 = Some (r2, c1)
             /\ Forall2 (rescanOf options) (packages r1) (packages r2).
Proof.
  intros Hnd. rewrite !runScan_eq.
  destruct (manifests (cwd options)) as [pj|]; [|discriminate].
  set (cache := cacheOf options).
  set (names := Package.getAllDependencyNames pj).
  set (files := Scanner.findFiles env options) in *.
  cbv zeta. intros [= <- <-].
  destruct (scanFiles_uncached env cache names files (initialState ∅) Hnd)
    as (He1 & Hs1 & Hc1).
  { intros f _. apply lookup_empty. }
  set (st1 := scanFiles env cache names files (initialState ∅)) in *.
  destruct (scanFiles_cached env cache names files (initialState (cacheFiles st1)))
    as (Hc2 & He2 & Hs2).
  { intros f Hf. cbn [cacheFiles initialState]. rewrite Hc1. now rewrite bool_decide_eq_true_2. }
  set (st2 := scanFiles env cache names files (initialState (cacheFiles st1))) in *.
  cbn [cacheFiles initialState] in Hc2. rewrite Hc2. eexists. split; [reflexivity|].
  unfold resultOf. cbn [packages]. apply Forall2_map_same. intros d.
  apply (buildResult_rescan options pj _ _ env cache names files d Hnd).
  - now rewrite He1.
  - now rewrite He2.
  - now rewrite Hs1, Hs2.
Qed.

Lemma rescan_after_uncached_scan_witness :
  exists r1 c1 r2,
    runScan Scenario.env Scenario.manifests Scenario.options ∅ = Some (r1, c1)
    /\ runScan Scenario.env Scenario.manifests Scenario.options c1 = Some (r2, c1)
    /\ Forall2 (rescanOf Scenario.options) (packages r1) (packages r2).
Proof.
  assert (NoDup (Scanner.findFiles Scenario.env Scenario.options)) as Hnd
    by (apply (bool_decide_unpack _); vm_compute; exact I).
  destruct (runScan Scenario.env Scenario.manifests Scenario.options ∅) as [[r1 c1]|] eqn:E.
  - destruct (rescan_after_uncached_scan Scenario.env Scenario.manifests Scenario.options
                r1 c1 Hnd E) as (r2 & H2 & HF).
    exists r1, c1, r2. auto.
  - rewrite runScan_eq in E. discriminate E.
Defined.

(** C3, as stated, fails: the second scan of the scenario replays the
    cached names as synthetic entries. The evidence of [react] loses its
    line and snippet, and the dynamic import of [lodash] comes back as a
    [static_import] with confidence 1 instead of 0.8. *)
Lemma rescan_differs :
  Scenario.summary Scenario.firstRun
  = Some [(lit "react", [static_import], 1, used);
          (lit "lodash", [dynamic_import], 4 # 5, used);
          (lit "some-pkg", [], 0, unused)]%Q
  /\ Scenario.summary Scenario.secondRun
     = Some [(lit "react", [static_import], 1, used);
             (lit "lodash", [static_import], 1, used);
             (lit "some-pkg", [], 0, unused)]%Q
  /\ Scenario.firstEvidence Scenario.firstRun
     = Some [{| file := Scenario.page; line := Some 1%Z; type := static_import;
                snippet := Some Scenario.pageSource |}]
  /\ Scenario.firstEvidence Scenario.secondRun
     = Some [{| file := Scenario.page; line := None; type := static_import;
                snippet := Some (lit "(cached)") |}]
  /\ Scenario.packagesOf Scenario.firstRun <> Scenario.packagesOf Scenario.secondRun.
Proof.
  split; [vm_compute; reflexivity|]. split; [vm_compute; reflexivity|].
  split; [vm_compute; reflexivity|]. split; [vm_compute; reflexivity|].
  vm_compute; discriminate.
Qed.

End ScanClaims.

(** * Further properties of the code *)

(** ** More on strings *)

Section Trimming.

Lemma dropWhile_split (p : N -> bool) (s : jsstring) :
  exists w, s = w ++ dropWhile p s /\ Forall (fun c => p c = true) w.
Proof.
  induction s as [|c s (w & E & Hw)]; cbn [dropWhile].
  - exists []. split; [reflexivity | constructor].
  - destruct (p c) eqn:Hc.
    + exists (c :: w). split; [cbn; now rewrite <- E | now constructor].
    + exists []. split; [reflexivity | constructor].
Qed.

Lemma dropWhile_head (p : N -> bool) (s : jsstring) (c : N) (r : jsstring) :
  dropWhile p s = c :: r -> p c = false.
Proof.
  induction s as [|a s IH]; cbn [dropWhile]; [discriminate|].
  destruct (p a) eqn:Ha; [exact IH|]. now intros [= <- _].
Qed.

Lemma dropWhile_Forall (P : N -> Prop) (p : N -> bool) (s : jsstring) :
  Forall P s -> Forall P (dropWhile p s).
Proof.
  induction 1 as [|c s Hc Hs IH]; cbn [dropWhile]; [constructor|].
  destruct (p c); [exact IH | now constructor].
Qed.

Lemma dropWhile_length (p : N -> bool) (s : jsstring) :
  (length (dropWhile p s) <= length s)%nat.
Proof.
  induction s as [|c s IH]; cbn [dropWhile length]; [lia|].
  destruct (p c); cbn [length]; lia.
Qed.

Lemma trimEnd_prefix (s : jsstring) : exists w, s = trimEnd s ++ w.
Proof.
  unfold trimEnd. destruct (dropWhile_split isWhiteSpace (rev s)) as (w & E & _).
  exists (rev w). rewrite <- rev_app_distr, <- E. now rewrite rev_involutive.
Qed.

Lemma trim_head (s : jsstring) (c : N) (r : jsstring) :
  trim s = c :: r -> isWhiteSpace c = false.
Proof.
  unfold trim. intros E. destruct (trimEnd_prefix (trimStart s)) as (w & Hw).
  rewrite E in Hw. cbn in Hw. unfold trimStart in Hw.
  now apply dropWhile_head in Hw.
Qed.

Lemma trim_parts (s : jsstring) : exists a b, s = a ++ trim s ++ b.
Proof.
  unfold trim. destruct (trimEnd_prefix (trimStart s)) as (w & Hw).
  destruct (dropWhile_split isWhiteSpace s) as (a & E & _).
  exists a, w. fold (trimStart s) in E. now rewrite <- Hw.
Qed.

Lemma split_app (sep : N) (a r : jsstring) :
  split sep (a ++ (sep :: r)) = split sep a ++ split sep r.
Proof.
  induction a as [|c a IH]; cbn [app split].
  - now rewrite N.eqb_refl.
  - destruct (c =? sep); [now rewrite IH|]. rewrite IH.
    destruct (split sep a) as [|p ps] eqn:E; [now apply split_not_nil in E|]. reflexivity.
Qed.

Lemma last_split_app (sep : N) (a r : jsstring) :
  last (split sep (a ++ (sep :: r))) = last (split sep r).
Proof.
  rewrite split_app. destruct (split sep r) as [|p ps] eqn:E; [now apply split_not_nil in E|].
  clear E. revert p. induction ps as [|q ps IH] using rev_ind; intros p.
  - now rewrite last_snoc.
  - rewrite app_comm_cons, app_assoc, !last_snoc. reflexivity.
Qed.

Lemma endsWith_suffix (s p : jsstring) :
  endsWith s p = true <-> exists pre, s = pre ++ p.
Proof.
  unfold endsWith. rewrite startsWith_prefix. split.
  - intros (r & E). exists (rev r). apply (f_equal (@rev N)) in E.
    now rewrite rev_involutive, rev_app_distr, rev_involutive in E.
  - intros (pre & ->). exists (rev pre). apply rev_app_distr.
Qed.

End Trimming.

(** ** Snippets *)

Section Snippets.
Import Analyzer.

Lemma extractSnippet_length (content : jsstring) (line : Z) :
  (length (extractSnippet content line) <= 100)%nat.
Proof.
  unfold extractSnippet.
  destruct ((0 <=? line - 1)%Z && (line - 1 <? Z.of_nat (length (split c_nl content)))%Z).
  - rewrite length_take. lia.
  - cbn. lia.
Qed.

(** X1. The snippet of an evidence entry is empty for a line number outside
    the file; otherwise it is the first 100 code units of the trimmed line.
    It never holds a line feed and never starts with white space. *)
Theorem extractSnippet_spec (content : jsstring) (line : Z) :
  let lines := split c_nl content in
  (((line < 1)%Z \/ (Z.of_nat (length lines) < line)%Z) -> extractSnippet content line = [])
  /\ (forall l, (1 <= line)%Z -> lines !! Z.to_nat (line - 1) = Some l ->
        extractSnippet content line = take 100 (trim l))
  /\ (length (extractSnippet content line) <= 100)%nat
  /\ (c_nl ∉ extractSnippet content line)
  /\ (forall c rest, extractSnippet content line = c :: rest -> isWhiteSpace c = false).
Proof.
  cbv zeta. split; [|split; [|split; [apply extractSnippet_length|]]];
    unfold extractSnippet;
    destruct ((0 <=? line - 1)%Z && (line - 1 <? Z.of_nat (length (split c_nl content)))%Z)
      eqn:Hrange.
  - apply andb_true_iff in Hrange as [H0 H1].
    apply Z.leb_le in H0. apply Z.ltb_lt in H1. lia.
  - reflexivity.
  - intros l _ Hl. unfold at_index. now rewrite Hl.
  - intros l H1 Hl. exfalso. apply lookup_lt_Some in Hl.
    apply andb_false_iff in Hrange as [H|H]; [apply Z.leb_gt in H | apply Z.ltb_ge in H]; lia.
  - apply andb_true_iff in Hrange as [H0 H1].
    apply Z.leb_le in H0. apply Z.ltb_lt in H1.
    destruct (lookup_lt_is_Some_2 (split c_nl content) (Z.to_nat (line - 1)) ltac:(lia))
      as [l Hl].
    unfold at_index. rewrite Hl. cbn [default from_option id]. split.
    + intros Hin.
      assert (c_nl ∈ trim l) as Ht.
      { rewrite <- (take_drop 100 (trim l)). apply elem_of_app. now left. }
      destruct (trim_parts l) as (a & b & E).
      pose proof (split_segments c_nl content) as Hseg.
      rewrite Forall_forall in Hseg. apply (Hseg l).
      * now apply list_elem_of_lookup_2 in Hl.
      * rewrite E. rewrite !elem_of_app. auto.
    + intros c rest E. destruct (trim l) as [|c' r'] eqn:Et; [discriminate E|].
      change (take 100 (c' :: r')) with (c' :: take 99 r') in E.
      injection E as <- _. now apply trim_head in Et.
  - split; [apply not_elem_of_nil | discriminate].
Qed.

Lemma extractSnippet_spec_witness :
  extractSnippet Scenario.pageSource 1 = take 100 (trim Scenario.pageSource)
  /\ extractSnippet Scenario.lazySource 17 = [].
Proof.
  split.
  - destruct (extractSnippet_spec Scenario.pageSource 1) as (_ & H & _).
    apply H; [lia | reflexivity].
  - destruct (extractSnippet_spec Scenario.lazySource 17) as (H & _).
    apply H. right. vm_compute. reflexivity.
Defined.

End Snippets.

(** ** Notes, thresholds and sort order *)

Section Notes.
Import Confidence NotesSpec.
Local Open Scope Q_scope.

Lemma hasType_tagged (t : EvidenceType) (evidence : list EvidenceEntry) :
  hasType t evidence = true <-> tagged t evidence.
Proof.
  unfold hasType, tagged. rewrite Nat.ltb_lt. split.
  - intros H. destruct (List.filter _ evidence) as [|e l] eqn:E; [cbn in H; lia|].
    assert (In e (e :: l)) as Hin by now left.
    rewrite <- E in Hin. apply filter_In in Hin as [Hin Ht].
    apply bool_decide_eq_true in Ht. eauto.
  - intros (e & Hin & Ht).
    assert (In e (List.filter (fun e => bool_decide (type e = t)) evidence)) as H.
    { apply filter_In. split; [exact Hin | now apply bool_decide_eq_true]. }
    destruct (List.filter _ evidence); [destruct H | cbn; lia].
Qed.

Lemma notesOf_spec (b0 b1 b2 b3 b4 b5 : bool) :
  (In configNote (notesOf b0 b1 b2 b3 b4 b5) <-> b0 && b1 = true)
  /\ (In stringNote (notesOf b0 b1 b2 b3 b4 b5) <-> b0 && b2 = true)
  /\ (In pluginNote (notesOf b0 b1 b2 b3 b4 b5) <-> b0 && b3 = true)
  /\ (In emptyNote (notesOf b0 b1 b2 b3 b4 b5) <-> b0 && b4 = true)
  /\ (In peerNote (notesOf b0 b1 b2 b3 b4 b5) <-> b5 = true)
  /\ notesOf b0 b1 b2 b3 b4 b5
     = List.filter (fun note => bool_decide (note ∈ notesOf b0 b1 b2 b3 b4 b5)) allNotes.
Proof.
  destruct b0, b1, b2, b3, b4, b5; vm_compute;
    repeat split; try tauto; try discriminate;
    intros H; repeat destruct H as [H|H]; try discriminate H; try contradiction;
    try reflexivity.
Qed.

(** X2. [generateNotes] gives the three evidence notes and the
    no-evidence note for an uncertain status only, each exactly when the
    evidence holds an entry of its tag (or is empty); the peer-dependency
    note exactly for the peer section; the notes come without repetition in
    the fixed order config, string, plugin, no evidence, peer. *)
Theorem generateNotes_spec (status : DependencyStatus) (evidence : list EvidenceEntry)
    (section : DependencySection) :
  let notes := generateNotes status evidence section in
  (In configNote notes <-> status = uncertain /\ tagged config_reference evidence)
  /\ (In stringNote notes <-> status = uncertain /\ tagged string_reference evidence)
  /\ (In pluginNote notes <-> status = uncertain /\ tagged plugin_reference evidence)
  /\ (In emptyNote notes <-> status = uncertain /\ evidence = [])
  /\ (In peerNote notes <-> section = peerDependencies)
  /\ notes = List.filter (fun note => bool_decide (note ∈ notes)) allNotes.
Proof.
  cbv zeta.
  change (generateNotes status evidence section)
    with (notesOf (bool_decide (status = uncertain))
            (hasType config_reference evidence) (hasType string_reference evidence)
            (hasType plugin_reference evidence) (length evidence =? 0)%nat
            (bool_decide (section = peerDependencies))).
  destruct (notesOf_spec (bool_decide (status = uncertain))
              (hasType config_reference evidence) (hasType string_reference evidence)
              (hasType plugin_reference evidence) (length evidence =? 0)%nat
              (bool_decide (section = peerDependencies)))
    as (H1 & H2 & H3 & H4 & H5 & H6).
  rewrite H1, H2, H3, H4, H5, !andb_true_iff, !bool_decide_eq_true, !hasType_tagged,
    Nat.eqb_eq, length_zero_iff_nil.
  repeat (split; [reflexivity|]). exact H6.
Qed.

(** X3. When [minUsed <= minUnused] (the thresholds equal or inverted)
    [classifyDependency] never answers uncertain: it answers used from
    [minUsed] on and unused below. *)
Theorem classifyDependency_inverted (c minUnused minUsed : Q) :
  minUsed <= minUnused ->
  classifyDependency c minUnused minUsed <> uncertain
  /\ (classifyDependency c minUnused minUsed = used <-> minUsed <= c)
  /\ (classifyDependency c minUnused minUsed = unused <-> c < minUsed).
Proof.
  intros Hle. destruct (classify_cases c minUnused minUsed) as (H1 & H2 & H3).
  split; [|split].
  - intros H. apply H3 in H. lra.
  - exact H1.
  - rewrite H2. split; [tauto | intros H; split; [exact H | lra]].
Qed.

Lemma classifyDependency_inverted_witness :
  classifyDependency (49 # 100) (7 # 10) (5 # 10) = unused
  /\ classifyDependency (5 # 10) (7 # 10) (5 # 10) = used.
Proof.
  assert (5 # 10 <= 7 # 10) as Hle by q_const.
  split.
  - apply (classifyDependency_inverted (49 # 100) _ _ Hle). q_const.
  - apply (classifyDependency_inverted (5 # 10) _ _ Hle). q_const.
Defined.

Lemma getSortPriority_antitone (c1 c2 minUnused minUsed : Q) :
  c1 <= c2 ->
  (getSortPriority (classifyDependency c2 minUnused minUsed)
   <= getSortPriority (classifyDependency c1 minUnused minUsed))%Z.
Proof.
  intros Hle.
  destruct (classifyDependency c1 minUnused minUsed) eqn:E1;
    destruct (classifyDependency c2 minUnused minUsed) eqn:E2;
    cbn; try lia; exfalso;
    apply classify_cases in E1; apply classify_cases in E2; lra.
Qed.

(** X4. The sort priority follows the confidence: whatever the thresholds,
    a confidence that is not lower is not sorted later by
    [getSortPriority]; the priority of the report table is the reverse
    one, and both tell the three statuses apart. *)
Theorem sort_priority_follows_confidence (c1 c2 minUnused minUsed : Q) :
  c1 <= c2 ->
  (getSortPriority (classifyDependency c2 minUnused minUsed)
   <= getSortPriority (classifyDependency c1 minUnused minUsed))%Z
  /\ (forall s, Output.getStatusPriority s = 2 - getSortPriority s)%Z
  /\ (forall s s', getSortPriority s = getSortPriority s' -> s = s').
Proof.
  intros Hle. split; [now apply getSortPriority_antitone|]. split.
  - now intros [].
  - intros [] []; cbn; intros H; try reflexivity; discriminate H.
Qed.

Lemma sort_priority_follows_confidence_witness :
  (getSortPriority (classifyDependency (8 # 10) (3 # 10) (7 # 10))
   <= getSortPriority (classifyDependency (4 # 10) (3 # 10) (7 # 10)))%Z.
Proof.
  apply (sort_priority_follows_confidence (4 # 10) (8 # 10)). q_const.
Defined.

End Notes.

(** ** The manifest *)

Section Manifest.
Import Package PackageSpec.

Lemma In_extractDependencies (pkg : PackageJson) (n v : jsstring) (s : DependencySection) :
  In (entryOf n v s) (extractDependencies pkg)
  <-> exists deps, sectionOf pkg s = Some deps /\ In (n, v) deps.
Proof.
  unfold extractDependencies. rewrite in_flat_map. split.
  - intros (s' & _ & H). destruct (sectionOf pkg s') as [deps|] eqn:E; [|destruct H].
    apply in_map_iff in H as ([n' v'] & [= <- <- <-] & Hin). eauto.
  - intros (deps & E & Hin). exists s. split; [destruct s; cbn; tauto|].
    rewrite E. apply in_map_iff. exists (n, v). auto.
Qed.

Lemma declared_sectionOf (pkg : PackageJson) (n : jsstring) :
  ManifestSpec.declared pkg n
  <-> exists s deps, sectionOf pkg s = Some deps /\ In n (List.map fst deps).
Proof.
  unfold ManifestSpec.declared, sections. split.
  - intros (d & Hd & Hn). cbn [In] in Hd.
    destruct Hd as [Hd|[Hd|[Hd|[Hd|[]]]]];
      [exists dependencies | exists devDependencies | exists optionalDependencies
       | exists peerDependencies]; exists d; auto.
  - intros (s & d & Hs & Hn). exists d. split; [|exact Hn].
    destruct s; cbn [sectionOf] in Hs; rewrite Hs; cbn; tauto.
Qed.

Lemma extractDependencies_names (pkg : PackageJson) (n : jsstring) :
  In n (List.map di_name (extractDependencies pkg)) <-> In n (getAllDependencyNames pkg).
Proof.
  destruct (getAllDependencyNames_spec pkg) as [_ ->].
  rewrite declared_sectionOf, in_map_iff. split.
  - intros ([n' v s] & <- & H). apply (In_extractDependencies pkg n' v s) in H
      as (deps & E & Hin).
    exists s, deps. split; [exact E|]. apply in_map_iff. exists (n', v). auto.
  - intros (s & deps & E & Hin). apply in_map_iff in Hin as ([n' v] & <- & Hin).
    exists (entryOf n' v s). split; [reflexivity|].
    apply In_extractDependencies. eauto.
Qed.

(** X5. [extractDependencies] lists every key of every section with its
    version and section, one entry per key and section; the names of its
    entries are the names [getAllDependencyNames] gives, which it lists
    once each. *)
Theorem extractDependencies_spec (pkg : PackageJson) :
  (forall n v s, In (entryOf n v s) (extractDependencies pkg)
                 <-> exists deps, sectionOf pkg s = Some deps /\ In (n, v) deps)
  /\ (forall n, In n (List.map di_name (extractDependencies pkg))
                <-> In n (getAllDependencyNames pkg))
  /\ length (extractDependencies pkg)
     = list_sum (List.map (fun s => length (default [] (sectionOf pkg s))) DEPENDENCY_SECTIONS)
  /\ (length (getAllDependencyNames pkg) <= length (extractDependencies pkg))%nat.
Proof.
  split; [exact (In_extractDependencies pkg)|].
  split; [exact (extractDependencies_names pkg)|]. split.
  - unfold extractDependencies, DEPENDENCY_SECTIONS. cbn [flat_map List.map list_sum].
    rewrite !length_app.
    destruct (sectionOf pkg dependencies), (sectionOf pkg devDependencies),
      (sectionOf pkg optionalDependencies), (sectionOf pkg peerDependencies);
      cbn [default from_option id length]; rewrite ?length_map;
      unfold list_sum; cbn [fold_right]; lia.
  - rewrite <- (length_map di_name (extractDependencies pkg)).
    apply NoDup_incl_length.
    + apply NoDup_ListNoDup. apply getAllDependencyNames_spec.
    + intros n Hn. now apply extractDependencies_names.
Qed.







End Manifest.

(** ** Package names *)

Section PackageNames.
Import Package PackageSpec.

Lemma isNameChar_facts (c : N) :
  isNameChar c = true -> c <> c_slash /\ c <> c_at.
Proof.
  unfold isNameChar, c_slash, c_at.
  rewrite !orb_true_iff, !andb_true_iff, !N.leb_le, !N.eqb_eq. lia.
Qed.

Lemma isNameStart_facts (c : N) :
  isNameStart c = true -> isNameChar c = true /\ c <> 46 /\ c <> 95.
Proof.
  unfold isNameStart, isNameChar.
  rewrite !orb_true_iff, !andb_true_iff, !N.leb_le, !N.eqb_eq. lia.
Qed.

Lemma isNamePart_chars (s : jsstring) :
  isNamePart s = true -> s <> [] /\ Forall (fun c => isNameChar c = true) s.
Proof.
  destruct s as [|c r]; [discriminate|]. cbn [isNamePart].
  rewrite andb_true_iff, forallb_forall. intros [Hc Hr]. split; [discriminate|].
  constructor; [now apply isNameStart_facts|]. apply Forall_forall.
  intros x Hx. apply Hr. now apply list_elem_of_In.
Qed.

Lemma isNamePart_no_slash (s : jsstring) : isNamePart s = true -> c_slash ∉ s.
Proof.
  intros H Hin. apply isNamePart_chars in H as [_ H].
  rewrite Forall_forall in H. apply H in Hin. now apply isNameChar_facts in Hin.
Qed.

Lemma pattern_test_spec (s : jsstring) :
  SCOPED_PACKAGE_PATTERN_test s = true <-> isNamePart s = true \/ scopedName s.
Proof.
  unfold SCOPED_PACKAGE_PATTERN_test, scopedName. rewrite orb_true_iff.
  split; (intros [H|H]; [now left|right]).
  - destruct s as [|c r]; [discriminate|].
    apply andb_true_iff in H as [Hc H]. apply N.eqb_eq in Hc as ->.
    apply existsb_exists in H as (i & _ & H).
    apply andb_true_iff in H as [H Hp]. apply andb_true_iff in H as [Hs Hsl].
    apply eqs_true in Hsl. exists (take i r), (drop (S i) r).
    split; [|auto]. cbn [app]. f_equal.
    rewrite <- (take_drop i r) at 1. f_equal.
    destruct (drop i r) as [|x t] eqn:E; [discriminate|].
    cbn in Hsl. injection Hsl as ->.
    change (S i) with (1 + i)%nat. rewrite <- skipn_skipn, E. reflexivity.
  - destruct H as (scope & pkg & -> & Hs & Hp). cbn [app].
    rewrite N.eqb_refl. cbn [andb]. apply existsb_exists.
    exists (length scope). split.
    + apply in_seq. rewrite length_app. cbn. lia.
    + rewrite take_app_length. change (S (length scope)) with (1 + length scope)%nat.
      rewrite <- skipn_skipn, drop_app_length. cbn [drop take].
      rewrite take_0, drop_0, Hs, Hp. cbn [andb]. rewrite andb_true_r.
      apply eqs_true. reflexivity.
Qed.

(** X7. [isValidPackageName] accepts exactly the names of at most 214 code
    units that are a name part (a lower-case letter, digit, dash or tilde,
    then such characters, dots and underscores) or an [@], a name part, a
    slash and a name part. The separate test for a leading dot or
    underscore rejects nothing the pattern would accept. *)
Theorem isValidPackageName_spec (name : jsstring) :
  isValidPackageName name = true <->
  (length name <= 214)%nat /\ (isNamePart name = true \/ scopedName name).
Proof.
  unfold isValidPackageName, MAX_PACKAGE_NAME_LENGTH. rewrite <- pattern_test_spec.
  destruct (length name =? 0)%nat eqn:E0.
  - apply Nat.eqb_eq in E0. apply length_zero_iff_nil in E0 as ->. cbn.
    split; [discriminate | intros [_ H]; discriminate].
  - cbn [orb]. destruct (214 <? length name)%nat eqn:E1.
    + apply Nat.ltb_lt in E1. split; [discriminate | intros [H _]; lia].
    + apply Nat.ltb_ge in E1.
      destruct (startsWith name (lit ".") || startsWith name (lit "_")) eqn:Ed.
      * split; [discriminate|]. intros [_ H]. exfalso.
        apply pattern_test_spec in H.
        apply orb_true_iff in Ed.
        destruct H as [H|(scope & pkg & -> & _)].
        -- destruct name as [|c r]; [discriminate|]. cbn [isNamePart] in H.
           apply andb_true_iff in H as [H _]. apply isNameStart_facts in H as (_ & H1 & H2).
           destruct Ed as [Ed|Ed]; apply startsWith_prefix in Ed as [r0 Er];
             injection Er as -> _; [now apply H1 | now apply H2].
        -- destruct Ed as [Ed|Ed]; apply startsWith_prefix in Ed as [r0 Er];
             discriminate Er.
      * tauto.
Qed.

Lemma isValidPackageName_spec_witness :
  isValidPackageName (lit "node_modules") = true
  /\ isValidPackageName (lit "@types/react") = true.
Proof.
  split.
  - apply (isValidPackageName_spec (lit "node_modules")).
    split; [cbn; lia|]. left. vm_compute. reflexivity.
  - apply (isValidPackageName_spec (lit "@types/react")).
    split; [cbn; lia|]. right. exists (lit "types"), (lit "react").
    repeat split; vm_compute; reflexivity.
Defined.

(** X8. A name [isValidPackageName] accepts is left unchanged by both
    copies of [normalizePackageName]: a dependency declared under a valid
    name is found under that very name by the import walk. Such a name is
    not empty and is made of name characters, [@] and [/] only. *)
Theorem valid_name_normalized (name : jsstring) :
  isValidPackageName name = true ->
  Scanner.normalizePackageName name = name
  /\ Parser.normalizePackageName name = name
  /\ name <> []
  /\ Forall (fun c => isNameChar c = true \/ c = c_at \/ c = c_slash) name.
Proof.
  intros H. unfold isValidPackageName in H.
  destruct ((length name =? 0)%nat || (MAX_PACKAGE_NAME_LENGTH <? length name)%nat);
    [discriminate H|].
  destruct (startsWith name (lit ".") || startsWith name (lit "_")); [discriminate H|].
  apply pattern_test_spec in H.
  assert (Scanner.normalizePackageName name = name) as Hfix.
  { destruct (normalize_cases name) as [Hsc Hun].
    destruct H as [H|(scope & pkg & -> & Hs & Hp)].
    - apply (Hun name []); [|now right]. now apply split_no_sep, isNamePart_no_slash.
    - apply isNamePart_no_slash in Hs, Hp.
      apply (Hsc eq_refl ([c_at] ++ scope) pkg []).
      change ([c_at] ++ scope ++ [c_slash] ++ pkg) with (([c_at] ++ scope) ++ (c_slash :: pkg)).
      rewrite split_app_sep.
      + now rewrite (split_no_sep c_slash pkg Hp).
      + cbn [app]. rewrite not_elem_of_cons. split; [discriminate | exact Hs]. }
  split; [exact Hfix|]. split; [exact Hfix|].
  destruct H as [H|(scope & pkg & -> & Hs & Hp)].
  - apply isNamePart_chars in H as [Hne H]. split; [exact Hne|].
    eapply Forall_impl; [exact H|]. cbn. auto.
  - split; [discriminate|].
    apply isNamePart_chars in Hs as [_ Hs]. apply isNamePart_chars in Hp as [_ Hp].
    cbn [app]. constructor; [auto|]. apply Forall_app. split.
    + eapply Forall_impl; [exact Hs|]. cbn. auto.
    + constructor; [auto|]. eapply Forall_impl; [exact Hp|]. cbn. auto.
Qed.

Lemma valid_name_normalized_witness :
  Scanner.normalizePackageName (lit "@radix-ui/react-button") = lit "@radix-ui/react-button"
  /\ Scanner.normalizePackageName (lit "my_package") = lit "my_package".
Proof.
  split.
  - apply (valid_name_normalized (lit "@radix-ui/react-button")). vm_compute. reflexivity.
  - apply (valid_name_normalized (lit "my_package")). vm_compute. reflexivity.
Defined.

End PackageNames.

(** ** Cache file names *)

Section CacheNames.
Import Cache PathSpec.

(** X9. The name [getCacheFilePath] gives a cache file: its readable part
    holds none of the reserved characters and at most 50 code units, and
    does not start with a dot when the path has at most 50 code units; a
    short path of safe characters is kept as it is. With a hexadecimal
    digest the whole name holds no reserved character, a slash in
    particular, so the file lies directly in the cache directory; the name
    ends in [.json] and has at most 72 code units. *)
Theorem cacheFileName_safe (env : Env) (filePath : jsstring) :
  Forall safeUnit (safeName filePath)
  /\ (length (safeName filePath) <= 50)%nat
  /\ ((length filePath <= 50)%nat ->
      forall c r, safeName filePath = c :: r -> c <> 46)
  /\ (Forall safeUnit filePath -> (length filePath <= 50)%nat ->
      (forall r, filePath <> 46 :: r) -> safeName filePath = filePath)
  /\ (Forall safeUnit (sha256 env filePath) ->
      Forall safeUnit (cacheFileName env filePath)
      /\ c_slash ∉ cacheFileName env filePath)
  /\ (length (cacheFileName env filePath) <= 72)%nat
  /\ endsWith (cacheFileName env filePath) (lit ".json") = true.
Proof.
  set (sanitized := List.map (fun c => if isUnsafe c then 95 else c) filePath).
  assert (Forall safeUnit sanitized) as Hsan.
  { apply Forall_forall. intros c Hc. apply list_elem_of_In, in_map_iff in Hc as (x & <- & _).
    unfold safeUnit. destruct (isUnsafe x) eqn:E; [reflexivity | exact E]. }
  assert (Forall safeUnit (safeName filePath)) as Hsafe.
  { unfold safeName, sliceLast. apply Forall_drop, dropWhile_Forall, Hsan. }
  assert (length (safeName filePath) <= 50)%nat as Hlen.
  { unfold safeName, sliceLast. rewrite length_drop. lia. }
  split; [exact Hsafe|]. split; [exact Hlen|]. split; [|split; [|split; [|split]]].
  - intros Hshort c r E. unfold safeName, sliceLast in E. fold sanitized in E.
    pose proof (dropWhile_length (fun c => c =? 46) sanitized) as Hd.
    assert (length sanitized = length filePath) as Hl by apply length_map.
    set (stripped := dropWhile (fun c => c =? 46) sanitized) in *.
    replace (length stripped - 50)%nat with 0%nat in E by lia.
    rewrite drop_0 in E. unfold stripped in E.
    apply dropWhile_head in E. now apply N.eqb_neq in E.
  - intros Hall Hshort Hdot. unfold safeName, sliceLast. fold sanitized.
    assert (sanitized = filePath) as ->.
    { unfold sanitized. clear -Hall. induction Hall as [|c s Hc Hs IH]; [reflexivity|].
      cbn [List.map]. unfold safeUnit in Hc. now rewrite Hc, IH. }
    assert (dropWhile (fun c => c =? 46) filePath = filePath) as ->.
    { destruct filePath as [|c r]; [reflexivity|]. cbn [dropWhile].
      destruct (c =? 46) eqn:E; [|reflexivity].
      apply N.eqb_eq in E as ->. now destruct (Hdot r). }
    replace (length filePath - 50)%nat with 0%nat by lia. apply drop_0.
  - intros Hhash.
    assert (Forall safeUnit (cacheFileName env filePath)) as Hall.
    { unfold cacheFileName, createHash. repeat apply Forall_app_2.
      - now apply Forall_take.
      - repeat constructor.
      - exact Hsafe.
      - repeat constructor. }
    split; [exact Hall|]. intros Hin. rewrite Forall_forall in Hall.
    now apply Hall in Hin.
  - unfold cacheFileName. rewrite !length_app, length_take.
    change (length (lit "_")) with 1%nat. change (length (lit ".json")) with 5%nat. lia.
  - unfold cacheFileName, endsWith.
    rewrite !app_assoc, rev_app_distr. apply startsWith_app.
Qed.

Lemma cacheFileName_safe_witness :
  safeName (lit "page.tsx") = lit "page.tsx"
  /\ c_slash ∉ cacheFileName Scenario.env Scenario.page.
Proof.
  split.
  - destruct (cacheFileName_safe Scenario.env (lit "page.tsx")) as (_ & _ & _ & H & _).
    apply H; [|cbn; lia|intros r; discriminate].
    apply (bool_decide_unpack _). vm_compute. exact I.
  - destruct (cacheFileName_safe Scenario.env Scenario.page) as (_ & _ & _ & _ & H & _).
    apply H. apply (bool_decide_unpack _). vm_compute. exact I.
Defined.

End CacheNames.

(** ** Configuration files *)

Section ConfigFiles.
Import Scanner RegExp PathSpec.

Lemma basenameOf_join (dir base : jsstring) :
  c_slash ∉ base -> basenameOf (dir ++ [c_slash] ++ base) = base.
Proof.
  intros H. unfold basenameOf. cbn [app]. rewrite last_split_app.
  now rewrite (split_no_sep c_slash base H).
Qed.

Lemma basenameOf_plain (filePath : jsstring) :
  c_slash ∉ filePath -> basenameOf filePath = filePath.
Proof. intros H. unfold basenameOf. now rewrite (split_no_sep c_slash filePath H). Qed.

Lemma testSource_literal (source w s : jsstring) :
  new_RegExp source = Some (literal w) ->
  (testSource source s = true <-> includes s w).
Proof.
  intros E. unfold testSource, includes. rewrite E, test_spec. split.
  - intros (pre & x & post & -> & H). apply Matches_literal in H as ->. eauto.
  - intros (pre & post & ->). exists pre, w, post. split; [reflexivity|].
    now apply Matches_literal.
Qed.

Lemma configPatterns_compile :
  Forall2 (fun source w => new_RegExp source = Some (literal w))
          configPatternSources configNames.
Proof. repeat constructor. Qed.

Lemma existsb_testSource (s : jsstring) (sources names : list jsstring) :
  Forall2 (fun source w => new_RegExp source = Some (literal w)) sources names ->
  (existsb (fun source => testSource source s) sources = true
   <-> exists w, In w names /\ includes s w).
Proof.
  induction 1 as [|source w sources names E _ IH]; cbn [existsb In].
  - split; [discriminate | intros (w & [] & _)].
  - rewrite orb_true_iff, IH, (testSource_literal source w s E). split.
    + intros [H|(w' & Hin & H)]; eauto.
    + intros (w' & [<-|Hin] & H); eauto.
Qed.

(** X10. [isConfigFile] looks at the last segment of the path only. It
    answers true exactly when that segment holds one of the eleven
    configuration names anywhere, or ends with [tsconfig.json], or is one
    of [middleware.ts], [middleware.js], [instrumentation.ts],
    [instrumentation.js]; a path that ends with a slash is no
    configuration file. *)
Theorem isConfigFile_spec (filePath : jsstring) :
  (isConfigFile filePath = true <->
     (exists w, In w configNames /\ includes (basenameOf filePath) w)
     \/ (exists pre, basenameOf filePath = pre ++ lit "tsconfig.json")
     \/ In (basenameOf filePath) entryPointNames)
  /\ (forall dir base, c_slash ∉ base ->
        basenameOf (dir ++ [c_slash] ++ base) = base
        /\ isConfigFile (dir ++ [c_slash] ++ base) = isConfigFile base)
  /\ isConfigFile (filePath ++ [c_slash]) = false.
Proof.
  split; [|split].
  - unfold isConfigFile. cbv zeta.
    rewrite !orb_true_iff, (existsb_testSource _ _ _ configPatterns_compile),
      endsWith_suffix, !eqs_true.
    unfold entryPointNames. cbn [List.map In]. intuition (subst; auto).
  - intros dir base H. split; [now apply basenameOf_join|].
    unfold isConfigFile. now rewrite basenameOf_join, basenameOf_plain.
  - unfold isConfigFile.
    assert (basenameOf (filePath ++ [c_slash]) = []) as ->; [|vm_compute; reflexivity].
    unfold basenameOf. now rewrite last_split_app.
Qed.

Lemma isConfigFile_spec_witness :
  isConfigFile (lit "/project/apps/web" ++ [c_slash] ++ lit "my.tsconfig.json") = true
  /\ isConfigFile (lit "/project" ++ [c_slash] ++ lit "middleware.tsx") = false.
Proof.
  split.
  - destruct (isConfigFile_spec (lit "my.tsconfig.json")) as (H & _).
    destruct (isConfigFile_spec []) as (_ & Hdir & _).
    destruct (Hdir (lit "/project/apps/web") (lit "my.tsconfig.json")) as [_ ->].
    + apply (bool_decide_unpack _). vm_compute. exact I.
    + apply H. right. left. exists (lit "my."). reflexivity.
  - destruct (isConfigFile_spec []) as (_ & Hdir & _).
    destruct (Hdir (lit "/project") (lit "middleware.tsx")) as [_ ->].
    + apply (bool_decide_unpack _). vm_compute. exact I.
    + vm_compute. reflexivity.
Defined.

End ConfigFiles.

(** ** The syntax walk *)

Section Walk.
Import Parser ScanSpec.

(** A relation on the array of imports that is reflexive, transitive and
    respected by the head of the walk is respected by the whole walk. *)
Variable R : list ParsedImport -> list ParsedImport -> Prop.
Hypothesis R_refl : forall imports, R imports imports.
Hypothesis R_trans : forall a b c, R a b -> R b c -> R a c.
Hypothesis R_visit : forall node imports, R imports (importsOf (visitNode node imports)).

Lemma andThen_rel (imports : list ParsedImport) (o : outcome)
    (k : list ParsedImport -> outcome) :
  R imports (importsOf o) ->
  (forall imports', R imports' (importsOf (k imports'))) ->
  R imports (importsOf (andThen o k)).
Proof.
  intros Ho Hk. destruct o as [i|i]; cbn [andThen importsOf] in *; [|exact Ho].
  eapply R_trans; [exact Ho | apply Hk].
Qed.

Lemma each_rel (children : list JsVal) :
  Forall (fun child => forall imports,
            R imports (importsOf (extractImportsFromAST child imports))) children ->
  forall imports,
    R imports
      (importsOf
         ((fix each (children : list JsVal) (imports : list ParsedImport) : outcome :=
             match children with
             | [] => Done imports
             | child :: rest => andThen (extractImportsFromAST child imports) (each rest)
             end) children imports)).
Proof.
  induction 1 as [|child cs Hc _ IHcs]; intros imports; [apply R_refl|].
  apply andThen_rel; [apply Hc | exact IHcs].
Qed.

Lemma extractImportsFromAST_rel :
  forall (node : JsVal) (imports : list ParsedImport),
    R imports (importsOf (extractImportsFromAST node imports)).
Proof.
  fix IH 1. intros node imports.
  assert (forall value, (forall imports,
                           R imports (importsOf (extractImportsFromAST value imports))) ->
          (match value with
           | VArr children =>
               Forall (fun child => forall imports,
                         R imports (importsOf (extractImportsFromAST child imports))) children
           | _ => True
           end) ->
          forall imports,
            R imports
              (importsOf
                 match value with
                 | VArr children =>
                     (fix each (children : list JsVal) (imports : list ParsedImport)
                        : outcome :=
                        match children with
                        | [] => Done imports
                        | child :: rest =>
                            andThen (extractImportsFromAST child imports) (each rest)
                        end) children imports
                 | VObj _ => extractImportsFromAST value imports
                 | _ => Done imports
                 end)) as Hdescend.
  { intros value Hv Hch imps.
    destruct value; cbn [importsOf]; try apply R_refl;
      [now apply each_rel | now apply Hv]. }
  destruct node as [| | | | |xs|fields];
    cbn [extractImportsFromAST importsOf]; try apply R_refl.
  - revert imports. induction xs as [|value rest IHrest]; intros imports;
      [apply R_refl|].
    apply andThen_rel; [|exact IHrest].
    apply Hdescend; [exact (IH value) | ].
    destruct value as [| | | | |children|fs]; try exact I.
    induction children as [|child cs IHcs]; constructor; [exact (IH child) | exact IHcs].
  - apply andThen_rel; [apply R_visit|]. clear imports.
    induction fields as [|[key value] rest IHrest]; intros imports; [apply R_refl|].
    destruct (eqs key (lit "span") || eqs key (lit "parent")); [now apply IHrest|].
    apply andThen_rel; [|exact IHrest].
    apply Hdescend; [exact (IH value) | ].
    destruct value as [| | | | |children|fs]; try exact I.
    induction children as [|child cs IHcs]; constructor; [exact (IH child) | exact IHcs].
Qed.

End Walk.

Section WalkFacts.
Import Parser ScanSpec WalkSpec.

Lemma extends_refl (a : list ParsedImport) : extends a a.
Proof. exists []. split; [now rewrite app_nil_r | constructor]. Qed.

Lemma extends_trans (a b c : list ParsedImport) : extends a b -> extends b c -> extends a c.
Proof.
  intros (l1 & -> & H1) (l2 & -> & H2). exists (l1 ++ l2).
  split; [now rewrite app_assoc | now apply Forall_app_2].
Qed.

Lemma pushImport_extends (imports : list ParsedImport) (v : JsVal) (t : EvidenceType)
    (node : JsVal) (typeOnly : option bool) :
  (t = type_import /\ typeOnly = Some true) \/ (t = static_import /\ typeOnly = Some false)
  \/ ((t = export_from \/ t = dynamic_import \/ t = require) /\ typeOnly = None) ->
  extends imports (importsOf (pushImport imports v t node typeOnly)).
Proof.
  intros Ht. unfold pushImport. destruct v; cbn [importsOf]; try apply extends_refl.
  eexists. split; [reflexivity|]. constructor; [|constructor].
  unfold wellFormed, parsedType. cbn [packageName imp_type isTypeOnly].
  split; [apply normalize_idem|].
  destruct Ht as [[-> ->]|[[-> ->]|[[-> | [-> | ->]] ->]]];
    (split; [tauto|]); repeat split; try tauto; try discriminate;
    intros H; try discriminate H; try reflexivity;
    destruct H as [H|[H|H]]; discriminate H.
Qed.

Lemma visitNode_extends (node : JsVal) (imports : list ParsedImport) :
  extends imports (importsOf (visitNode node imports)).
Proof.
  unfold visitNode. cbv zeta.
  repeat (apply (andThen_rel extends extends_trans); [|clear imports; intros imports]);
    repeat match goal with
           | |- context [if ?b then _ else _] => destruct b
           end;
    try apply extends_refl; apply pushImport_extends; tauto.
Qed.

(** X11. Every import [parseFile] returns carries a normalized package
    name (a fixed point of [normalizePackageName]) and one of the five tags
    static_import, type_import, export_from, dynamic_import, require;
    [isTypeOnly] is set on import declarations only, true exactly for
    type_import. When the parser throws the result is empty. The walk only
    appends to the array it is given. *)
Theorem parseFile_wellFormed (env : Env) (content filePath : jsstring) :
  Forall wellFormed (parseFile env content filePath)
  /\ (parseSync env content (parseOptions filePath) = None ->
      parseFile env content filePath = [])
  /\ (forall node imports,
        exists l, importsOf (extractImportsFromAST node imports) = imports ++ l
                  /\ Forall wellFormed l).
Proof.
  pose proof (extractImportsFromAST_rel extends extends_refl extends_trans visitNode_extends)
    as Hwalk.
  split; [|split].
  - unfold parseFile.
    destruct (parseSync env content (parseOptions filePath)) as [ast|]; [|constructor].
    destruct (Hwalk ast []) as (l & E & Hl). cbn [app] in E.
    destruct (extractImportsFromAST ast []); cbn [importsOf] in E; now subst.
  - intros E. unfold parseFile. now rewrite E.
  - exact Hwalk.
Qed.

Lemma parseFile_wellFormed_witness :
  parseFile Scenario.env Scenario.brokenSource Scenario.broken = []
  /\ Forall wellFormed (parseFile Scenario.env Scenario.pageSource Scenario.page).
Proof.
  split.
  - destruct (parseFile_wellFormed Scenario.env Scenario.brokenSource Scenario.broken)
      as (_ & H & _).
    apply H. reflexivity.
  - apply (parseFile_wellFormed Scenario.env Scenario.pageSource Scenario.page).
Defined.

End WalkFacts.

(** ** The cache and single files *)

Section CacheAndFiles.
Import Analyzer ScanSpec.

(** X12. What [set] stores for a file, [get] returns for it as long as
    the file's modification time is the stored one, and never otherwise;
    the entries of other files are not affected; a disabled cache or a
    failed write leaves the directory as it was; a second [set] for the
    same file replaces the first. *)
Theorem cache_set_get (env : Env) (cm : Cache.CacheManager)
    (files : gmap jsstring Cache.CacheFile) (f : jsstring) (entry : CacheEntry) :
  (Cache.enabled cm = true -> canWrite env f = true ->
   forall s, stat env f = Some s ->
     (Cache.get env cm (Cache.set env cm files f entry) f = Some entry
      <-> (mtime entry == mtimeMs s)%Q))
  /\ (forall g, g <> f ->
        Cache.get env cm (Cache.set env cm files f entry) g = Cache.get env cm files g)
  /\ (Cache.enabled cm = false \/ canWrite env f = false ->
      Cache.set env cm files f entry = files)
  /\ (forall entry', Cache.set env cm (Cache.set env cm files f entry) f entry'
                     = Cache.set env cm files f entry').
Proof.
  unfold Cache.get, Cache.set. split; [|split; [|split]].
  - intros -> -> s ->. cbn [negb]. rewrite lookup_insert_eq.
    destruct (Qeq_bool (mtime entry) (mtimeMs s)) eqn:E; cbn [negb].
    + apply Qeq_bool_iff in E. tauto.
    + split; [discriminate|]. intros H. apply Qeq_bool_iff in H. congruence.
  - intros g Hne. destruct (Cache.enabled cm); cbn [negb]; [|reflexivity].
    destruct (canWrite env f); [|reflexivity]. now rewrite lookup_insert_ne.
  - intros [-> | ->]; [reflexivity|]. now destruct (negb (Cache.enabled cm)).
  - intros entry'. destruct (Cache.enabled cm); cbn [negb]; [|reflexivity].
    destruct (canWrite env f); [|reflexivity]. apply insert_insert_eq.
Qed.

Lemma cache_set_get_witness :
  Cache.get Scenario.env Scenario.cache
    (Cache.set Scenario.env Scenario.cache ∅ Scenario.page Scenario.pageEntry) Scenario.page
  = Some Scenario.pageEntry.
Proof.
  destruct (cache_set_get Scenario.env Scenario.cache ∅ Scenario.page Scenario.pageEntry)
    as (H & _).
  apply (H eq_refl eq_refl {| mtimeMs := 1700000000000 # 1; size := 26 |} eq_refl).
  reflexivity.
Defined.

(** X13. A file that cannot be read, or in which the prefilter finds no
    declared name, is passed over without a trace when it is not served
    from the cache: no evidence, no flag, no cache file; in particular the
    string-scan fallback of [processFile] is not reached for a file that
    cannot be read. *)
Theorem processFile_skips (env : Env) (cache : Cache.CacheManager) (f : jsstring)
    (names : list jsstring) (st : ScanState) :
  hitOf env cache (cacheFiles st) f = None ->
  readFile env f = None \/ Scanner.fastScan env f names = [] ->
  processFile env cache f names st = st.
Proof.
  intros Hhit H.
  assert (Scanner.fastScan env f names = []) as Hscan.
  { destruct H as [H|H]; [|exact H]. unfold Scanner.fastScan. now rewrite H. }
  unfold processFile. fold (hitOf env cache (cacheFiles st) f). rewrite Hhit, Hscan.
  reflexivity.
Qed.

Lemma processFile_skips_witness :
  processFile Scenario.env Scenario.cache Scenario.notes Scenario.names Scenario.emptyState
  = Scenario.emptyState
  /\ processFile Scenario.env Scenario.cache (lit "/repo/lib/gone.ts") Scenario.names
       Scenario.emptyState
     = Scenario.emptyState.
Proof.
  split.
  - apply processFile_skips; [reflexivity|]. right. vm_compute. reflexivity.
  - apply processFile_skips; [reflexivity|]. left. reflexivity.
Defined.

(** X14. A cache hit is decided by the modification time alone: a file
    whose cache entry carries its current modification time is replayed
    from the entry, whatever the file holds now and whatever names are
    declared now; the file is not read and the stored digest is not
    compared. *)
Theorem processFile_hit_ignores_content (env1 env2 : Env) (cache : Cache.CacheManager)
    (f : jsstring) (names1 names2 : list jsstring) (st : ScanState) (c : CacheEntry) :
  stat env2 f = stat env1 f ->
  hitOf env1 cache (cacheFiles st) f = Some c ->
  processFile env1 cache f names1 st = replayCached f c st
  /\ processFile env2 cache f names2 st = replayCached f c st.
Proof.
  intros Hstat Hhit.
  assert (hitOf env2 cache (cacheFiles st) f = Some c) as Hhit2.
  { unfold hitOf, Cache.get, Scanner.getFileStats in *. now rewrite Hstat. }
  unfold processFile. fold (hitOf env1 cache (cacheFiles st) f).
  fold (hitOf env2 cache (cacheFiles st) f). now rewrite Hhit, Hhit2.
Qed.

Lemma processFile_hit_ignores_content_witness :
  readFile Examples.edited Scenario.page = Some (lit "export {};")
  /\ processFile Examples.edited Scenario.cache Scenario.page [] Examples.pageCachedState
     = replayCached Scenario.page Scenario.pageEntry Examples.pageCachedState.
Proof.
  split; [reflexivity|].
  assert (hitOf Scenario.env Scenario.cache (cacheFiles Examples.pageCachedState) Scenario.page
          = Some Scenario.pageEntry) as Hhit.
  { unfold hitOf, Cache.get, Examples.pageCachedState, Examples.pageCached.
    cbn [cacheFiles]. rewrite lookup_singleton_eq. reflexivity. }
  apply (processFile_hit_ignores_content Scenario.env Examples.edited Scenario.cache
           Scenario.page Scenario.names [] Examples.pageCachedState Scenario.pageEntry
           eq_refl Hhit).
Defined.

End CacheAndFiles.

(** ** The scan as a whole *)

Section ScanInvariants.
Import Analyzer ScanSpec.

Variable env : Env.
Variable cache : Cache.CacheManager.
Variable names : list jsstring.

Lemma missEvidence_entry (f d : jsstring) (e : EvidenceEntry) :
  In e (missEvidence env f names d) ->
  exists content imp,
    readFile env f = Some content
    /\ In imp (Parser.parseFile env content f)
    /\ packageName imp = d /\ d ∈ names
    /\ e = importEntry f content imp.
Proof.
  unfold missEvidence. cbv zeta.
  destruct (readFile env f) as [content|] eqn:Hread.
  - destruct (length (Scanner.fastScan env f names) =? 0)%nat; [intros []|].
    intros H. apply in_map_iff in H as (imp & <- & Him).
    apply filter_In in Him as [Him Hd]. apply filter_In in Him as [Him Hn].
    apply bool_decide_eq_true in Hd, Hn.
    exists content, imp. subst d. auto.
  - unfold Scanner.fastScan. rewrite Hread. intros [].
Qed.

Lemma processFile_entries (f : jsstring) (st : ScanState) (d : jsstring) (e : EvidenceEntry) :
  In e (evOf (evidenceMap (processFile env cache f names st)) d) ->
  In e (evOf (evidenceMap st) d)
  \/ e = cachedEntry f
  \/ In e (missEvidence env f names d).
Proof.
  destruct (processFile_spec env cache f names st d) as [-> _].
  rewrite in_app_iff. intros [H|H]; [now left|right].
  destruct (hitOf env cache (cacheFiles st) f) as [c|]; [left|now right].
  unfold replayEvidence in H. apply in_map_iff in H as (x & <- & _). reflexivity.
Qed.

Lemma scanFiles_entries (files : list jsstring) (st : ScanState) (d : jsstring)
    (e : EvidenceEntry) :
  In e (evOf (evidenceMap (scanFiles env cache names files st)) d) ->
  In e (evOf (evidenceMap st) d)
  \/ exists f, In f files /\ (e = cachedEntry f \/ In e (missEvidence env f names d)).
Proof.
  revert st. induction files as [|f files IH]; intros st; cbn [scanFiles fold_left].
  - now left.
  - intros H. apply IH in H as [H|(g & Hg & H)].
    + apply processFile_entries in H as [H|H]; [now left|].
      right. exists f. split; [now left | exact H].
    + right. exists g. split; [now right | exact H].
Qed.

End ScanInvariants.

Section SideFacts.
Import Analyzer ScanSpec SideSpec.

Variable env : Env.
Variable cache : Cache.CacheManager.
Variable names : list jsstring.

Lemma flagged_insert (isClient : option bool) (sides : gmap jsstring bool) :
  flagged (<[sideKey isClient := true]> sides).
Proof.
  unfold flagged, sideKey. destruct (default false isClient).
  - left. apply lookup_insert_eq.
  - right. apply lookup_insert_eq.
Qed.

Lemma missEvidence_found (f d : jsstring) :
  missEvidence env f names d <> [] <->
  exists content,
    readFile env f = Some content
    /\ Scanner.fastScan env f names <> []
    /\ d ∈ foundOf names (Parser.parseFile env content f).
Proof.
  unfold missEvidence. cbv zeta.
  destruct (readFile env f) as [content|] eqn:Hread.
  - destruct (Scanner.fastScan env f names) as [|x l] eqn:Hscan; cbn [length Nat.eqb].
    + split; [congruence|]. intros (_ & _ & H & _). congruence.
    + unfold foundOf.
      rewrite map_eq_nil_iff, filter_eq_nil.
      split.
      * intros H. exists content. split; [reflexivity|]. split; [discriminate|].
        apply elem_of_fold_Set_add. right. apply list_elem_of_In, in_map_iff.
        destruct (List.filter (fun imp => bool_decide (packageName imp = d))
                    (declaredImports names (Parser.parseFile env content f))) as [|imp l'] eqn:E.
        -- exfalso. apply H. now apply filter_eq_nil.
        -- assert (In imp (imp :: l')) as Hin by now left.
           rewrite <- E in Hin. apply filter_In in Hin as [Hin Hd].
           apply bool_decide_eq_true in Hd. eauto.
      * intros (content' & [= <-] & _ & H) Hall.
        apply elem_of_fold_Set_add in H as [H|H]; [now apply elem_of_nil in H|].
        apply list_elem_of_In, in_map_iff in H as (imp & <- & Hin). specialize (Hall imp Hin).
        now rewrite bool_decide_eq_true_2 in Hall.
  - unfold Scanner.fastScan. rewrite Hread. cbn [length Nat.eqb].
    split; [congruence|]. intros (content & H & _). discriminate.
Qed.

Lemma missSide_cases (f d : jsstring) (sides : gmap jsstring bool) :
  (missEvidence env f names d = [] /\ missSide env f names d sides = sides)
  \/ (missEvidence env f names d <> []
      /\ exists isClient, missSide env f names d sides = <[sideKey isClient := true]> sides).
Proof.
  destruct (decide (missEvidence env f names d = [])) as [E|E].
  - left. split; [exact E|]. unfold missSide.
    destruct (Scanner.fastScan env f names) as [|x l] eqn:Hscan; [reflexivity|].
    cbn [length Nat.eqb]. destruct (readFile env f) as [content|] eqn:Hread; [|reflexivity].
    case_bool_decide as Hd; [|reflexivity]. exfalso.
    assert (missEvidence env f names d <> []) as Hne; [|contradiction].
    apply missEvidence_found. exists content. rewrite Hscan. auto.
  - right. split; [exact E|].
    apply missEvidence_found in E as (content & Hread & Hscan & Hd).
    exists (Some (Parser.detectUseClient content)). unfold missSide.
    destruct (Scanner.fastScan env f names) as [|x l]; [contradiction|].
    cbn [length Nat.eqb]. rewrite Hread. now rewrite bool_decide_eq_true_2.
Qed.

Lemma replaySide_cases (f : jsstring) (c : CacheEntry) (d : jsstring)
    (sides : gmap jsstring bool) :
  (replayEvidence f c d = [] /\ replaySide c d sides = sides)
  \/ (replayEvidence f c d <> []
      /\ replaySide c d sides = <[sideKey (isClient c) := true]> sides).
Proof.
  unfold replaySide. case_bool_decide as Hd.
  - right. split; [|reflexivity]. rewrite replayEvidence_nil. tauto.
  - left. split; [|reflexivity]. now apply replayEvidence_nil.
Qed.

Lemma paired_step (l : list EvidenceEntry) (sides sides' : gmap jsstring bool)
    (ev : list EvidenceEntry) :
  ((ev = [] -> sides = ∅) /\ (ev <> [] -> flagged sides)) ->
  ((l = [] /\ sides' = sides)
   \/ (l <> [] /\ exists isClient, sides' = <[sideKey isClient := true]> sides)) ->
  (ev ++ l = [] -> sides' = ∅) /\ (ev ++ l <> [] -> flagged sides').
Proof.
  intros [H0 H1] [[-> ->]|[Hl (isClient & ->)]].
  - now rewrite app_nil_r.
  - split.
    + intros H. apply app_eq_nil in H as [_ H]. contradiction.
    + intros _. apply flagged_insert.
Qed.

Lemma processFile_paired (f : jsstring) (st : ScanState) (d : jsstring) :
  paired st d -> paired (processFile env cache f names st) d.
Proof.
  unfold paired. intros H.
  destruct (processFile_spec env cache f names st d) as [-> _].
  rewrite processFile_side.
  destruct (hitOf env cache (cacheFiles st) f) as [c|].
  - eapply paired_step; [exact H|].
    destruct (replaySide_cases f c d (sideOf (sideMap st) d)) as [E|[E1 E2]]; [now left|].
    right. split; [exact E1|]. eauto.
  - eapply paired_step; [exact H|]. apply missSide_cases.
Qed.

Lemma scanFiles_paired (files : list jsstring) (st : ScanState) (d : jsstring) :
  paired st d -> paired (scanFiles env cache names files st) d.
Proof.
  revert st. induction files as [|f files IH]; intros st H; cbn [scanFiles fold_left].
  - exact H.
  - apply IH. now apply processFile_paired.
Qed.

Lemma determineUsageSide_unknown (sides : gmap jsstring bool) :
  (sides = ∅ -> Confidence.determineUsageSide sides = unknown)
  /\ (flagged sides -> Confidence.determineUsageSide sides <> unknown).
Proof.
  unfold Confidence.determineUsageSide, flagged. split.
  - intros ->. now rewrite !lookup_empty.
  - intros [H|H]; rewrite H; cbn [default].
    + destruct (default false (sides !! lit "server")); discriminate.
    + destruct (default false (sides !! lit "client")); discriminate.
Qed.

End SideFacts.

Section ScanTheorems.
Import Analyzer ScanSpec SideSpec OrderSpec.
Local Open Scope Q_scope.

Lemma In_packages (env : Env) (manifests : Manifests) (options : ScanOptions)
    (files : gmap jsstring Cache.CacheFile) (r : ScanResult)
    (files' : gmap jsstring Cache.CacheFile) :
  runScan env manifests options files = Some (r, files') ->
  exists pj,
    manifests (cwd options) = Some pj
    /\ let st := scanFiles env (cacheOf options) (Package.getAllDependencyNames pj)
                   (Scanner.findFiles env options) (initialState files) in
       files' = cacheFiles st
       /\ r = resultOf env options pj st
       /\ forall p, In p (packages r) <->
                    exists d, In d (Package.getAllDependencyNames pj)
                              /\ p = buildResult options pj st d.
Proof.
  rewrite runScan_eq. destruct (manifests (cwd options)) as [pj|]; [|discriminate].
  cbv zeta. intros [= <- <-]. exists pj. split; [reflexivity|].
  split; [reflexivity|]. split; [reflexivity|].
  intros p. unfold resultOf. cbn [packages]. rewrite in_map_iff.
  split; intros (d & H1 & H2); exists d; auto.
Qed.

Lemma firstRun_eq :
  runScan Scenario.env Scenario.manifests Scenario.options ∅
  = Some (Examples.firstResult, cacheFiles Examples.firstState).
Proof. rewrite runScan_eq. reflexivity. Qed.

Lemma firstRun_package (n : jsstring) :
  In n (Package.getAllDependencyNames Scenario.manifest) ->
  In (Examples.packageOf n) (packages Examples.firstResult).
Proof.
  intros H. unfold Examples.firstResult, resultOf. cbn [packages].
  now apply (in_map (buildResult Scenario.options Scenario.manifest Examples.firstState)).
Qed.

Lemma runScan_entry_source (env : Env) (manifests : Manifests) (options : ScanOptions)
    (files : gmap jsstring Cache.CacheFile) (r : ScanResult)
    (files' : gmap jsstring Cache.CacheFile) :
  runScan env manifests options files = Some (r, files') ->
  forall p e, In p (packages r) -> In e (evidence p) ->
    exists names d f,
      In f (Scanner.findFiles env options)
      /\ (e = cachedEntry f \/ In e (missEvidence env f names d)).
Proof.
  intros Hrun p e Hp He.
  apply In_packages in Hrun as (pj & _ & _ & _ & Hin).
  apply Hin in Hp as (d & _ & ->). cbn [buildResult evidence] in He.
  apply (scanFiles_entries env) in He as [He|(f & Hf & He)];
    [unfold evOf, initialState in He; cbn [evidenceMap] in He;
     rewrite lookup_empty in He; destruct He|].
  eauto.
Qed.

Lemma entry_score (env : Env) (names : list jsstring) (f d : jsstring) (e : EvidenceEntry) :
  e = cachedEntry f \/ In e (missEvidence env f names d) -> 8 # 10 <= Confidence.scoreOf e.
Proof.
  intros [-> |He]; [rewrite scoreOf_baseWeight; q_const|].
  exact (missEvidence_scores env names f d e He).
Qed.

(** X15. Every evidence entry a scan reports, whatever cache directory it
    started from, names a file of the scanned list, carries one of the
    five tags of the syntax walk (so never string_reference,
    config_reference, plugin_reference or css_import) and weighs at least
    0.8; it has a snippet of at most 100 code units, and it has no line
    number exactly when it is the synthetic entry of a cache hit. *)
Theorem scan_evidence_provenance (env : Env) (manifests : Manifests) (options : ScanOptions)
    (files : gmap jsstring Cache.CacheFile) (r : ScanResult)
    (files' : gmap jsstring Cache.CacheFile) :
  runScan env manifests options files = Some (r, files') ->
  forall p e, In p (packages r) -> In e (evidence p) ->
    In (file e) (Scanner.findFiles env options)
    /\ parsedType (type e)
    /\ 8 # 10 <= Confidence.scoreOf e
    /\ (exists s, snippet e = Some s /\ (length s <= 100)%nat)
    /\ (line e = None <-> e = cachedEntry (file e)).
Proof.
  intros Hrun p e Hp He.
  destruct (runScan_entry_source _ _ _ _ _ _ Hrun p e Hp He) as (names & d & f & Hf & Hsrc).
  pose proof (entry_score env names f d e Hsrc) as Hscore.
  destruct Hsrc as [-> |He'].
  - cbn [cachedEntry file type line snippet]. split; [exact Hf|].
    split; [now left|]. split; [exact Hscore|].
    split; [eexists; split; [reflexivity|cbn; lia]|]. tauto.
  - apply missEvidence_entry in He' as (content & imp & _ & Himp & _ & _ & ->).
    cbn [importEntry file type line snippet]. split; [exact Hf|].
    split.
    { pose proof (parseFile_types env content f) as Hok.
      unfold okImports in Hok. rewrite Forall_forall in Hok.
      apply Hok. now apply list_elem_of_In. }
    split; [exact Hscore|].
    split; [eexists; split; [reflexivity|apply extractSnippet_length]|].
    split; [discriminate|]. intros H. discriminate H.
Qed.

Lemma scan_evidence_provenance_witness :
  In (Examples.packageOf (lit "react")) (packages Examples.firstResult)
  /\ In Examples.reactEntry (evidence (Examples.packageOf (lit "react")))
  /\ In (file Examples.reactEntry) (Scanner.findFiles Scenario.env Scenario.options)
  /\ parsedType (type Examples.reactEntry).
Proof.
  assert (In (Examples.packageOf (lit "react")) (packages Examples.firstResult)) as Hp.
  { apply firstRun_package. vm_compute. auto. }
  assert (In Examples.reactEntry (evidence (Examples.packageOf (lit "react")))) as He.
  { vm_compute. left. reflexivity. }
  destruct (scan_evidence_provenance _ _ _ _ _ _ firstRun_eq _ _ Hp He) as (H1 & H2 & _).
  auto.
Defined.

(** X16. A dependency's side is reported as unknown exactly when the
    scan has no evidence for it: evidence and mode flags are recorded
    together. *)
Theorem scan_side_unknown (env : Env) (manifests : Manifests) (options : ScanOptions)
    (files : gmap jsstring Cache.CacheFile) (r : ScanResult)
    (files' : gmap jsstring Cache.CacheFile) :
  runScan env manifests options files = Some (r, files') ->
  forall p, In p (packages r) -> (side p = unknown <-> evidence p = []).
Proof.
  intros Hrun p Hp.
  apply In_packages in Hrun as (pj & _ & _ & _ & Hin).
  apply Hin in Hp as (d & _ & ->). cbn [buildResult evidence side].
  set (st := scanFiles _ _ _ _ _).
  assert (paired st d) as [H0 H1].
  { apply scanFiles_paired. split; [reflexivity|].
    intros H. exfalso. apply H. unfold evOf, initialState. cbn [evidenceMap].
    now rewrite lookup_empty. }
  fold (evOf (evidenceMap st) d). fold (sideOf (sideMap st) d).
  destruct (determineUsageSide_unknown (sideOf (sideMap st) d)) as [Hu Hk].
  split.
  - intros Hside. destruct (evOf (evidenceMap st) d) as [|e l] eqn:E; [reflexivity|].
    exfalso. apply Hk; [|exact Hside]. apply H1. discriminate.
  - intros E. apply Hu, H0, E.
Qed.

Lemma scan_side_unknown_witness :
  evidence (Examples.packageOf (lit "some-pkg")) = []
  /\ side (Examples.packageOf (lit "some-pkg")) = unknown.
Proof.
  assert (evidence (Examples.packageOf (lit "some-pkg")) = []) as He
    by (vm_compute; reflexivity).
  split; [exact He|].
  apply (scan_side_unknown _ _ _ _ _ _ firstRun_eq).
  - apply firstRun_package. vm_compute. auto.
  - exact He.
Defined.

(** X17. With thresholds [0 < minUnused <= minUsed <= 0.8] (the defaults
    0.3 and 0.7 among them) no package of a result is uncertain, whatever
    the cache held: a package is used exactly when it has evidence and
    unused exactly when it has none, the uncertain total is 0, and the only
    note a package can carry is the peer-dependency note. *)
Theorem scan_never_uncertain (env : Env) (manifests : Manifests) (options : ScanOptions)
    (files : gmap jsstring Cache.CacheFile) (r : ScanResult)
    (files' : gmap jsstring Cache.CacheFile) :
  0 < minConfidenceUnused options ->
  minConfidenceUnused options <= minConfidenceUsed options ->
  minConfidenceUsed options <= 8 # 10 ->
  runScan env manifests options files = Some (r, files') ->
  t_uncertain (totals r) = 0%nat
  /\ forall p, In p (packages r) ->
       (status p = used <-> evidence p <> [])
       /\ (status p = unused <-> evidence p = [])
       /\ notes p = if bool_decide (section p = peerDependencies) then [NotesSpec.peerNote] else [].
Proof.
  intros Hpos Hle Hused Hrun.
  assert (forall p, In p (packages r) ->
            (evidence p <> [] -> status p = used)
            /\ (evidence p = [] -> status p = unused)
            /\ notes p = Confidence.generateNotes (status p) (evidence p) (section p)) as Hall.
  { intros p Hp. pose proof (runScan_entry_source _ _ _ _ _ _ Hrun p) as Hprov.
    apply In_packages in Hrun as (pj & _ & _ & _ & Hin).
    apply Hin in Hp as (d & Hd & ->). cbn [buildResult evidence status notes section] in *.
    split; [|split; [|reflexivity]].
    - intros Hne. apply classify_cases.
      apply Qle_trans with (8 # 10); [exact Hused|].
      apply confidence_at_least; [exact Hne | q_const |].
      intros e He. destruct (Hprov e) as (names & d' & f & _ & Hsrc); [|exact He|].
      { apply Hin. eauto. }
      exact (entry_score env names f d' e Hsrc).
    - intros ->. apply classify_cases. cbn. split; lra. }
  assert (forall p, In p (packages r) -> status p <> uncertain) as Hnot.
  { intros p Hp. destruct (Hall p Hp) as (H1 & H0 & _).
    destruct (evidence p) as [|e l]; [rewrite H0 by reflexivity|rewrite H1 by discriminate];
      discriminate. }
  split.
  - apply In_packages in Hrun as (pj & _ & _ & -> & _).
    unfold resultOf in *. cbn [totals t_uncertain packages] in *.
    unfold countStatus.
    match goal with |- length ?fl = _ => destruct fl as [|p l] eqn:E end; [reflexivity|].
    exfalso. assert (In p (p :: l)) as Hp by now left.
    rewrite <- E in Hp. apply filter_In in Hp as [Hp Hs].
    apply bool_decide_eq_true in Hs. now apply (Hnot p).
  - intros p Hp. destruct (Hall p Hp) as (H1 & H0 & Hn). specialize (Hnot p Hp).
    split; [|split].
    + split; [|exact H1]. intros Hs E. rewrite (H0 E) in Hs. discriminate.
    + split; [|exact H0]. intros Hs. destruct (evidence p); [reflexivity|].
      rewrite H1 in Hs by discriminate. discriminate.
    + rewrite Hn. unfold Confidence.generateNotes.
      rewrite bool_decide_eq_false_2 by exact Hnot. reflexivity.
Qed.


Lemma scan_never_uncertain_witness :
  t_uncertain (totals Examples.firstResult) = 0%nat
  /\ status (Examples.packageOf (lit "some-pkg")) = unused.
Proof.
  destruct (scan_never_uncertain Scenario.env Scenario.manifests Scenario.options ∅
              Examples.firstResult (cacheFiles Examples.firstState))
    as [H0 Hall]; [q_const | q_const | q_const | exact firstRun_eq |].
  split; [exact H0|].
  apply (Hall (Examples.packageOf (lit "some-pkg"))).
  - apply firstRun_package. vm_compute. auto.
  - vm_compute. reflexivity.
Defined.

(** X18. A package the report lists as a safe removal candidate has no
    evidence at all (its confidence is 0), is unused and is no peer
    dependency; with positive thresholds every package without evidence
    outside the peer section is listed. *)
Theorem safe_removal_candidates (env : Env) (manifests : Manifests) (options : ScanOptions)
    (files : gmap jsstring Cache.CacheFile) (r : ScanResult)
    (files' : gmap jsstring Cache.CacheFile) :
  runScan env manifests options files = Some (r, files') ->
  (forall p, In p (Output.safeToRemove r) ->
     In p (packages r) /\ evidence p = [] /\ confidence p = 0 /\ status p = unused
     /\ section p <> peerDependencies)
  /\ (0 < minConfidenceUnused options -> 0 < minConfidenceUsed options ->
      forall p, In p (packages r) -> evidence p = [] -> section p <> peerDependencies ->
                In p (Output.safeToRemove r)).
Proof.
  intros Hrun. apply In_packages in Hrun as (pj & _ & _ & _ & Hin).
  unfold Output.safeToRemove. split.
  - intros p Hp. apply filter_In in Hp as [Hp Hc].
    apply andb_true_iff in Hc as [Hc Hs]. apply andb_true_iff in Hc as [Hu Hc].
    apply bool_decide_eq_true in Hu. apply negb_true_iff, bool_decide_eq_false in Hs.
    split; [exact Hp|]. apply Hin in Hp as (d & _ & ->).
    cbn [buildResult evidence confidence status section] in *.
    fold (evOf (evidenceMap (scanFiles env (cacheOf options) (Package.getAllDependencyNames pj)
                               (Scanner.findFiles env options) (initialState files))) d) in *.
    destruct (evOf _ d) as [|e l] eqn:E; [auto|]. exfalso.
    assert (3 # 10 <= Confidence.calculateConfidence (e :: l)) as Hge.
    { apply confidence_at_least; [discriminate | q_const |].
      intros e' _. rewrite scoreOf_baseWeight. apply baseWeight_bounds. }
    unfold Confidence.ltb in Hc. apply negb_true_iff in Hc.
    apply Qle_bool_iff in Hge. congruence.
  - intros Hpos1 Hpos2 p Hp He Hs. apply filter_In. split; [exact Hp|].
    apply Hin in Hp as (d & _ & ->).
    cbn [buildResult evidence confidence status section] in *. rewrite He.
    assert (Confidence.classifyDependency (Confidence.calculateConfidence [])
              (minConfidenceUnused options) (minConfidenceUsed options) = unused) as ->.
    { apply classify_cases. cbn. split; lra. }
    rewrite bool_decide_eq_true_2 by reflexivity.
    rewrite (bool_decide_eq_false_2 _ Hs). reflexivity.
Qed.

Lemma safe_removal_candidates_witness :
  In (Examples.packageOf (lit "some-pkg")) (Output.safeToRemove Examples.firstResult).
Proof.
  destruct (safe_removal_candidates _ _ _ _ _ _ firstRun_eq) as [_ H].
  apply H.
  - q_const.
  - q_const.
  - apply firstRun_package. vm_compute. auto.
  - vm_compute. reflexivity.
  - vm_compute. discriminate.
Defined.

Lemma confidence_app (l1 l2 : list EvidenceEntry) :
  Confidence.calculateConfidence l1 <= Confidence.calculateConfidence (l1 ++ l2).
Proof.
  revert l1. induction l2 as [|e l2 IH]; intros l1.
  - rewrite app_nil_r. apply Qle_refl.
  - apply Qle_trans with (Confidence.calculateConfidence (l1 ++ l2)); [apply IH|].
    apply confidence_insert.
Qed.

Lemma touch_keeps (b : bool) (key k : jsstring) (sides : gmap jsstring bool) :
  sides !! k = Some true -> touch b key sides !! k = Some true.
Proof.
  destruct b; cbn [touch]; [|auto]. intros H.
  destruct (decide (key = k)) as [->|Hne]; [apply lookup_insert_eq|].
  now rewrite lookup_insert_ne.
Qed.

Lemma processFile_grows (env : Env) (cache : Cache.CacheManager) (names : list jsstring)
    (f : jsstring) (st : ScanState) (d : jsstring) :
  (exists l, evOf (evidenceMap (processFile env cache f names st)) d
             = evOf (evidenceMap st) d ++ l)
  /\ (forall k, sideOf (sideMap st) d !! k = Some true ->
                sideOf (sideMap (processFile env cache f names st)) d !! k = Some true).
Proof.
  split.
  - destruct (processFile_spec env cache f names st d) as [-> _]. eauto.
  - intros k Hk. rewrite processFile_side.
    destruct (hitOf env cache (cacheFiles st) f) as [c|].
    + unfold replaySide. now apply touch_keeps.
    + unfold missSide.
      destruct (length (Scanner.fastScan env f names) =? 0)%nat; [exact Hk|].
      destruct (readFile env f); [|exact Hk]. now apply touch_keeps.
Qed.

(** X19. Processing further files only appends to the evidence of a
    dependency: its confidence does not go down, its status is not sorted
    later (used stays used, nothing becomes unused), and a mode flag once
    set stays set. *)
Theorem scan_monotone (env : Env) (cache : Cache.CacheManager) (names files : list jsstring)
    (st : ScanState) (d : jsstring) (minUnused minUsed : Q) :
  let st' := scanFiles env cache names files st in
  (exists l, evOf (evidenceMap st') d = evOf (evidenceMap st) d ++ l)
  /\ Confidence.calculateConfidence (evOf (evidenceMap st) d)
     <= Confidence.calculateConfidence (evOf (evidenceMap st') d)
  /\ (Confidence.getSortPriority
        (Confidence.classifyDependency
           (Confidence.calculateConfidence (evOf (evidenceMap st') d)) minUnused minUsed)
      <= Confidence.getSortPriority
           (Confidence.classifyDependency
              (Confidence.calculateConfidence (evOf (evidenceMap st) d)) minUnused minUsed))%Z
  /\ (forall k, sideOf (sideMap st) d !! k = Some true ->
                sideOf (sideMap st') d !! k = Some true).
Proof.
  cbv zeta.
  assert ((exists l, evOf (evidenceMap (scanFiles env cache names files st)) d
                     = evOf (evidenceMap st) d ++ l)
          /\ (forall k, sideOf (sideMap st) d !! k = Some true ->
                sideOf (sideMap (scanFiles env cache names files st)) d !! k = Some true))
    as [(l & ->) Hside].
  { revert st. induction files as [|f files IH]; intros st; cbn [scanFiles fold_left].
    - split; [exists []; now rewrite app_nil_r | auto].
    - destruct (IH (processFile env cache f names st)) as [(l & Hl) Hs].
      destruct (processFile_grows env cache names f st d) as [(l0 & Hl0) Hs0].
      split.
      + exists (l0 ++ l). unfold scanFiles in Hl. rewrite Hl, Hl0. now rewrite app_assoc.
      + intros k Hk. apply Hs, Hs0, Hk. }
  split; [eauto|]. split; [apply confidence_app|].
  split; [apply getSortPriority_antitone, confidence_app | exact Hside].
Qed.

Lemma buildResult_ext (options : ScanOptions) (pj : PackageJson) (st1 st2 : ScanState)
    (d : jsstring) :
  evOf (evidenceMap st1) d = evOf (evidenceMap st2) d ->
  sideOf (sideMap st1) d = sideOf (sideMap st2) d ->
  buildResult options pj st1 d = buildResult options pj st2 d.
Proof. unfold buildResult, evOf, sideOf. now intros -> ->. Qed.

Lemma scanFiles_disabled (env : Env) (cache : Cache.CacheManager) (names files : list jsstring)
    (st : ScanState) :
  Cache.enabled cache = false ->
  cacheFiles (scanFiles env cache names files st) = cacheFiles st
  /\ (forall d, evOf (evidenceMap (scanFiles env cache names files st)) d
                = evOf (evidenceMap st) d
                  ++ flat_map (fun f => missEvidence env f names d) files)
  /\ (forall d, sideOf (sideMap (scanFiles env cache names files st)) d
                = fold_left (fun sides f => missSide env f names d sides) files
                            (sideOf (sideMap st) d)).
Proof.
  intros Hoff.
  assert (forall fs f, hitOf env cache fs f = None) as Hhit.
  { intros fs f. unfold hitOf, Cache.get. now rewrite Hoff. }
  assert (forall f, missWrite env cache f names = None) as Hwrite.
  { intros f. unfold missWrite. rewrite Hoff.
    destruct (length (Scanner.fastScan env f names) =? 0)%nat; [reflexivity|].
    destruct (readFile env f); [|reflexivity]. now destruct (stat env f). }
  revert st. induction files as [|f files IH]; intros st; cbn [scanFiles fold_left flat_map].
  - split; [reflexivity|]. split; [|reflexivity]. intros d. now rewrite app_nil_r.
  - destruct (IH (processFile env cache f names st)) as (Hc & He & Hs).
    unfold scanFiles in Hc, He, Hs. rewrite Hc. split; [|split].
    + destruct (processFile_spec env cache f names st []) as [_ ->].
      now rewrite Hhit, Hwrite.
    + intros d. rewrite He. destruct (processFile_spec env cache f names st d) as [-> _].
      now rewrite Hhit, app_assoc.
    + intros d. rewrite Hs, processFile_side. now rewrite Hhit.
Qed.

(** X20. With the cache disabled ([noCache]) a scan neither reads nor
    writes the cache directory: the result is the one of a scan that starts
    without cache files, and the directory is left as it was. *)
Theorem runScan_noCache (env : Env) (manifests : Manifests) (options : ScanOptions)
    (files : gmap jsstring Cache.CacheFile) :
  noCache options = Some true ->
  runScan env manifests options files
  = option_map (fun run => (fst run, files)) (runScan env manifests options ∅).
Proof.
  intros Hno. rewrite !runScan_eq.
  destruct (manifests (cwd options)) as [pj|]; [|reflexivity].
  cbv zeta. cbn [option_map fst].
  assert (Cache.enabled (cacheOf options) = false) as Hoff.
  { unfold cacheOf, Cache.new_CacheManager. cbn [Cache.enabled]. now rewrite Hno. }
  destruct (scanFiles_disabled env (cacheOf options) (Package.getAllDependencyNames pj)
              (Scanner.findFiles env options) (initialState files) Hoff) as (Hc & He & Hs).
  destruct (scanFiles_disabled env (cacheOf options) (Package.getAllDependencyNames pj)
              (Scanner.findFiles env options) (initialState ∅) Hoff) as (_ & He0 & Hs0).
  rewrite Hc. cbn [initialState cacheFiles]. f_equal. f_equal.
  unfold resultOf.
  assert (List.map (buildResult options pj
                      (scanFiles env (cacheOf options) (Package.getAllDependencyNames pj)
                         (Scanner.findFiles env options) (initialState files)))
                   (Package.getAllDependencyNames pj)
          = List.map (buildResult options pj
                        (scanFiles env (cacheOf options) (Package.getAllDependencyNames pj)
                           (Scanner.findFiles env options) (initialState ∅)))
                     (Package.getAllDependencyNames pj)) as ->; [|reflexivity].
  apply map_ext. intros d. apply buildResult_ext.
  - now rewrite He, He0.
  - now rewrite Hs, Hs0.
Qed.


Lemma runScan_noCache_witness :
  runScan Scenario.env Scenario.manifests Examples.optionsNoCache Examples.pageCached
  = option_map (fun run => (fst run, Examples.pageCached))
      (runScan Scenario.env Scenario.manifests Examples.optionsNoCache ∅).
Proof.
  exact (runScan_noCache Scenario.env Scenario.manifests Examples.optionsNoCache
           Examples.pageCached eq_refl).
Defined.

(** The entry a scanned file leaves. *)
Lemma missWrite_entry (env : Env) (cache : Cache.CacheManager) (names : list jsstring)
    (f : jsstring) (e : CacheEntry) :
  missWrite env cache f names = Some e ->
  Cache.enabled cache = true
  /\ exists content s,
       readFile env f = Some content /\ stat env f = Some s
       /\ hash e = sha256 env content /\ mtime e = mtimeMs s
       /\ isClient e = Some (Parser.detectUseClient content)
       /\ NoDup (imports e)
       /\ (forall d, d ∈ imports e -> d ∈ names).
Proof.
  unfold missWrite.
  destruct (length (Scanner.fastScan env f names) =? 0)%nat; [discriminate|].
  destruct (readFile env f) as [content|]; [|discriminate].
  destruct (stat env f) as [s|]; [|discriminate].
  destruct (Cache.enabled cache); [|discriminate]. cbn [andb].
  destruct (canWrite env f); [|discriminate].
  intros [= <-]. split; [reflexivity|]. exists content, s. cbn.
  repeat (split; [reflexivity|]). unfold foundOf. split.
  - apply NoDup_fold_Set_add, NoDup_nil_2.
  - intros d Hd. apply elem_of_fold_Set_add in Hd as [Hd|Hd]; [now apply elem_of_nil in Hd|].
    apply list_elem_of_In, in_map_iff in Hd as (imp & <- & Himp).
    apply filter_In in Himp as [_ Hn]. now apply bool_decide_eq_true in Hn.
Qed.

Lemma scanFiles_cache (env : Env) (cache : Cache.CacheManager) (names files : list jsstring)
    (st : ScanState) (g : jsstring) :
  (~ In g files -> cacheFiles (scanFiles env cache names files st) !! g = cacheFiles st !! g)
  /\ (cacheFiles (scanFiles env cache names files st) !! g = cacheFiles st !! g
      \/ exists e, cacheFiles (scanFiles env cache names files st) !! g = Some (Cache.Stored e)
                   /\ missWrite env cache g names = Some e).
Proof.
  revert st. induction files as [|f files IH]; intros st; cbn [scanFiles fold_left].
  - auto.
  - destruct (IH (processFile env cache f names st)) as [H1 H2]. unfold scanFiles in H1, H2.
    assert (cacheFiles (processFile env cache f names st) !! g = cacheFiles st !! g
            \/ (g = f /\ exists e, cacheFiles (processFile env cache f names st) !! g
                                  = Some (Cache.Stored e)
                                  /\ missWrite env cache g names = Some e)) as Hstep.
    { destruct (processFile_spec env cache f names st []) as [_ ->].
      destruct (hitOf env cache (cacheFiles st) f); [now left|].
      destruct (missWrite env cache f names) as [e|] eqn:E; [|now left].
      destruct (decide (g = f)) as [->|Hne].
      - right. split; [reflexivity|]. exists e. now rewrite lookup_insert_eq.
      - left. now rewrite lookup_insert_ne. }
    split.
    + intros Hg. rewrite H1 by (intros H; apply Hg; now right).
      destruct Hstep as [H|[-> _]]; [exact H|]. exfalso. apply Hg. now left.
    + destruct H2 as [H2|H2]; [|now right]. rewrite H2.
      destruct Hstep as [H|[_ H]]; [now left | now right].
Qed.

(** X21. A scan leaves alone the cache files of files that are not in
    its list. A cache file it leaves changed is one it wrote with the cache
    enabled: it holds the digest of the file's content, the file's
    modification time, the directive flag of the content, and the names
    found in the file, each once and each a declared name. *)
Theorem scan_cache_footprint (env : Env) (manifests : Manifests) (options : ScanOptions)
    (files : gmap jsstring Cache.CacheFile) (r : ScanResult)
    (files' : gmap jsstring Cache.CacheFile) :
  runScan env manifests options files = Some (r, files') ->
  forall g,
    (~ In g (Scanner.findFiles env options) -> files' !! g = files !! g)
    /\ (files' !! g = files !! g
        \/ exists e content s,
             files' !! g = Some (Cache.Stored e)
             /\ noCache options <> Some true
             /\ readFile env g = Some content /\ stat env g = Some s
             /\ hash e = sha256 env content /\ mtime e = mtimeMs s
             /\ isClient e = Some (Parser.detectUseClient content)
             /\ NoDup (imports e)
             /\ (forall d, d ∈ imports e -> In d (List.map name (packages r)))).
Proof.
  intros Hrun g. apply In_packages in Hrun as (pj & _ & -> & -> & _).
  destruct (scanFiles_cache env (cacheOf options) (Package.getAllDependencyNames pj)
              (Scanner.findFiles env options) (initialState files) g) as [H1 H2].
  split; [exact H1|]. destruct H2 as [H2|(e & He & Hw)]; [now left|]. right.
  apply missWrite_entry in Hw as (Hon & content & s & Hread & Hstat & Hh & Hm & Hc & Hnd & Hin).
  exists e, content, s. split; [exact He|]. split.
  { intros Hno. unfold cacheOf, Cache.new_CacheManager in Hon. cbn [Cache.enabled] in Hon.
    rewrite Hno in Hon. discriminate. }
  repeat (split; [assumption|]).
  intros d Hd. unfold resultOf. cbn [packages]. rewrite List.map_map. cbn [buildResult name].
  rewrite List.map_id. now apply list_elem_of_In, Hin.
Qed.

Lemma scan_cache_footprint_witness :
  cacheFiles Examples.firstState !! Scenario.notes = None.
Proof.
  destruct (scan_cache_footprint _ _ _ _ _ _ firstRun_eq Scenario.notes) as [H _].
  rewrite H; [apply lookup_empty|].
  vm_compute. intros [H1|[H1|[H1|[]]]]; discriminate H1.
Defined.

Lemma Math_max_incl (x x' : Q) (xs xs' : list Q) :
  (forall y, In y (x :: xs) -> In y (x' :: xs')) ->
  Confidence.Math_max x xs <= Confidence.Math_max x' xs'.
Proof.
  intros Hincl. destruct (Math_max_attained xs x) as (y & Hy & ->).
  apply Hincl in Hy as [<-|Hy]; [apply Math_max_ge_init | now apply Math_max_ge].
Qed.

Lemma confidence_perm (l1 l2 : list EvidenceEntry) :
  Permutation l1 l2 ->
  Confidence.calculateConfidence l1 == Confidence.calculateConfidence l2.
Proof.
  intros Hp. destruct l1 as [|e1 l1], l2 as [|e2 l2].
  - reflexivity.
  - now apply Permutation_nil_cons in Hp.
  - apply Permutation_sym in Hp. now apply Permutation_nil_cons in Hp.
  - rewrite !calculateConfidence_cons. rewrite (Permutation_length Hp).
    assert (Confidence.Math_max (Confidence.scoreOf e1) (List.map Confidence.scoreOf l1)
            == Confidence.Math_max (Confidence.scoreOf e2) (List.map Confidence.scoreOf l2))
      as Hm.
    { apply Qle_antisym; apply Math_max_incl; intros y Hy.
      - change (In y (List.map Confidence.scoreOf (e1 :: l1))) in Hy.
        change (In y (List.map Confidence.scoreOf (e2 :: l2))).
        apply in_map_iff in Hy as (e & <- & He). apply in_map.
        now apply (Permutation_in _ Hp).
      - change (In y (List.map Confidence.scoreOf (e2 :: l2))) in Hy.
        change (In y (List.map Confidence.scoreOf (e1 :: l1))).
        apply in_map_iff in Hy as (e & <- & He). apply in_map.
        now apply (Permutation_in _ (Permutation_sym Hp)). }
    apply Qle_antisym; apply Q.min_le_compat_r; lra.
Qed.

Lemma classify_Qeq (c1 c2 minUnused minUsed : Q) :
  c1 == c2 ->
  Confidence.classifyDependency c1 minUnused minUsed
  = Confidence.classifyDependency c2 minUnused minUsed.
Proof.
  intros E.
  destruct (Confidence.classifyDependency c1 minUnused minUsed) eqn:E1;
    destruct (Confidence.classifyDependency c2 minUnused minUsed) eqn:E2;
    try reflexivity; exfalso;
    apply classify_cases in E1; apply classify_cases in E2; lra.
Qed.

Lemma hasType_perm (t : EvidenceType) (l1 l2 : list EvidenceEntry) :
  Permutation l1 l2 -> Confidence.hasType t l1 = Confidence.hasType t l2.
Proof.
  intros Hp. unfold Confidence.hasType.
  assert (Permutation (List.filter (fun e => bool_decide (type e = t)) l1)
                      (List.filter (fun e => bool_decide (type e = t)) l2)) as H.
  { clear -Hp. induction Hp; cbn [List.filter].
    - constructor.
    - destruct (bool_decide (type x = t)); [now constructor | assumption].
    - destruct (bool_decide (type x = t)), (bool_decide (type y = t));
        try apply Permutation_refl; apply perm_swap.
    - eapply Permutation_trans; eassumption. }
  now rewrite (Permutation_length H).
Qed.

Lemma notes_perm (s : DependencyStatus) (l1 l2 : list EvidenceEntry)
    (sec : DependencySection) :
  Permutation l1 l2 ->
  Confidence.generateNotes s l1 sec = Confidence.generateNotes s l2 sec.
Proof.
  intros Hp. unfold Confidence.generateNotes.
  rewrite !(hasType_perm _ l1 l2 Hp). now rewrite (Permutation_length Hp).
Qed.

Lemma touch_comm (b1 b2 : bool) (k1 k2 : jsstring) (s : gmap jsstring bool) :
  touch b1 k1 (touch b2 k2 s) = touch b2 k2 (touch b1 k1 s).
Proof.
  destruct b1, b2; cbn [touch]; try reflexivity.
  destruct (decide (k1 = k2)) as [->|Hne]; [reflexivity|]. now apply insert_insert_ne.
Qed.

Lemma missSide_touch (env : Env) (f : jsstring) (names : list jsstring) (d : jsstring) :
  exists b k, forall sides, missSide env f names d sides = touch b k sides.
Proof.
  unfold missSide.
  destruct (length (Scanner.fastScan env f names) =? 0)%nat; [now exists false, []|].
  destruct (readFile env f) as [content|]; [|now exists false, []].
  eauto.
Qed.

Lemma missSide_perm (env : Env) (names : list jsstring) (d : jsstring)
    (files1 files2 : list jsstring) :
  Permutation files1 files2 ->
  forall sides,
    fold_left (fun sides f => missSide env f names d sides) files1 sides
    = fold_left (fun sides f => missSide env f names d sides) files2 sides.
Proof.
  induction 1 as [|f l1 l2 _ IH|f g l|l1 l2 l3 _ IH1 _ IH2]; intros sides; cbn [fold_left].
  - reflexivity.
  - apply IH.
  - f_equal. destruct (missSide_touch env f names d) as (b1 & k1 & H1).
    destruct (missSide_touch env g names d) as (b2 & k2 & H2).
    rewrite !H1, !H2. apply touch_comm.
  - now rewrite IH1.
Qed.

Lemma buildResult_perm (options : ScanOptions) (pj : PackageJson) (st1 st2 : ScanState)
    (d : jsstring) :
  Permutation (evOf (evidenceMap st1) d) (evOf (evidenceMap st2) d) ->
  sideOf (sideMap st2) d = sideOf (sideMap st1) d ->
  sameUpToOrder (buildResult options pj st1 d) (buildResult options pj st2 d).
Proof.
  unfold evOf, sideOf, sameUpToOrder, buildResult.
  cbn [name section status confidence side notes evidence].
  intros Hp ->. pose proof (confidence_perm _ _ Hp) as Hc.
  assert (Confidence.classifyDependency
            (Confidence.calculateConfidence (default [] (evidenceMap st2 !! d)))
            (minConfidenceUnused options) (minConfidenceUsed options)
          = Confidence.classifyDependency
              (Confidence.calculateConfidence (default [] (evidenceMap st1 !! d)))
              (minConfidenceUnused options) (minConfidenceUsed options)) as Hs.
  { apply classify_Qeq. now symmetry. }
  repeat split; try reflexivity; try exact Hs; try exact Hp.
  - now symmetry.
  - rewrite Hs. symmetry. now apply notes_perm.
Qed.

Lemma countStatus_map (s : DependencyStatus) (ps : list PackageResult) :
  countStatus s ps
  = length (List.filter (fun x => bool_decide (x = s)) (List.map status ps)).
Proof.
  unfold countStatus. induction ps as [|p ps IH]; cbn [List.filter List.map]; [reflexivity|].
  destruct (bool_decide (status p = s)); cbn [length]; now rewrite IH.
Qed.

(** X22. Confidence, status and notes of a dependency depend on which
    evidence entries there are, not on the order they were recorded in. *)
Theorem evidence_order_irrelevant (l1 l2 : list EvidenceEntry) (minUnused minUsed : Q)
    (status : DependencyStatus) (section : DependencySection) :
  Permutation l1 l2 ->
  Confidence.calculateConfidence l1 == Confidence.calculateConfidence l2
  /\ Confidence.classifyDependency (Confidence.calculateConfidence l1) minUnused minUsed
     = Confidence.classifyDependency (Confidence.calculateConfidence l2) minUnused minUsed
  /\ Confidence.generateNotes status l1 section = Confidence.generateNotes status l2 section.
Proof.
  intros Hp. pose proof (confidence_perm l1 l2 Hp) as Hc.
  split; [exact Hc|]. split; [now apply classify_Qeq | now apply notes_perm].
Qed.

Lemma evidence_order_irrelevant_witness :
  Confidence.calculateConfidence [cachedEntry Scenario.page; fallbackEntry Scenario.lazy]
  == Confidence.calculateConfidence [fallbackEntry Scenario.lazy; cachedEntry Scenario.page].
Proof.
  apply (evidence_order_irrelevant _ _ (3 # 10) (7 # 10) uncertain dependencies).
  apply perm_swap.
Defined.

(** X23. The order in which the files are listed changes the order of
    the evidence entries and nothing else: for a scan that starts without
    cache files over distinct paths, listing the same files in another
    order gives, package by package, the same name, section, status,
    confidence, side and notes, the same evidence up to order, the same
    totals and the same cache directory. *)
Theorem runScan_file_order (env : Env)
    (g : list jsstring -> jsstring -> list jsstring -> list jsstring)
    (manifests : Manifests) (options : ScanOptions) (r1 : ScanResult)
    (c1 : gmap jsstring Cache.CacheFile) :
  NoDup (Scanner.findFiles env options) ->
  Permutation (Scanner.findFiles env options) (Scanner.findFiles (withGlob env g) options) ->
  runScan env manifests options ∅ = Some (r1, c1) ->
  exists r2,
    runScan (withGlob env g) manifests options ∅ = Some (r2, c1)
    /\ Forall2 sameUpToOrder (packages r1) (packages r2)
    /\ totals r2 = totals r1.
Proof.
  intros Hnd Hperm. rewrite !runScan_eq.
  destruct (manifests (cwd options)) as [pj|]; [|discriminate].
  set (cache := cacheOf options).
  set (names := Package.getAllDependencyNames pj).
  set (files1 := Scanner.findFiles env options) in *.
  set (files2 := Scanner.findFiles (withGlob env g) options) in *.
  cbv zeta. intros [= <- <-].
  change (scanFiles (withGlob env g) cache names files2 (initialState ∅))
    with (scanFiles env cache names files2 (initialState ∅)).
  assert (NoDup files2) as Hnd2 by now rewrite <- Hperm.
  destruct (scanFiles_uncached env cache names files1 (initialState ∅) Hnd)
    as (He1 & Hs1 & Hc1); [intros f _; apply lookup_empty|].
  destruct (scanFiles_uncached env cache names files2 (initialState ∅) Hnd2)
    as (He2 & Hs2 & Hc2); [intros f _; apply lookup_empty|].
  set (st1 := scanFiles env cache names files1 (initialState ∅)) in *.
  set (st2 := scanFiles env cache names files2 (initialState ∅)) in *.
  assert (cacheFiles st2 = cacheFiles st1) as ->.
  { apply map_eq. intros h. rewrite Hc1, Hc2.
    assert (bool_decide (h ∈ files2) = bool_decide (h ∈ files1)) as ->; [|reflexivity].
    apply bool_decide_ext. now rewrite Hperm. }
  assert (forall d, sameUpToOrder (buildResult options pj st1 d) (buildResult options pj st2 d))
    as Hsame.
  { intros d. apply buildResult_perm.
    - rewrite He1, He2. cbn [app]. now apply Permutation_flat_map.
    - rewrite Hs1, Hs2. symmetry. now apply missSide_perm. }
  eexists. split; [reflexivity|].
  unfold resultOf. cbn [packages totals]. split.
  - now apply Forall2_map_same.
  - rewrite !countStatus_map, !List.map_map.
    assert (List.map (fun x => status (buildResult options pj st2 x))
                     (Package.getAllDependencyNames pj)
            = List.map (fun x => status (buildResult options pj st1 x))
                       (Package.getAllDependencyNames pj)) as ->;
      [|reflexivity].
    apply map_ext. intros d. apply Hsame.
Qed.

Lemma runScan_file_order_witness :
  exists r2,
    runScan (withGlob Scenario.env Examples.reversedGlob) Scenario.manifests
            Scenario.options ∅
    = Some (r2, cacheFiles Examples.firstState)
    /\ Forall2 sameUpToOrder (packages Examples.firstResult) (packages r2)
    /\ totals r2 = totals Examples.firstResult.
Proof.
  apply (runScan_file_order Scenario.env Examples.reversedGlob Scenario.manifests
           Scenario.options Examples.firstResult (cacheFiles Examples.firstState)).
  - apply (bool_decide_unpack _). vm_compute. exact I.
  - change (Scanner.findFiles (withGlob Scenario.env Examples.reversedGlob) Scenario.options)
      with (rev (Scanner.findFiles Scenario.env Scenario.options)).
    apply Permutation_rev.
  - exact firstRun_eq.
Defined.

End ScanTheorems.

Section ReportedSection.
Import Analyzer ScanSpec Package PackageSpec.




End ReportedSection.

(** ** The pnpm workspace file *)

Section PnpmWorkspace.
Import Workspace WorkspaceSpec.






End PnpmWorkspace.
